(** * gitwrapper: the multi-remote push dispatch, history and configuration

    A shallow embedding of [gw.py] (class [InteractiveGitWrapper]) and the
    properties of its push dispatch, bounded history and configuration
    loading.

    Conventions of the embedding
    - A Python [str] is a [string] whose characters are code points below
      256.
    - A Python value that flows through the modelled code (a JSON document,
      a configuration value, the result of [run_git_command]) is a [JVal].
      JSON numbers with a fraction or an exponent are outside the model.
    - An exception is a value of [Exn]; a computation that may raise returns
      a [result].
    - The outside world (the git processes, the keyboard, the clock, the
      file system, the thread scheduler) is a parameter of the functions
      that depend on it. *)

From Stdlib Require Import ZArith Ascii String.
From stdpp Require Import base list strings pretty.

#[local] Set Warnings "-register-all".

Local Open Scope string_scope.
Local Open Scope list_scope.

(** ** Python values *)

Inductive JVal :=
| JNull
| JBool (b : bool)
| JInt (n : Z)
| JStr (s : string)
| JList (items : list JVal)
| JDict (members : list (string * JVal)).

Inductive Exn :=
| TypeError
| ValueError
| KeyError
| EOFError
| OSError
| AttributeError
| UnicodeDecodeError.

Inductive result (A : Type) :=
| Ok (a : A)
| Raise (e : Exn).
Arguments Ok {A} a.
Arguments Raise {A} e.

(** [bool(v)]: the truth value Python gives [v] in [if v], [not v],
    [a and b], [a or b]. *)
Definition truthy (v : JVal) : bool :=
  match v with
  | JNull => false
  | JBool b => b
  | JInt n => negb (n =? 0)%Z
  | JStr s => negb (s =? "")%string
  | JList items => match items with [] => false | _ => true end
  | JDict members => match members with [] => false | _ => true end
  end.

(** [a and b] returns one of its operands. *)
Definition py_and (a b : JVal) : JVal := if truthy a then b else a.

(** ** Strings *)

Definition nat_of_char (c : ascii) : nat := nat_of_ascii c.

(** [c.isspace()] for a code point below 256. *)
Definition isspace (c : ascii) : bool :=
  let n := nat_of_char c in
  ((9 <=? n)%nat && (n <=? 13)%nat) || ((28 <=? n)%nat && (n <=? 32)%nat)
  || (n =? 133)%nat || (n =? 160)%nat.

Fixpoint lstrip (s : string) : string :=
  match s with
  | String c s' => if isspace c then lstrip s' else s
  | EmptyString => EmptyString
  end.

(** Drops trailing white space: a character is kept when it is not white
    space or when something is kept after it. *)
Fixpoint rstrip (s : string) : string :=
  match s with
  | String c s' =>
      match rstrip s' with
      | EmptyString => if isspace c then EmptyString else String c EmptyString
      | t => String c t
      end
  | EmptyString => EmptyString
  end.

(** [s.strip()] *)
Definition strip (s : string) : string := rstrip (lstrip s).

(** [s.split(sep)] for a separator of one character: never the empty
    list, one more field than there are separators. *)
Fixpoint split_on (sep : ascii) (s : string) : list string :=
  match s with
  | EmptyString => [EmptyString]
  | String c s' =>
      if Ascii.eqb c sep then EmptyString :: split_on sep s'
      else match split_on sep s' with
           | field :: fields => String c field :: fields
           | [] => [String c EmptyString]
           end
  end.

(** [sep.join(parts)] *)
Fixpoint join (sep : string) (parts : list string) : string :=
  match parts with
  | [] => ""
  | [p] => p
  | p :: rest => p ++ sep ++ join sep rest
  end.

(** [s.startswith(p)] *)
Fixpoint startswith (p s : string) : bool :=
  match p, s with
  | EmptyString, _ => true
  | String a p', String b s' => Ascii.eqb a b && startswith p' s'
  | String _ _, EmptyString => false
  end.

(** [sub in s] *)
Fixpoint contains (sub s : string) : bool :=
  startswith sub s ||
  match s with
  | String _ s' => contains sub s'
  | EmptyString => false
  end.

(** [s.endswith(suf)]: some tail of [s] is [suf]. *)
Fixpoint endswith (suf s : string) : bool :=
  (suf =? s)%string ||
  match s with
  | String _ s' => endswith suf s'
  | EmptyString => false
  end.

(** ** Dictionaries

    A [dict] keeps its items in insertion order; assigning to a key that is
    present replaces the value where it stands. Keys are the hashable
    values; [True == 1] and [False == 0] as keys. *)

Definition Dict := list (JVal * JVal).

Definition hashable (k : JVal) : bool :=
  match k with
  | JList _ | JDict _ => false
  | _ => true
  end.

Definition key_eqb (a b : JVal) : bool :=
  match a, b with
  | JNull, JNull => true
  | JStr s, JStr t => (s =? t)%string
  | JBool x, JBool y => Bool.eqb x y
  | JInt x, JInt y => (x =? y)%Z
  | JBool x, JInt y | JInt y, JBool x => ((if x then 1 else 0) =? y)%Z
  | _, _ => false
  end.

(** [d.get(k)] as an option *)
Fixpoint dict_lookup (k : JVal) (d : Dict) : option JVal :=
  match d with
  | [] => None
  | (k', v) :: d' => if key_eqb k' k then Some v else dict_lookup k d'
  end.

(** [d[k] = v] *)
Fixpoint dict_set (k v : JVal) (d : Dict) : Dict :=
  match d with
  | [] => [(k, v)]
  | (k', v') :: d' =>
      if key_eqb k' k then (k', v) :: d' else (k', v') :: dict_set k v d'
  end.

(** [d.get(k, default)] *)
Definition dict_get (k : string) (default : JVal) (d : Dict) : JVal :=
  match dict_lookup (JStr k) d with
  | Some v => v
  | None => default
  end.

(** [d[k]] *)
Definition dict_index (k : string) (d : Dict) : result JVal :=
  match dict_lookup (JStr k) d with
  | Some v => Ok v
  | None => Raise KeyError
  end.

(** One element of the sequence given to [dict.update]: it has to be
    iterable and to yield exactly two items, the key and the value. A
    string yields its characters, a dictionary its keys. *)
Definition as_pair (elem : JVal) : result (JVal * JVal) :=
  match elem with
  | JList [k; v] => Ok (k, v)
  | JList _ => Raise ValueError
  | JStr (String a (String b EmptyString)) =>
      Ok (JStr (String a EmptyString), JStr (String b EmptyString))
  | JStr _ => Raise ValueError
  | JDict [(k1, _); (k2, _)] => Ok (JStr k1, JStr k2)
  | JDict _ => Raise ValueError
  | JNull | JBool _ | JInt _ => Raise TypeError
  end.

Fixpoint update_from_pairs (d : Dict) (elems : list JVal) : result Dict :=
  match elems with
  | [] => Ok d
  | elem :: rest =>
      match as_pair elem with
      | Ok (k, v) =>
          if hashable k then update_from_pairs (dict_set k v d) rest
          else Raise TypeError
      | Raise e => Raise e
      end
  end.

Definition update_from_members (d : Dict) (members : list (string * JVal)) : Dict :=
  foldl (fun acc kv => dict_set (JStr kv.1) kv.2 acc) d members.

(** The characters of a string, each a string of length one. *)
Fixpoint chars (s : string) : list JVal :=
  match s with
  | EmptyString => []
  | String c s' => JStr (String c EmptyString) :: chars s'
  end.

(** [d.update(other)]: a mapping is copied key by key; anything else is
    iterated as a sequence of pairs. *)
Definition dict_update (d : Dict) (other : JVal) : result Dict :=
  match other with
  | JDict members => Ok (update_from_members d members)
  | JList items => update_from_pairs d items
  | JStr s => update_from_pairs d (chars s)
  | JNull | JBool _ | JInt _ => Raise TypeError
  end.

(** ** Configuration *)

(** What [open(path)] followed by [json.load(f)] does on an existing
    path. *)
Inductive ReadOutcome :=
| ReadIOError                 (* IOError: unreadable, a directory, ... *)
| ReadBadEncoding             (* UnicodeDecodeError while decoding the bytes *)
| ReadBadJson                 (* json.JSONDecodeError *)
| ReadJson (doc : JVal).

Inductive FileState :=
| Missing
| Present (r : ReadOutcome).

Definition default_config : Dict :=
  [ (JStr "name", JStr ""); (JStr "email", JStr "");
    (JStr "default_branch", JStr "main");
    (JStr "auto_push", JBool true); (JStr "show_emoji", JBool true);
    (JStr "default_remote", JStr "origin");
    (JStr "use_colors", JBool true); (JStr "parallel_push", JBool true);
    (JStr "max_history", JInt 20) ].

(** [load_config]: the value is [self.config] after the call. Only
    [json.JSONDecodeError] and [IOError] are caught. *)
Definition load_config (config_file : FileState) : result Dict :=
  let config := default_config in
  match config_file with
  | Missing => Ok config
  | Present ReadIOError => Ok config
  | Present ReadBadJson => Ok config
  | Present ReadBadEncoding => Raise UnicodeDecodeError
  | Present (ReadJson doc) => dict_update config doc
  end.

(** ** The wrapper and its world *)

(** An f-string: its literal parts and the values interpolated into it,
    in order. [str()] of an interpolated value is not rendered. *)
Inductive Piece :=
| Lit (s : string)
| Fmt (v : JVal).

Record HistoryEntry := {
  command : string;
  description : list Piece;
  timestamp : Z               (* the reading of [time.time()] *)
}.

(** What the program writes to the terminal. [print_success],
    [print_error], [print_info] and [print_working] decorate their message
    with an emoji and a colour; only the kind and the message are kept. *)
Inductive Msg :=
| MSuccess (text : string)
| MError (text : string)
| MInfo (text : string)
| MWorking (text : string)
| MPlain (text : string)
| MDetails (stderr : string) (as_text : bool)
| MException (text : string) (e : Exn).

(** How a call of [subprocess.run(cmd, check=True)] ends: the process
    exits, or the call raises something other than [CalledProcessError]. *)
Inductive ProcOutcome :=
| Exited (code : Z) (stdout stderr : string)
| Failed (e : Exn).

(** The part of the world the program cannot control. Invocations of
    [subprocess.run] are numbered from 0 in the order the program issues
    them; [git n argv] is how invocation [n] ends. [int_of_str] is the
    builtin [int] on a [str] ([None]: [ValueError]). [time_at] and
    [writable] are indexed by the number of earlier history saves. *)
Record Env := {
  git : nat -> list string -> ProcOutcome;
  int_of_str : string -> option Z;
  time_at : nat -> Z;
  writable : nat -> bool
}.

Record World := {
  config : Dict;                              (* self.config *)
  history : list HistoryEntry;                (* self.history *)
  history_file : option (list HistoryEntry);  (* the list persisted, if any *)
  saves : nat;                                (* history saves so far *)
  stdin : list string;                        (* lines still to be typed *)
  console : list Msg;
  spawned : list (list string);               (* argv of every subprocess.run *)
  pools : list nat                            (* max_workers of every ThreadPoolExecutor *)
}.

Definition set_history (h : list HistoryEntry) (w : World) : World :=
  {| config := config w; history := h; history_file := history_file w;
     saves := saves w; stdin := stdin w; console := console w;
     spawned := spawned w; pools := pools w |}.

Definition set_history_file (f : option (list HistoryEntry)) (w : World) : World :=
  {| config := config w; history := history w; history_file := f;
     saves := saves w; stdin := stdin w; console := console w;
     spawned := spawned w; pools := pools w |}.

Definition set_saves (n : nat) (w : World) : World :=
  {| config := config w; history := history w; history_file := history_file w;
     saves := n; stdin := stdin w; console := console w;
     spawned := spawned w; pools := pools w |}.

Definition set_stdin (l : list string) (w : World) : World :=
  {| config := config w; history := history w; history_file := history_file w;
     saves := saves w; stdin := l; console := console w;
     spawned := spawned w; pools := pools w |}.

Definition set_console (c : list Msg) (w : World) : World :=
  {| config := config w; history := history w; history_file := history_file w;
     saves := saves w; stdin := stdin w; console := c;
     spawned := spawned w; pools := pools w |}.

Definition set_spawned (s : list (list string)) (w : World) : World :=
  {| config := config w; history := history w; history_file := history_file w;
     saves := saves w; stdin := stdin w; console := console w;
     spawned := s; pools := pools w |}.

Definition set_pools (p : list nat) (w : World) : World :=
  {| config := config w; history := history w; history_file := history_file w;
     saves := saves w; stdin := stdin w; console := console w;
     spawned := spawned w; pools := p |}.

(** A method of the wrapper: it runs in a world, changes it, and returns
    or raises. The world reached is kept when it raises. *)
Definition M (A : Type) : Type := World -> result A * World.

#[export] Instance M_ret : MRet M := fun A a w => (Ok a, w).

#[export] Instance M_bind : MBind M := fun A B f m w =>
  match m w with
  | (Ok a, w') => f a w'
  | (Raise e, w') => (Raise e, w')
  end.

Definition raise {A} (e : Exn) : M A := fun w => (Raise e, w).

(** [try: m] with every exception handed back as a value, as
    [future.result()] does for the body of a worker. *)
Definition attempt {A} (m : M A) : M (result A) := fun w =>
  match m w with
  | (r, w') => (Ok r, w')
  end.

Definition lift {A} (r : result A) : M A := fun w => (r, w).

Definition get_config : M Dict := fun w => (Ok (config w), w).

(** The lines not yet read; used only to bound loops that read input. *)
Definition pending_lines : M (list string) := fun w => (Ok (stdin w), w).

Definition print (m : Msg) : M unit := fun w =>
  (Ok tt, set_console (console w ++ [m]) w).

Definition print_success (message : string) : M unit := print (MSuccess message).
Definition print_error (message : string) : M unit := print (MError message).
Definition print_info (message : string) : M unit := print (MInfo message).
Definition print_working (message : string) : M unit := print (MWorking message).

(** [input(prompt)]: the next line typed, [EOFError] at the end of the
    input. *)
Definition input : M string := fun w =>
  match stdin w with
  | line :: rest => (Ok line, set_stdin rest w)
  | [] => (Raise EOFError, w)
  end.

(** The elements of an argument vector have to be strings. *)
Fixpoint argv (cmd : list JVal) : option (list string) :=
  match cmd with
  | [] => Some []
  | JStr s :: rest => option_map (cons s) (argv rest)
  | _ :: _ => None
  end.

(** [not l] for a list *)
Definition is_empty {A} (l : list A) : bool :=
  match l with
  | [] => true
  | _ :: _ => false
  end.

(** [l[k:]] *)
Definition slice_from {A} (k : Z) (l : list A) : list A :=
  let n := Z.of_nat (length l) in
  let start := if (k <? 0)%Z then Z.max (n + k) 0 else Z.min k n in
  drop (Z.to_nat start) l.

(** [-v]: defined on integers and booleans. *)
Definition py_neg (v : JVal) : result Z :=
  match v with
  | JInt n => Ok (- n)%Z
  | JBool b => Ok (- (if b then 1 else 0))%Z
  | _ => Raise TypeError
  end.

(** The summary of a dispatch: the arguments of [_print_push_summary]. *)
Record Summary := {
  succeeded : nat;
  total : nat;
  failed : list string
}.

Section Wrapper.

Context (env : Env).

(** ** History *)

(** [save_history]: the trimmed list replaces [self.history], then the
    file is rewritten; an [IOError] while writing is swallowed and the file
    is taken to stay as it was. A [TypeError] from [-max_history] is not
    caught. *)
Definition save_history : M unit := fun w =>
  let max_history := dict_get "max_history" (JInt 20) (config w) in
  match py_neg max_history with
  | Raise e => (Raise e, w)
  | Ok k =>
      let kept := slice_from k (history w) in
      let w1 := set_saves (S (saves w)) (set_history kept w) in
      (Ok tt, if writable env (saves w) then set_history_file (Some kept) w1 else w1)
  end.

Definition add_to_history (command : string) (description : list Piece) : M unit :=
  fun w =>
    let entry := {| command := command; description := description;
                    timestamp := time_at env (saves w) |} in
    save_history (set_history (history w ++ [entry]) w).

(** ** Running git *)

(** [run_git_command(cmd, capture_output, show_output)]. A non-zero exit
    is [CalledProcessError], which is reported and turned into [False];
    [e.stderr] is there when the call captured the output. *)
Definition run_git_command (cmd : list JVal) (capture_output show_output : bool)
  : M JVal := fun w =>
  match argv cmd with
  | None => (Raise TypeError, w)
  | Some args =>
      let w1 := set_spawned (spawned w ++ [args]) w in
      match git env (length (spawned w)) args with
      | Failed e => (Raise e, w1)
      | Exited code stdout stderr =>
          if (code =? 0)%Z then
            (Ok (if capture_output then JStr (strip stdout) else JBool true), w1)
          else
            let captured := capture_output || negb show_output in
            let details :=
              if captured && negb (stderr =? "")%string
              then [MDetails stderr capture_output] else [] in
            (Ok (JBool false),
             set_console (console w1
                          ++ MError ("Git command failed: " ++ join " " args)
                          :: details) w1)
      end
  end.

(** ** Validation *)

Definition invalid_chars : list string :=
  [" "; "~"; "^"; ":"; "?"; "*"; "["; "\"; ".."].

Definition validate_branch_name (name : string) : bool :=
  if negb (truthy (JStr name)) then false
  else if existsb (fun char => contains char name) invalid_chars then false
  else if startswith "-" name || endswith "." name || endswith ".lock" name then false
  else true.

(** ** Prompts *)

Definition get_input (prompt : string) (default : JVal) : M JVal :=
  if truthy default then
    line ← input;
    let user_input := strip line in
    mret (if truthy (JStr user_input) then JStr user_input else default)
  else
    line ← input;
    mret (JStr (strip line)).

(** [[int(x.strip()) for x in fields]]: [None] when one of them raises
    [ValueError]. *)
Fixpoint parse_numbers (fields : list string) : option (list Z) :=
  match fields with
  | [] => Some []
  | x :: rest =>
      match int_of_str env (strip x) with
      | None => None
      | Some n => option_map (cons n) (parse_numbers rest)
      end
  end.

(** The [for num in choice_nums] loop of [get_multiple_choice]: the
    selection, or the first number out of range. *)
Fixpoint pick (choices : list string) (choice_nums : list Z) (selected : list string)
  : list string + Z :=
  match choice_nums with
  | [] => inl selected
  | num :: rest =>
      if (1 <=? num)%Z && (num <=? Z.of_nat (length choices))%Z then
        match choices !! Z.to_nat (num - 1) with
        | Some choice => pick choices rest (selected ++ [choice])
        | None => inr num
        end
      else inr num
  end.

Fixpoint print_choices (i : nat) (choices : list string) : M unit :=
  match choices with
  | [] => mret tt
  | choice :: rest =>
      print (MPlain ("  " ++ pretty i ++ ". " ++ choice));;
      print_choices (S i) rest
  end.

(** The [while True] loop of [get_multiple_choice]. Every turn reads a
    line, so the loop ends with the input at the latest; [fuel] is the
    number of turns allowed. *)
Fixpoint choice_loop (fuel : nat) (choices : list string) : M (list string) :=
  match fuel with
  | 0 => raise EOFError
  | S fuel' =>
      line ← input;
      let choice_input := strip line in
      if negb (truthy (JStr choice_input)) then mret []
      else
        match parse_numbers (split_on "," choice_input) with
        | None =>
            print (MPlain "Please enter valid numbers separated by commas.");;
            choice_loop fuel' choices
        | Some choice_nums =>
            match pick choices choice_nums [] with
            | inl selected => mret selected
            | inr num =>
                print (MPlain ("Invalid choice: " ++ pretty num));;
                mret []
            end
        end
  end.

Definition get_multiple_choice (prompt : string) (choices : list string)
  : M (list string) :=
  print (MPlain (String "010" prompt));;
  print (MPlain "(Enter comma-separated numbers, e.g., 1,3,4)");;
  print_choices 1 choices;;
  lines ← pending_lines;
  choice_loop (S (length lines)) choices.

(** ** Remotes *)

Definition get_remotes : M (list string) :=
  remotes_output ← run_git_command [JStr "git"; JStr "remote"] true true;
  if truthy remotes_output then
    match remotes_output with
    | JStr s => mret (split_on "010" s)
    | _ => raise AttributeError
    end
  else mret [].

(** ** The push dispatch *)

Definition _execute_push (remote : string) (branch : JVal) (show_output : bool)
  : M JVal :=
  run_git_command [JStr "git"; JStr "push"; JStr remote; branch] false show_output.

(** [_print_push_summary(success, total, failed)] prints its arguments;
    the model also returns them, as the summary of the dispatch. *)
Definition _print_push_summary (success total : nat) (failed : list string)
  : M Summary :=
  print (MPlain (String "010" "Summary: " ++ pretty success ++ "/" ++ pretty total
                 ++ " remotes successful"));;
  (if is_empty failed then mret tt
   else print (MPlain ("Failed remotes: " ++ join ", " failed)));;
  mret {| succeeded := success; total := total; failed := failed |}.

(** The [for remote in remotes] loop of [_push_sequential]. *)
Fixpoint sequential_loop (branch : JVal) (remotes : list string)
    (success_count : nat) (failed_remotes : list string) : M (nat * list string) :=
  match remotes with
  | [] => mret (success_count, failed_remotes)
  | remote :: rest =>
      print_working ("Pushing to " ++ remote ++ "...");;
      pushed ← _execute_push remote branch false;
      if truthy pushed then
        print_success ("✓ Pushed to " ++ remote);;
        sequential_loop branch rest (S success_count) failed_remotes
      else
        print_error ("✗ Failed to push to " ++ remote);;
        sequential_loop branch rest success_count (failed_remotes ++ [remote])
  end.

Definition _push_sequential (remotes : list string) (branch : JVal) : M Summary :=
  '(success_count, failed_remotes) ← sequential_loop branch remotes 0 [];
  _print_push_summary success_count (length remotes) failed_remotes.

(** [ThreadPoolExecutor(max_workers=n)] refuses [n <= 0]. *)
Definition open_pool (max_workers : nat) : M unit := fun w =>
  if (max_workers =? 0)%nat then (Raise ValueError, w)
  else (Ok tt, set_pools (pools w ++ [max_workers]) w).

(** [executor.submit(self._execute_push, remote, branch, False)] for every
    remote: one future per position of [remotes], holding what the worker
    returned or raised. The workers' invocations and messages are recorded
    in submission order; how they really interleave is not represented. *)
Fixpoint submit_all (branch : JVal) (remotes : list string)
  : M (list (string * result JVal)) :=
  match remotes with
  | [] => mret []
  | remote :: rest =>
      outcome ← attempt (_execute_push remote branch false);
      futures ← submit_all branch rest;
      mret ((remote, outcome) :: futures)
  end.

(** The [for future in as_completed(future_to_remote)] loop: [order] lists
    the futures, by position, in the order they complete. *)
Fixpoint as_completed_loop (futures : list (string * result JVal)) (order : list nat)
    (success_count : nat) (failed_remotes : list string) : M (nat * list string) :=
  match order with
  | [] => mret (success_count, failed_remotes)
  | i :: rest =>
      match futures !! i with
      | None => as_completed_loop futures rest success_count failed_remotes
      | Some (remote, Ok pushed) =>
          if truthy pushed then
            print_success ("✓ Pushed to " ++ remote);;
            as_completed_loop futures rest (S success_count) failed_remotes
          else
            print_error ("✗ Failed to push to " ++ remote);;
            as_completed_loop futures rest success_count (failed_remotes ++ [remote])
      | Some (remote, Raise e) =>
          print (MException ("✗ Error pushing to " ++ remote ++ ": ") e);;
          as_completed_loop futures rest success_count (failed_remotes ++ [remote])
      end
  end.

Definition _push_parallel (remotes : list string) (branch : JVal) (order : list nat)
  : M Summary :=
  print_info ("Pushing to " ++ pretty (length remotes) ++ " remotes in parallel...");;
  open_pool (length remotes `min` 5);;
  futures ← submit_all branch remotes;
  '(success_count, failed_remotes) ← as_completed_loop futures order 0 [];
  _print_push_summary success_count (length remotes) failed_remotes.

Definition _push_to_remotes (remotes : list string) (branch parallel : JVal)
    (order : list nat) : M Summary :=
  config ← get_config;
  if truthy (py_and (py_and parallel (dict_get "parallel_push" (JBool true) config))
                    (JBool (1 <? length remotes)%nat))
  then _push_parallel remotes branch order
  else _push_sequential remotes branch.

(** [interactive_push_multiple]; [order] is the completion order of the
    pushes should they run in parallel. *)
Definition interactive_push_multiple (order : list nat) : M unit :=
  remotes ← get_remotes;
  if is_empty remotes then mret tt
  else if (length remotes =? 1)%nat then
    print_info "Only one remote available. Use single remote push instead.";;
    input;;
    mret tt
  else
    current_branch ← run_git_command
                       [JStr "git"; JStr "branch"; JStr "--show-current"] true true;
    config ← get_config;
    default ← (if truthy current_branch then mret current_branch
               else lift (dict_index "default_branch" config));
    branch ← get_input "Branch to push" default;
    selected_remotes ← get_multiple_choice "Select remotes to push to:" remotes;
    if is_empty selected_remotes then
      print_info "No remotes selected.";;
      input;;
      mret tt
    else
      config ← get_config;
      let use_parallel :=
        py_and (dict_get "parallel_push" (JBool true) config)
               (JBool (1 <? length selected_remotes)%nat) in
      (if truthy use_parallel
       then print_info "Using parallel push for faster operation"
       else mret tt);;
      _push_to_remotes selected_remotes branch use_parallel order;;
      add_to_history "push"
        [Lit "Pushed "; Fmt branch; Lit " to ";
         Fmt (JInt (Z.of_nat (length selected_remotes))); Lit " remotes"];;
      input;;
      mret tt.

(** [interactive_create_branch], the flow that does validate the name. *)
Definition interactive_create_branch : M unit :=
  branch_name ← get_input "Enter new branch name" JNull;
  if negb (truthy branch_name) then mret tt
  else
    match branch_name with
    | JStr name =>
        if negb (validate_branch_name name) then
          print_error "Invalid branch name! Avoid spaces and special characters.";;
          input;;
          mret tt
        else
          print_working ("Creating new branch: " ++ name);;
          created ← run_git_command
                      [JStr "git"; JStr "checkout"; JStr "-b"; branch_name] false true;
          (if truthy created then
             print_success ("Created and switched to branch: " ++ name);;
             add_to_history "branch" [Lit "Created branch "; Fmt branch_name]
           else mret tt);;
          input;;
          mret tt
    | _ => raise TypeError
    end.

End Wrapper.

(** ** A concrete world for the examples *)

Definition digit_of (c : ascii) : option Z :=
  let n := nat_of_char c in
  if (48 <=? n)%nat && (n <=? 57)%nat then Some (Z.of_nat (n - 48)) else None.

Fixpoint digits_value (s : string) (acc : Z) : option Z :=
  match s with
  | EmptyString => Some acc
  | String c s' =>
      match digit_of c with
      | Some d => digits_value s' (10 * acc + d)%Z
      | None => None
      end
  end.

(** [int(s)] on an optional sign followed by ASCII digits; every other
    string is refused here. The examples only type such numbers. *)
Definition decimal_int (s : string) : option Z :=
  match s with
  | EmptyString => None
  | String "-" (String c r) => Z.opp <$> digits_value (String c r) 0
  | String "+" (String c r) => digits_value (String c r) 0
  | _ => digits_value s 0
  end.

(** A world in which the n-th invocation ends as the n-th entry of a
    script (and succeeds silently past its end), the clock shows the number
    of the save and the disk accepts every write. *)
Definition scripted (outcomes : list ProcOutcome) : Env :=
  {| git := fun n _ => nth n outcomes (Exited 0 "" "");
     int_of_str := decimal_int;
     time_at := fun n => Z.of_nat n;
     writable := fun _ => true |}.

Definition start (cfg : Dict) (lines : list string) : World :=
  {| config := cfg; history := []; history_file := None; saves := 0;
     stdin := lines; console := []; spawned := []; pools := [] |}.

(** ** Notions used in the statements *)

(** The names the specification lists as invalid, said without the
    functions of the program. *)
Inductive malformed : string -> Prop :=
| has_space u v : malformed (u ++ " " ++ v)
| leading_dash v : malformed ("-" ++ v)
| trailing_dot u : malformed (u ++ ".")
| trailing_lock u : malformed (u ++ ".lock")
| double_dot u v : malformed (u ++ ".." ++ v).

(** The value a JSON object gives a key: its last member of that name. *)
Fixpoint member (k : string) (members : list (string * JVal)) : option JVal :=
  match members with
  | [] => None
  | (k', v) :: rest =>
      match member k rest with
      | Some v' => Some v'
      | None => if (k' =? k)%string then Some v else None
      end
  end.

(** [test_history_limit]: additions one after the other. *)
Fixpoint add_each (env : Env) (entries : list (string * list Piece)) : M unit :=
  match entries with
  | [] => mret tt
  | (cmd, descr) :: rest => add_to_history env cmd descr;; add_each env rest
  end.

Definition commands (from count : nat) : list (string * list Piece) :=
  (fun i => ("command" +:+ pretty i, [Lit ("Description " +:+ pretty i)]))
    <$> seq from count.

(** The entries [add_each] appends, the first one being save number [n]. *)
Fixpoint stamped (env : Env) (n : nat) (entries : list (string * list Piece))
  : list HistoryEntry :=
  match entries with
  | [] => []
  | (cmd, descr) :: rest =>
      {| command := cmd; description := descr; timestamp := time_at env n |}
      :: stamped env (S n) rest
  end.

(** The last [n] elements of a list. *)
Definition last_n {A} (n : nat) (l : list A) : list A := drop (length l - n) l.

(** How the push to [remote] ends when it is invocation number [n]:
    [Ok true] pushed, [Ok false] refused by git (non-zero exit), [Raise e]
    the call itself raised. *)
Definition push_result (env : Env) (n : nat) (remote : string) (branch : JVal)
  : result bool :=
  match argv [JStr "git"; JStr "push"; JStr remote; branch] with
  | None => Raise TypeError
  | Some args =>
      match git env n args with
      | Exited code _ _ => Ok (code =? 0)%Z
      | Failed e => Raise e
      end
  end.

(** The outcome of every target of a request whose first push is
    invocation number [n], in request order. *)
Fixpoint outcomes (env : Env) (n : nat) (branch : JVal) (remotes : list string)
  : list (string * result bool) :=
  match remotes with
  | [] => []
  | remote :: rest =>
      (remote, push_result env n remote branch) :: outcomes env (S n) branch rest
  end.

(** An outcome counts as pushed when git exited with status 0, and as
    refused otherwise: on a non-zero exit and when the call raised. *)
Definition pushed (o : string * result bool) : bool :=
  match o.2 with
  | Ok true => true
  | _ => false
  end.

Definition refused (o : string * result bool) : bool := negb (pushed o).

(** What the first push that raises raised, if any does. *)
Fixpoint first_raise (outs : list (string * result bool)) : option Exn :=
  match outs with
  | [] => None
  | (_, Raise e) :: _ => Some e
  | (_, Ok _) :: rest => first_raise rest
  end.

(** The invocations a request issues when all its pushes are attempted. *)
Definition push_cmds (branch : JVal) (remotes : list string) : list (list string) :=
  match branch with
  | JStr b => (fun remote => ["git"; "push"; remote; b]) <$> remotes
  | _ => []
  end.

Definition result_map {A B} (f : A -> B) (r : result A) : result B :=
  match r with
  | Ok a => Ok (f a)
  | Raise e => Raise e
  end.

(** Everything but the console, the process list and the pools. *)
Definition same_session (w w' : World) : Prop :=
  config w' = config w /\ history w' = history w /\
  history_file w' = history_file w /\ saves w' = saves w /\ stdin w' = stdin w.

(** The futures of a request: one per target, in request order, holding
    what [_execute_push] returned or raised. *)
Definition futures_of (outs : list (string * result bool))
  : list (string * result JVal) :=
  (fun o => (o.1, result_map JBool o.2)) <$> outs.

(** The outcomes in the order the pushes complete. *)
Definition completed (outs : list (string * result bool)) (order : list nat)
  : list (string * result bool) :=
  omap (fun i => outs !! i) order.

(** The output of [git remote] in a repository with the remotes [origin]
    and [upstream]. *)
Definition two_remotes : string :=
  "origin" +:+ String "010" ("upstream" +:+ String "010" "").

(** A session at the push menu: [git remote] lists two remotes, the
    current branch is [main], and the pushes end as given. *)
Definition push_session (pushes : list ProcOutcome) : Env :=
  scripted (Exited 0 two_remotes "" :: Exited 0 "main" "" :: pushes).

(** The scenario of the specification: origin and mirror succeed, upstream
    fails. *)
Definition three_pushes : Env :=
  scripted [Exited 0 "" ""; Exited 1 "" "auth error"; Exited 0 "" ""].

(** ** More of the wrapper *)

(** *** Builtins *)

(** [c.lower()] for a code point below 256: the letters A-Z and the
    accented capitals from U+00C0 to U+00DE (the sign U+00D7 is no
    letter). *)
Definition lower_char (c : ascii) : ascii :=
  let n := nat_of_char c in
  if ((65 <=? n)%nat && (n <=? 90)%nat)
     || ((192 <=? n)%nat && (n <=? 222)%nat && negb (n =? 215)%nat)
  then ascii_of_nat (n + 32) else c.

(** [s.lower()] *)
Fixpoint lower (s : string) : string :=
  match s with
  | EmptyString => EmptyString
  | String c s' => String (lower_char c) (lower s')
  end.

(** [s.replace(old, "")] for a non-empty [old]: [skip] characters of a
    match begun earlier are still to be dropped. *)
Fixpoint remove_all (old : string) (skip : nat) (s : string) : string :=
  match s with
  | EmptyString => EmptyString
  | String c s' =>
      match skip with
      | S skip' => remove_all old skip' s'
      | O =>
          if startswith old s then remove_all old (String.length old - 1) s'
          else String c (remove_all old 0 s')
      end
  end.

(** The fields of [s.split()]: the word that begins [s], if [s] does not
    begin with white space, and the words after it. *)
Fixpoint words_from (s : string) : string * list string :=
  match s with
  | EmptyString => (EmptyString, [])
  | String c s' =>
      let '(word, rest) := words_from s' in
      if isspace c
      then (EmptyString, if (word =? "")%string then rest else word :: rest)
      else (String c word, rest)
  end.

(** [s.split()] *)
Definition split_whitespace (s : string) : list string :=
  let '(word, rest) := words_from s in
  if (word =? "")%string then rest else word :: rest.

Definition double_quote : ascii := ascii_of_nat 34.

Definition hex_digit (n : nat) : ascii :=
  if (n <? 10)%nat then ascii_of_nat (48 + n) else ascii_of_nat (87 + n).

(** One character inside [repr] of a string quoted with [quote]. *)
Definition repr_char (quote c : ascii) : string :=
  let n := nat_of_char c in
  if Ascii.eqb c quote || Ascii.eqb c "\" then String "\" (String c EmptyString)
  else if (n =? 9)%nat then "\t"
  else if (n =? 10)%nat then "\n"
  else if (n =? 13)%nat then "\r"
  else if (n <? 32)%nat || ((127 <=? n)%nat && (n <=? 160)%nat) || (n =? 173)%nat
  then String "\" (String "x" (String (hex_digit (n / 16))
                                 (String (hex_digit (n mod 16)) EmptyString)))
  else String c EmptyString.

Fixpoint repr_chars (quote : ascii) (s : string) : string :=
  match s with
  | EmptyString => EmptyString
  | String c s' => repr_char quote c +:+ repr_chars quote s'
  end.

(** [repr(s)] for a string: single quotes, unless it holds a single quote
    and no double quote. *)
Definition repr_str (s : string) : string :=
  let quote :=
    if contains "'" s && negb (contains (String double_quote EmptyString) s)
    then double_quote else "'"%char in
  String quote (repr_chars quote s +:+ String quote EmptyString).

(** [repr(v)] *)
Fixpoint py_repr (v : JVal) : string :=
  match v with
  | JNull => "None"
  | JBool true => "True"
  | JBool false => "False"
  | JInt n => pretty n
  | JStr s => repr_str s
  | JList items => "[" +:+ join ", " (map py_repr items) +:+ "]"
  | JDict members =>
      "{" +:+ join ", " (map (fun kv => repr_str kv.1 +:+ ": " +:+ py_repr kv.2) members)
      +:+ "}"
  end.

(** [str(v)], what an f-string puts in the place of [{v}]. *)
Definition py_str (v : JVal) : string :=
  match v with
  | JStr s => s
  | _ => py_repr v
  end.

(** [v in l] for a list of strings *)
Definition in_list (v : JVal) (l : list string) : bool :=
  match v with
  | JStr s => existsb (String.eqb s) l
  | _ => false
  end.

(** *** Validation of URLs *)

(** The patterns of [validate_url], each as the prefixes it matches:
    [^https?://], [^git@], [^ssh://], [^file://], [^/], [^\.\.]. *)
Definition url_patterns : list (list string) :=
  [ ["http://"; "https://"]; ["git@"]; ["ssh://"]; ["file://"]; ["/"]; [".."] ].

(** [re.match(pattern, url)] for one of these patterns *)
Definition re_match (pattern : list string) (url : string) : bool :=
  existsb (fun prefix => startswith prefix url) pattern.

Definition validate_url (url : string) : bool :=
  if negb (truthy (JStr url)) then false
  else existsb (fun pattern => re_match pattern url) url_patterns.

(** *** Configuration *)

Definition set_config (c : Dict) (w : World) : World :=
  {| config := c; history := history w; history_file := history_file w;
     saves := saves w; stdin := stdin w; console := console w;
     spawned := spawned w; pools := pools w |}.

(** The name [json.dump] gives a key of a dictionary. *)
Definition json_key (k : JVal) : string :=
  match k with
  | JStr s => s
  | JInt n => pretty n
  | JBool true => "true"
  | JBool false => "false"
  | _ => "null"
  end.

(** The document [json.dump(config, f)] writes, as [json.load] reads it
    back. *)
Definition json_of_dict (d : Dict) : JVal :=
  JDict ((fun kv => (json_key kv.1, kv.2)) <$> d).

(** [self.config[key] = value] *)
Definition config_set (key : string) (value : JVal) : M unit := fun w =>
  (Ok tt, set_config (dict_set (JStr key) value (config w)) w).

(** [save_config]; [can_write] tells whether the file can be opened and
    written. The model returns the document written, if one was. *)
Definition save_config (can_write : bool) : M (option JVal) :=
  if can_write then
    config ← get_config;
    mret (Some (json_of_dict config))
  else
    print_error "Could not save configuration";;
    mret None.

(** [s.replace('_', ' ')] *)
Fixpoint underscores_to_spaces (s : string) : string :=
  match s with
  | EmptyString => EmptyString
  | String c s' =>
      String (if Ascii.eqb c "_" then " "%char else c) (underscores_to_spaces s')
  end.

Section MoreOfTheWrapper.

Context (env : Env).

(** [title] is the builtin [str.title]. *)
Context (title : string -> string).

(** [update_config(key, value)] *)
Definition update_config (can_write : bool) (key : string) (value : JVal)
  : M (option JVal) :=
  if truthy value then
    config_set key value;;
    saved ← save_config can_write;
    print_success (title (underscores_to_spaces key) +:+ " updated!");;
    mret saved
  else mret None.

(** [toggle_config(key)] *)
Definition toggle_config (can_write : bool) (key : string) : M (option JVal) :=
  config ← get_config;
  old ← lift (dict_index key config);
  config_set key (JBool (negb (truthy old)));;
  saved ← save_config can_write;
  config ← get_config;
  now ← lift (dict_index key config);
  let status := if truthy now then "enabled" else "disabled" in
  print_success (title (underscores_to_spaces key) +:+ " " +:+ status +:+ "!");;
  mret saved.

(** *** Prompts *)

Fixpoint print_choices_default (i : nat) (choices : list string) (default : JVal)
  : M unit :=
  match choices with
  | [] => mret tt
  | choice :: rest =>
      let is_default :=
        truthy default &&
        match default with JStr d => (choice =? d)%string | _ => false end in
      let marker := if is_default then " (default)" else "" in
      print (MPlain ("  " +:+ pretty i +:+ ". " +:+ choice +:+ marker));;
      print_choices_default (S i) rest default
  end.

(** The [while True] loop of [get_choice]; every turn reads a line. *)
Fixpoint get_choice_loop (fuel : nat) (choices : list string) (default : JVal)
  : M JVal :=
  match fuel with
  | 0 => raise EOFError
  | S fuel' =>
      line ← input;
      let choice_input := strip line in
      if negb (truthy (JStr choice_input)) && truthy default then mret default
      else
        match int_of_str env choice_input with
        | None =>
            print (MPlain "Please enter a valid number.");;
            get_choice_loop fuel' choices default
        | Some choice_num =>
            if (1 <=? choice_num)%Z && (choice_num <=? Z.of_nat (length choices))%Z then
              match choices !! Z.to_nat (choice_num - 1) with
              | Some choice => mret (JStr choice)
              | None => raise ValueError
              end
            else
              print (MPlain "Invalid choice. Please try again.");;
              get_choice_loop fuel' choices default
        end
  end.

(** [get_choice(prompt, choices, default)]; no default is [JNull]. *)
Definition get_choice (prompt : string) (choices : list string) (default : JVal)
  : M JVal :=
  print (MPlain (String "010" prompt));;
  print_choices_default 1 choices default;;
  lines ← pending_lines;
  get_choice_loop (S (length lines)) choices default.

(** [confirm(message, default)]; the message is part of the prompt. *)
Definition confirm (message : list Piece) (default : bool) : M bool :=
  line ← input;
  let response := lower (strip line) in
  mret (if truthy (JStr response)
        then (response =? "y")%string || (response =? "yes")%string
        else default).

(** *** Branch status *)

(** [ahead, behind = map(int, fields)]: exactly two fields, both
    integers; anything else is a [ValueError]. *)
Definition two_ints (fields : list string) : option (Z * Z) :=
  match fields with
  | [a; b] =>
      match int_of_str env a, int_of_str env b with
      | Some ahead, Some behind => Some (ahead, behind)
      | _, _ => None
      end
  | _ => None
  end.

Definition branch_status (ahead behind : Z) : Dict :=
  [(JStr "ahead", JInt ahead); (JStr "behind", JInt behind)].

(** [get_branch_status]: it calls [subprocess.run] itself and catches
    [CalledProcessError] and [ValueError]. *)
Definition get_branch_status : M Dict := fun w =>
  let args := ["git"; "rev-list"; "--left-right"; "--count"; "HEAD...@{upstream}"] in
  let w1 := set_spawned (spawned w ++ [args]) w in
  match git env (length (spawned w)) args with
  | Failed e => (Raise e, w1)
  | Exited code stdout stderr =>
      if (code =? 0)%Z then
        match two_ints (split_whitespace (strip stdout)) with
        | Some (ahead, behind) => (Ok (branch_status ahead behind), w1)
        | None => (Ok (branch_status 0 0), w1)
        end
      else (Ok (branch_status 0 0), w1)
  end.

(** *** The other push flows *)

(** [current_branch or self.config['default_branch']] *)
Definition branch_default (current_branch : JVal) : M JVal :=
  config ← get_config;
  if truthy current_branch then mret current_branch
  else lift (dict_index "default_branch" config).

Definition interactive_push_single : M unit :=
  remotes ← get_remotes env;
  if is_empty remotes then mret tt
  else
    current_branch ← run_git_command env
                       [JStr "git"; JStr "branch"; JStr "--show-current"] true true;
    default ← branch_default current_branch;
    branch ← get_input "Branch to push" default;
    config ← get_config;
    let default_remote := dict_get "default_remote" (JStr "origin") config in
    let default_remote :=
      if negb (in_list default_remote remotes)
      then match remotes with first :: _ => JStr first | [] => default_remote end
      else default_remote in
    remote ← get_choice "Select remote to push to:" remotes default_remote;
    print_working ("Pushing " +:+ py_str branch +:+ " to " +:+ py_str remote +:+ "...");;
    pushed ← run_git_command env [JStr "git"; JStr "push"; remote; branch] false true;
    (if truthy pushed then
       print_success ("Successfully pushed to " +:+ py_str remote +:+ "/"
                      +:+ py_str branch +:+ "!");;
       add_to_history env "push" [Lit "Pushed "; Fmt branch; Lit " to "; Fmt remote]
     else mret tt);;
    input;;
    mret tt.

Definition interactive_push_all (order : list nat) : M unit :=
  remotes ← get_remotes env;
  if is_empty remotes then mret tt
  else
    current_branch ← run_git_command env
                       [JStr "git"; JStr "branch"; JStr "--show-current"] true true;
    default ← branch_default current_branch;
    branch ← get_input "Branch to push" default;
    confirmed ← confirm [Lit "Push "; Fmt branch; Lit " to ALL ";
                         Fmt (JInt (Z.of_nat (length remotes))); Lit " remotes?"] false;
    if negb confirmed then mret tt
    else
      config ← get_config;
      let use_parallel :=
        py_and (dict_get "parallel_push" (JBool true) config)
               (JBool (1 <? length remotes)%nat) in
      (if truthy use_parallel
       then print_info "Using parallel push for faster operation"
       else mret tt);;
      _push_to_remotes env remotes branch use_parallel order;;
      add_to_history env "push" [Lit "Pushed "; Fmt branch; Lit " to all remotes"];;
      input;;
      mret tt.

(** *** Remotes *)

Definition interactive_fetch : M unit :=
  remotes ← get_remotes env;
  if is_empty remotes then
    print_error "No remotes configured!";;
    input;;
    mret tt
  else
    config ← get_config;
    remote ← get_choice "Select remote to fetch from:" remotes
               (dict_get "default_remote" (JStr "origin") config);
    print_working ("Fetching from " +:+ py_str remote +:+ "...");;
    fetched ← run_git_command env [JStr "git"; JStr "fetch"; remote] false true;
    (if truthy fetched then
       print_success ("Fetched from " +:+ py_str remote +:+ " successfully!");;
       add_to_history env "fetch" [Lit "Fetched from "; Fmt remote]
     else mret tt);;
    input;;
    mret tt.

(** [interactive_add_remote]; the value is what [save_config] wrote, if
    it was called. *)
Definition interactive_add_remote (can_write : bool) : M (option JVal) :=
  name ← get_input "Remote name" (JStr "origin");
  if negb (truthy name) then mret None
  else
    url ← get_input "Remote URL" JNull;
    if negb (truthy url) then mret None
    else
      match url with
      | JStr url_text =>
          if negb (validate_url url_text) then
            print_error "Invalid URL format!";;
            input;;
            mret None
          else
            print_working ("Adding remote '" +:+ py_str name +:+ "'...");;
            added ← run_git_command env
                      [JStr "git"; JStr "remote"; JStr "add"; name; url] false true;
            if negb (truthy added) then
              input;;
              mret None
            else
              print_success ("Remote '" +:+ py_str name +:+ "' added successfully!");;
              add_to_history env "remote" [Lit "Added remote "; Fmt name];;
              remotes ← get_remotes env;
              saved ← (if (length remotes =? 1)%nat then
                         config_set "default_remote" name;;
                         saved ← save_config can_write;
                         print_info ("Set as default remote: " +:+ py_str name);;
                         mret saved
                       else mret None);
              input;;
              mret saved
      | _ => raise TypeError
      end.

(** *** Renaming a branch *)

(** [[b.strip().replace('* ', '') for b in output.split('\n') if b.strip()]] *)
Definition branch_names (output : string) : list string :=
  (fun b => remove_all "* " 0 (strip b))
    <$> filter (fun b => truthy (JStr (strip b)) = true) (split_on "010" output).

Definition interactive_rename_branch : M unit :=
  current_branch ← run_git_command env
                     [JStr "git"; JStr "branch"; JStr "--show-current"] true true;
  rename_current ← confirm [Lit "Rename current branch '"; Fmt current_branch; Lit "'?"]
                     true;
  branch_to_rename ←
    (if (rename_current : bool) then mret current_branch
     else
       run_git_command env [JStr "git"; JStr "branch"] true true
       ≫= fun branches_output : JVal =>
         match branches_output with
         | JStr output => get_choice "Select branch to rename:" (branch_names output) JNull
         | _ => raise AttributeError
         end);
  new_name ← get_input "Enter new branch name" JNull;
  if negb (truthy new_name) then mret tt
  else
    match new_name with
    | JStr name =>
        if negb (validate_branch_name name) then
          print_error "Invalid branch name!";;
          input;;
          mret tt
        else
          renamed ← run_git_command env
                      [JStr "git"; JStr "branch"; JStr "-m"; branch_to_rename; new_name]
                      false true;
          (if truthy renamed then
             print_success ("Branch renamed to: " +:+ name);;
             add_to_history env "branch"
               [Lit "Renamed "; Fmt branch_to_rename; Lit " to "; Fmt new_name]
           else mret tt);;
          input;;
          mret tt
    | _ => raise TypeError
    end.

(** *** More flows on remotes *)

(** [interactive_set_default_remote]; the value is what [save_config]
    wrote. *)
Definition interactive_set_default_remote (can_write : bool) : M (option JVal) :=
  remotes ← get_remotes env;
  if is_empty remotes then
    print_info "No remotes configured";;
    input;;
    mret None
  else
    config ← get_config;
    let current_default := dict_get "default_remote" (JStr "origin") config in
    remote ← get_choice "Select default remote:" remotes current_default;
    config_set "default_remote" remote;;
    saved ← save_config can_write;
    print_success ("Default remote set to: " +:+ py_str remote);;
    input;;
    mret saved.

(** [interactive_remove_remote]. Where [self.config.get('default_remote')]
    is compared with [remote], [remote] is a string: [run_git_command] has
    taken it as an argument. *)
Definition interactive_remove_remote (can_write : bool) : M (option JVal) :=
  remotes ← get_remotes env;
  if is_empty remotes then
    print_info "No remotes to remove";;
    input;;
    mret None
  else
    remote ← get_choice "Select remote to remove:" remotes JNull;
    confirmed ← confirm [Lit "Are you sure you want to remove remote '"; Fmt remote;
                         Lit "'?"] false;
    saved ←
      (if (confirmed : bool) then
         removed ← run_git_command env
                     [JStr "git"; JStr "remote"; JStr "remove"; remote] false true;
         if truthy removed then
           print_success ("Remote '" +:+ py_str remote +:+ "' removed successfully!");;
           config ← get_config;
           match remote, dict_lookup (JStr "default_remote") config with
           | JStr removed_name, Some (JStr default) =>
               if (default =? removed_name)%string then
                 remaining_remotes ← get_remotes env;
                 match remaining_remotes with
                 | first :: _ =>
                     config_set "default_remote" (JStr first);;
                     saved ← save_config can_write;
                     print_info ("Default remote changed to: " +:+ first);;
                     mret saved
                 | [] =>
                     config_set "default_remote" (JStr "origin");;
                     save_config can_write
                 end
               else mret None
           | _, _ => mret None
           end
         else mret None
       else mret None);
    input;;
    mret saved.

Definition interactive_change_remote_url : M unit :=
  remotes ← get_remotes env;
  if is_empty remotes then
    print_info "No remotes configured";;
    input;;
    mret tt
  else
    remote ← get_choice "Select remote to modify:" remotes JNull;
    current_url ← run_git_command env
                    [JStr "git"; JStr "remote"; JStr "get-url"; remote] true true;
    print (MPlain ("Current URL: " +:+ py_str current_url));;
    new_url ← get_input "New URL" JNull;
    if negb (truthy new_url) then mret tt
    else
      match new_url with
      | JStr url_text =>
          if negb (validate_url url_text) then
            print_error "Invalid URL format!";;
            input;;
            mret tt
          else
            changed ← run_git_command env
                        [JStr "git"; JStr "remote"; JStr "set-url"; remote; new_url]
                        false true;
            (if truthy changed then
               print_success ("URL for '" +:+ py_str remote +:+ "' updated successfully!")
             else mret tt);;
            input;;
            mret tt
      | _ => raise TypeError
      end.

(** *** Switching and deleting a branch *)

(** [b != v] for a string [b] *)
Definition differs (b : string) (v : JVal) : bool :=
  match v with
  | JStr s => negb (b =? s)%string
  | _ => true
  end.

(** [if len(branches) > 1: branches = [b for b in branches if b != current_branch]] *)
Definition without_current (branches : list string) (current_branch : JVal)
  : list string :=
  if (1 <? length branches)%nat
  then filter (fun b => differs b current_branch = true) branches
  else branches.

Definition interactive_switch_branch : M unit :=
  branches_output ← run_git_command env [JStr "git"; JStr "branch"] true true;
  if negb (truthy branches_output) then mret tt
  else
    match branches_output with
    | JStr output =>
        current_branch ← run_git_command env
                           [JStr "git"; JStr "branch"; JStr "--show-current"] true true;
        let branches := without_current (branch_names output) current_branch in
        if is_empty branches then
          print_info "No other branches available";;
          input;;
          mret tt
        else
          branch ← get_choice "Select branch to switch to:" branches JNull;
          print_working ("Switching to branch: " +:+ py_str branch);;
          switched ← run_git_command env [JStr "git"; JStr "checkout"; branch] false true;
          (if truthy switched then
             print_success ("Switched to branch: " +:+ py_str branch);;
             add_to_history env "branch" [Lit "Switched to "; Fmt branch]
           else mret tt);;
          input;;
          mret tt
    | _ => raise AttributeError
    end.

Definition interactive_delete_branch : M unit :=
  branches_output ← run_git_command env [JStr "git"; JStr "branch"] true true;
  if negb (truthy branches_output) then mret tt
  else
    match branches_output with
    | JStr output =>
        current_branch ← run_git_command env
                           [JStr "git"; JStr "branch"; JStr "--show-current"] true true;
        let branches := without_current (branch_names output) current_branch in
        if is_empty branches then
          print_info "No branches available to delete";;
          input;;
          mret tt
        else
          branch ← get_choice "Select branch to delete:" branches JNull;
          confirmed ← confirm [Lit "Are you sure you want to delete branch '"; Fmt branch;
                               Lit "'?"] false;
          (if (confirmed : bool) then
             deleted ← run_git_command env
                         [JStr "git"; JStr "branch"; JStr "-d"; branch] false true;
             if truthy deleted then
               print_success ("Deleted branch: " +:+ py_str branch);;
               add_to_history env "branch" [Lit "Deleted branch "; Fmt branch]
             else mret tt
           else mret tt);;
          input;;
          mret tt
    | _ => raise AttributeError
    end.

End MoreOfTheWrapper.

(** *** Notions used in the further statements *)

(** Everything but the keyboard and the console. *)
Definition only_talks (w w' : World) : Prop :=
  config w' = config w /\ history w' = history w /\
  history_file w' = history_file w /\ saves w' = saves w /\
  spawned w' = spawned w /\ pools w' = pools w.

(** Whatever the world, and whether it returns or raises, [m] adds to the
    process list only invocations that satisfy [P]. *)
Definition only_spawns {A} (P : list string -> Prop) (m : M A) : Prop :=
  forall w, exists new, spawned (m w).2 = spawned w ++ new /\ Forall P new.

(** [m] runs no process. *)
Definition spawns_nothing {A} (m : M A) : Prop :=
  forall w, spawned (m w).2 = spawned w.

(** What [interactive_push_multiple] does once the selection is made. *)
Definition push_selection (env : Env) (order : list nat) (branch : JVal)
    (selected_remotes : list string) : M unit :=
  if is_empty selected_remotes then
    print_info "No remotes selected.";;
    input;;
    mret tt
  else
    config ← get_config;
    let use_parallel :=
      py_and (dict_get "parallel_push" (JBool true) config)
             (JBool (1 <? length selected_remotes)%nat) in
    (if truthy use_parallel
     then print_info "Using parallel push for faster operation"
     else mret tt);;
    _push_to_remotes env selected_remotes branch use_parallel order;;
    add_to_history env "push"
      [Lit "Pushed "; Fmt branch; Lit " to ";
       Fmt (JInt (Z.of_nat (length selected_remotes))); Lit " remotes"];;
    input;;
    mret tt.

(** A reply that [confirm] takes for yes. *)
Definition says_yes (line : string) : bool :=
  let response := lower (strip line) in
  (response =? "y")%string || (response =? "yes")%string.

(** * Properties *)

Ltac munfold :=
  unfold mbind, M_bind, mret, M_ret, print_success, print_error, print_working,
    print_info, print, raise, lift, attempt, get_config, pending_lines in *.

Lemma bind_run {A B} (m : M A) (f : A -> M B) w a w' :
  m w = (Ok a, w') -> (m ≫= f) w = f a w'.
Proof. intros H. unfold mbind, M_bind. by rewrite H. Qed.

(** What runs after a step cannot undo the invocations it made. *)
Lemma bind_spawned {A B} (m : M A) (f : A -> M B) w :
  (forall a w0, spawned (f a w0).2 = spawned w0) ->
  spawned ((m ≫= f) w).2 = spawned (m w).2.
Proof.
  intros Hf. unfold mbind, M_bind. destruct (m w) as [[a|e] w']; [apply Hf|done].
Qed.

(** ** Strings *)

Lemma append_nil s : "" +:+ s = s.
Proof. reflexivity. Qed.

Lemma append_cons c u s : String c u +:+ s = String c (u +:+ s).
Proof. reflexivity. Qed.

Lemma startswith_app p s : startswith p (p ++ s) = true.
Proof.
  induction p as [|a p IH]; [done|].
  rewrite append_cons. simpl. by rewrite Ascii.eqb_refl, IH.
Qed.

Lemma contains_unfold sub s :
  contains sub s =
  startswith sub s || match s with String _ s' => contains sub s' | EmptyString => false end.
Proof. by destruct s. Qed.

Lemma contains_infix sub u v : contains sub (u ++ sub ++ v) = true.
Proof.
  induction u as [|c u IH].
  - by rewrite append_nil, contains_unfold, startswith_app.
  - rewrite append_cons. simpl. by rewrite IH, orb_true_r.
Qed.

Lemma endswith_unfold suf s :
  endswith suf s =
  (suf =? s)%string || match s with String _ s' => endswith suf s' | EmptyString => false end.
Proof. by destruct s. Qed.

Lemma endswith_app suf u : endswith suf (u ++ suf) = true.
Proof.
  induction u as [|c u IH].
  - by rewrite append_nil, endswith_unfold, String.eqb_refl.
  - rewrite append_cons. simpl. by rewrite IH, orb_true_r.
Qed.

Lemma validate_branch_name_malformed name :
  malformed name -> validate_branch_name name = false.
Proof.
  unfold validate_branch_name, invalid_chars.
  intros H. destruct (negb (truthy (JStr name))); [done|].
  destruct H as [u v|v|u|u|u v].
  - cbn [existsb]. by rewrite contains_infix.
  - destruct (existsb _ _); [done|]. by rewrite startswith_app.
  - destruct (existsb _ _); [done|].
    by rewrite (endswith_app "." u), orb_true_r.
  - destruct (existsb _ _); [done|].
    by rewrite (endswith_app ".lock" u), orb_true_r.
  - cbn [existsb]. rewrite (contains_infix ".." u v). by rewrite !orb_true_r.
Qed.

(** ** Configuration *)

Lemma key_eqb_str k s : key_eqb k (JStr s) = true -> k = JStr s.
Proof.
  destruct k; simpl; try done.
  intros H. by apply String.eqb_eq in H as ->.
Qed.

Lemma dict_lookup_set_str k k' v d :
  dict_lookup (JStr k) (dict_set (JStr k') v d) =
  if (k' =? k)%string then Some v else dict_lookup (JStr k) d.
Proof.
  induction d as [|[k0 v0] d IH]; simpl; [done|].
  destruct (key_eqb k0 (JStr k')) eqn:E; simpl.
  - apply key_eqb_str in E as ->. simpl. by destruct (k' =? k)%string.
  - destruct (key_eqb k0 (JStr k)) eqn:E'; [|done].
    apply key_eqb_str in E' as ->. simpl in E.
    rewrite String.eqb_sym in E. by rewrite E.
Qed.

Lemma lookup_update_from_members members d k :
  dict_lookup (JStr k) (update_from_members d members) =
  match member k members with
  | Some v => Some v
  | None => dict_lookup (JStr k) d
  end.
Proof.
  revert d. induction members as [|[k' v] rest IH]; intros d; [done|].
  unfold update_from_members in *. simpl. rewrite IH.
  destruct (member k rest); [done|].
  rewrite dict_lookup_set_str. by destruct (k' =? k)%string.
Qed.

(** An absent, unreadable or undecodable file leaves the defaults. *)
Lemma load_config_defaults f :
  f = Missing \/ f = Present ReadIOError \/ f = Present ReadBadJson ->
  load_config f = Ok default_config.
Proof. by intros [->|[->| ->]]. Qed.

(** A file holding a JSON object: every key reads as the file gives it,
    or as the defaults give it when the file does not mention it. *)
Lemma load_config_object members :
  exists cfg, load_config (Present (ReadJson (JDict members))) = Ok cfg /\
    forall k, dict_lookup (JStr k) cfg =
              match member k members with
              | Some v => Some v
              | None => dict_lookup (JStr k) default_config
              end.
Proof.
  eexists. split; [reflexivity|]. intros k. apply lookup_update_from_members.
Qed.

(** A JSON document that is a number, a boolean or null makes
    [load_config] raise. *)
Lemma load_config_scalar doc :
  doc = JNull \/ (exists b, doc = JBool b) \/ (exists n, doc = JInt n) ->
  load_config (Present (ReadJson doc)) = Raise TypeError.
Proof. by intros [->|[[b ->]|[n ->]]]. Qed.

(** C8 (the code departs from the claim). The configuration file holds
    the text [5]: it parses as JSON, and [load_config] raises [TypeError]
    from [dict.update], which its [except] clause does not catch. *)
Theorem load_config_number_raises :
  load_config (Present (ReadJson (JInt 5))) = Raise TypeError.
Proof. reflexivity. Qed.

(** ** History *)

Lemma slice_from_zero {A} (l : list A) : slice_from 0 l = l.
Proof.
  unfold slice_from. simpl.
  replace (Z.to_nat (0 `min` Z.of_nat (length l))) with 0%nat by lia. done.
Qed.

Lemma slice_from_last {A} (n : Z) (l : list A) :
  (0 < n)%Z -> slice_from (- n) l = drop (length l - Z.to_nat n) l.
Proof.
  intros Hn. unfold slice_from.
  destruct (Z.ltb_spec (- n) 0); [|lia]. f_equal. lia.
Qed.

Lemma length_slice_from_last {A} (n : Z) (l : list A) :
  (0 < n)%Z -> length (slice_from (- n) l) = (length l `min` Z.to_nat n)%nat.
Proof. intros Hn. rewrite slice_from_last, length_drop by done. lia. Qed.

(** With a cap [n >= 1] a save keeps the last [n] entries and, when the
    disk accepts the write, persists exactly them. *)
Lemma add_to_history_positive env cmd descr w (n : Z) :
  dict_get "max_history" (JInt 20) (config w) = JInt n ->
  (0 < n)%Z ->
  let entry := {| command := cmd; description := descr;
                  timestamp := time_at env (saves w) |} in
  let all := history w ++ [entry] in
  exists w', add_to_history env cmd descr w = (Ok tt, w') /\
    history w' = drop (length all - Z.to_nat n) all /\
    config w' = config w /\ saves w' = S (saves w) /\
    (writable env (saves w) = true -> history_file w' = Some (history w')).
Proof.
  intros Hcfg Hn entry all.
  unfold add_to_history, save_history. simpl. rewrite Hcfg. simpl.
  eexists. split; [reflexivity|].
  rewrite slice_from_last by done.
  destruct (writable env (saves w)); simpl; repeat split; done.
Qed.

Lemma last_n_app {A} (n : nat) (l k : list A) :
  last_n n (last_n n l ++ k) = last_n n (l ++ k).
Proof.
  unfold last_n. rewrite !length_app, length_drop.
  destruct (Nat.le_gt_cases (length l) n) as [Hle|Hgt].
  - replace (length l - n)%nat with 0%nat by lia. simpl.
    do 2 f_equal. lia.
  - rewrite <- (drop_app_le l k (length l - n)) by lia.
    rewrite drop_drop. f_equal. lia.
Qed.

(** With a cap [n >= 1], after any run of additions the history is the
    last [n] of all the entries, the earlier ones included. *)
Lemma add_each_positive env entries : forall w (n : Z),
  dict_get "max_history" (JInt 20) (config w) = JInt n ->
  (0 < n)%Z ->
  entries <> [] ->
  exists w', add_each env entries w = (Ok tt, w') /\
    history w' = last_n (Z.to_nat n) (history w ++ stamped env (saves w) entries) /\
    config w' = config w.
Proof.
  induction entries as [|[cmd descr] rest IH]; intros w n Hcfg Hn Hne; [done|].
  destruct (add_to_history_positive env cmd descr w n Hcfg Hn)
    as (w1 & Hrun & Hhist & Hcfg1 & Hsaves & _).
  simpl. erewrite bind_run by exact Hrun.
  destruct rest as [|entry rest'].
  - exists w1. split; [done|]. split; [|done]. by rewrite Hhist.
  - destruct (IH w1 n) as (w2 & -> & Hhist2 & Hcfg2); [by rewrite Hcfg1|done..|].
    exists w2. split; [done|]. split; [|congruence].
    rewrite Hhist2, Hhist, Hsaves.
    change (drop (length ?l - Z.to_nat n) ?l) with (last_n (Z.to_nat n) l).
    rewrite last_n_app. by rewrite <- app_assoc.
Qed.

(** The scenario of the test suite: a cap of five, ten additions. *)
Lemma test_history_limit :
  let w := start (dict_set (JStr "max_history") (JInt 5) default_config) [] in
  let w' := (add_each (scripted []) (commands 0 10) w).2 in
  command <$> history w' = (commands 5 5).*1 /\
  history_file w' = Some (history w').
Proof. vm_compute. done. Qed.

(** C7 (the code departs from the claim). With [max_history = 0] the
    slice [self.history[-0:]] is the whole list: after three additions the
    persisted history holds three entries, where the most recent zero
    entries are none. *)
Theorem history_cap_zero_keeps_everything :
  let w := start (dict_set (JStr "max_history") (JInt 0) default_config) [] in
  let w' := (add_each (scripted []) (commands 0 3) w).2 in
  command <$> history w' = ["command0"; "command1"; "command2"] /\
  history_file w' = Some (history w').
Proof. vm_compute. done. Qed.

(** ** Remotes *)



(** ** The push dispatch *)

Lemma same_session_refl w : same_session w w.
Proof. by repeat split. Qed.

Lemma same_session_trans w1 w2 w3 :
  same_session w1 w2 -> same_session w2 w3 -> same_session w1 w3.
Proof.
  intros (?&?&?&?&?) (?&?&?&?&?). repeat split; congruence.
Qed.

Lemma same_session_console w c : same_session w (set_console c w).
Proof. by repeat split. Qed.

Create HintDb session.
#[local] Hint Resolve same_session_refl same_session_console : session.

Lemma outcomes_length env n branch remotes :
  length (outcomes env n branch remotes) = length remotes.
Proof. revert n. induction remotes; intros; simpl; auto. Qed.

Lemma outcomes_names env n branch remotes :
  (outcomes env n branch remotes).*1 = remotes.
Proof. revert n. induction remotes; intros; simpl; f_equal; auto. Qed.

Lemma outcomes_not_str env n m branch remotes :
  argv [JStr "git"; JStr "push"; JStr "x"; branch] = None ->
  outcomes env n branch remotes = outcomes env m branch remotes.
Proof.
  intros Hb. revert n m. induction remotes as [|r rest IH]; intros n m; [done|].
  simpl. f_equal; [|apply IH].
  unfold push_result. destruct branch; try done.
Qed.

Lemma filter_pushed_cons o outs :
  filter pushed (o :: outs) =
  if pushed o then o :: filter pushed outs else filter pushed outs.
Proof. rewrite filter_cons. destruct (pushed o); by case_decide. Qed.

Lemma filter_refused_cons o outs :
  filter refused (o :: outs) =
  if pushed o then filter refused outs else o :: filter refused outs.
Proof.
  rewrite filter_cons. unfold refused. destruct (pushed o); by case_decide.
Qed.

Section Dispatch.

Context (env : Env).


(** One push: its value, and what it leaves of the world. *)
Lemma execute_push_run remote branch show w :
  exists w',
    _execute_push env remote branch show w =
      (result_map JBool (push_result env (length (spawned w)) remote branch), w') /\
    same_session w w' /\ pools w' = pools w /\
    spawned w' = spawned w ++ push_cmds branch [remote] /\
    (forall rest, outcomes env (length (spawned w')) branch rest =
                  outcomes env (S (length (spawned w))) branch rest).
Proof.
  unfold _execute_push, run_git_command, push_result.
  destruct (argv _) as [args|] eqn:Hargs.
  - assert (exists b, branch = JStr b /\ args = ["git"; "push"; remote; b])
      as (b & -> & ->).
    { destruct branch; try done. simpl in Hargs. injection Hargs as <-. eauto. }
    destruct (git env _ _) as [code out err|e].
    + destruct (code =? 0)%Z; eexists; (split; [reflexivity|]); simpl;
        rewrite ?length_app; simpl;
        repeat split; try done; intros; f_equal; lia.
    + eexists. split; [reflexivity|]. simpl. rewrite ?length_app. simpl.
      repeat split; try done; intros; f_equal; lia.
  - exists w. split; [done|]. split; [auto with session|].
    assert (push_cmds branch [remote] = []) as ->.
    { destruct branch; try done. }
    rewrite app_nil_r. repeat split; try done.
    intros rest. apply outcomes_not_str. destruct branch; try done.
Qed.

(** The sequential loop returns the tally of the outcomes taken in
    request order, or raises what the first raising push raised. *)
Lemma sequential_loop_run branch remotes : forall w success_count failed_remotes,
  let outs := outcomes env (length (spawned w)) branch remotes in
  exists w',
    sequential_loop env branch remotes success_count failed_remotes w =
      (match first_raise outs with
       | Some e => Raise e
       | None => Ok (success_count + length (filter pushed outs),
                     failed_remotes ++ (filter refused outs).*1)
       end, w') /\
    same_session w w' /\ pools w' = pools w /\
    (first_raise outs = None -> spawned w' = spawned w ++ push_cmds branch remotes).
Proof.
  induction remotes as [|remote rest IH]; intros w sc fl; simpl.
  - exists w. rewrite Nat.add_0_r, app_nil_r.
    destruct branch; repeat split; by rewrite ?app_nil_r.
  - munfold. simpl.
    destruct (execute_push_run remote branch false
                (set_console (console w ++ [MWorking ("Pushing to " +:+ remote +:+ "...")]) w))
      as (w1 & -> & Hs1 & Hp1 & Hsp1 & Hadv).
    simpl in *.
    destruct (push_result env (length (spawned w)) remote branch) as [[|]|e] eqn:Hres;
      simpl.
    + destruct (IH (set_console (console w1 ++ [MSuccess ("✓ Pushed to " +:+ remote)]) w1)
                   (S sc) fl) as (w2 & -> & Hs2 & Hp2 & Hsp2).
      simpl in *. rewrite Hadv. exists w2.
      rewrite ?filter_pushed_cons, ?filter_refused_cons. simpl.
      split; [|split; [|split]].
      * by rewrite Nat.add_succ_r.
      * eapply same_session_trans; [apply Hs1|].
        eapply same_session_trans; [|apply Hs2]. auto with session.
      * congruence.
      * intros Hnone. rewrite Hadv in Hsp2. rewrite (Hsp2 Hnone), Hsp1.
        destruct branch; simpl; rewrite <- ?app_assoc; done.
    + destruct (IH (set_console (console w1 ++ [MError ("✗ Failed to push to " +:+ remote)]) w1)
                   sc (fl ++ [remote])) as (w2 & -> & Hs2 & Hp2 & Hsp2).
      simpl in *. rewrite Hadv. exists w2.
      rewrite ?filter_pushed_cons, ?filter_refused_cons. simpl.
      split; [|split; [|split]].
      * by rewrite <- app_assoc.
      * eapply same_session_trans; [apply Hs1|].
        eapply same_session_trans; [|apply Hs2]. auto with session.
      * congruence.
      * intros Hnone. rewrite Hadv in Hsp2. rewrite (Hsp2 Hnone), Hsp1.
        destruct branch; simpl; rewrite <- ?app_assoc; done.
    + exists w1. repeat split; try tauto; try done.
      all: destruct Hs1 as (?&?&?&?&?); done.
Qed.

Lemma submit_all_run branch remotes : forall w,
  exists w',
    submit_all env branch remotes w =
      (Ok (futures_of (outcomes env (length (spawned w)) branch remotes)), w') /\
    same_session w w' /\ pools w' = pools w /\
    spawned w' = spawned w ++ push_cmds branch remotes.
Proof.
  induction remotes as [|remote rest IH]; intros w; simpl.
  - exists w. split; [done|]. split; [auto with session|].
    split; [done|]. destruct branch; by rewrite app_nil_r.
  - munfold.
    destruct (execute_push_run remote branch false w)
      as (w1 & -> & Hs1 & Hp1 & Hsp1 & Hadv).
    destruct (IH w1) as (w2 & -> & Hs2 & Hp2 & Hsp2).
    rewrite Hadv. exists w2. split; [done|].
    split; [by eapply same_session_trans|]. split; [congruence|].
    rewrite Hsp2, Hsp1. destruct branch; simpl; by rewrite <- ?app_assoc.
Qed.

(** The collecting loop tallies the outcomes in completion order; no
    outcome makes it raise. *)
Lemma as_completed_loop_run outs order : forall w success_count failed_remotes,
  let done_ := completed outs order in
  exists w',
    as_completed_loop (futures_of outs) order success_count failed_remotes w =
      (Ok (success_count + length (filter pushed done_),
           failed_remotes ++ (filter refused done_).*1), w') /\
    same_session w w' /\ pools w' = pools w /\ spawned w' = spawned w.
Proof.
  unfold completed.
  induction order as [|i rest IH]; intros w sc fl; simpl.
  - exists w. rewrite Nat.add_0_r, app_nil_r. repeat split; done.
  - assert (futures_of outs !! i =
            (fun o => (o.1, result_map JBool o.2)) <$> (outs !! i)) as ->
      by apply list_lookup_fmap.
    destruct (outs !! i) as [[remote [[|]|e]]|] eqn:Hi; simpl.
    + munfold.
      destruct (IH (set_console (console w ++ [MSuccess ("✓ Pushed to " +:+ remote)]) w)
                  (S sc) fl) as (w2 & -> & Hs2 & Hp2 & Hsp2).
      exists w2. rewrite ?filter_pushed_cons, ?filter_refused_cons. simpl.
      rewrite Nat.add_succ_r. split; [done|].
      split; [|done]. eapply same_session_trans; [|apply Hs2]. auto with session.
    + munfold.
      destruct (IH (set_console (console w ++ [MError ("✗ Failed to push to " +:+ remote)]) w)
                  sc (fl ++ [remote])) as (w2 & -> & Hs2 & Hp2 & Hsp2).
      exists w2. rewrite ?filter_pushed_cons, ?filter_refused_cons. simpl.
      rewrite <- app_assoc. split; [done|].
      split; [|done]. eapply same_session_trans; [|apply Hs2]. auto with session.
    + munfold.
      destruct (IH (set_console
                      (console w ++ [MException ("✗ Error pushing to " +:+ remote +:+ ": ") e]) w)
                  sc (fl ++ [remote])) as (w2 & -> & Hs2 & Hp2 & Hsp2).
      exists w2. rewrite ?filter_pushed_cons, ?filter_refused_cons. simpl.
      rewrite <- app_assoc. split; [done|].
      split; [|done]. eapply same_session_trans; [|apply Hs2]. auto with session.
    + apply IH.
Qed.

Lemma print_push_summary_run success total_ failed_ w :
  exists w',
    _print_push_summary success total_ failed_ w =
      (Ok {| succeeded := success; total := total_; failed := failed_ |}, w') /\
    same_session w w' /\ pools w' = pools w /\ spawned w' = spawned w.
Proof.
  unfold _print_push_summary. munfold. simpl.
  destruct (is_empty failed_); simpl; eexists; (split; [reflexivity|]);
    repeat split; done.
Qed.

(** [_push_sequential]: the summary counts the outcomes in request order;
    the call raises when a push raises. *)
Lemma push_sequential_run remotes branch w :
  let outs := outcomes env (length (spawned w)) branch remotes in
  exists w',
    _push_sequential env remotes branch w =
      (match first_raise outs with
       | Some e => Raise e
       | None => Ok {| succeeded := length (filter pushed outs);
                       total := length remotes;
                       failed := (filter refused outs).*1 |}
       end, w') /\
    same_session w w' /\ pools w' = pools w /\
    (first_raise outs = None -> spawned w' = spawned w ++ push_cmds branch remotes).
Proof.
  intros outs. unfold _push_sequential.
  destruct (sequential_loop_run branch remotes w 0 []) as (w1 & Hrun & Hs1 & Hp1 & Hsp1).
  fold outs in Hrun, Hsp1. unfold mbind, M_bind. rewrite Hrun.
  destruct (first_raise outs) as [e|].
  - exists w1. repeat split; try done; apply Hs1.
  - destruct (print_push_summary_run (0 + length (filter pushed outs)) (length remotes)
                ([] ++ (filter refused outs).*1) w1) as (w2 & -> & Hs2 & Hp2 & Hsp2).
    exists w2. split; [done|]. split; [by eapply same_session_trans|].
    split; [congruence|]. intros _. rewrite Hsp2. by apply Hsp1.
Qed.

(** [_push_parallel] on a request with at least one target: it never
    raises, every push is attempted, and the summary counts the outcomes in
    completion order. *)
Lemma push_parallel_run remotes branch order w :
  remotes <> [] ->
  let done_ := completed (outcomes env (length (spawned w)) branch remotes) order in
  exists w',
    _push_parallel env remotes branch order w =
      (Ok {| succeeded := length (filter pushed done_);
             total := length remotes;
             failed := (filter refused done_).*1 |}, w') /\
    same_session w w' /\
    pools w' = pools w ++ [length remotes `min` 5] /\
    spawned w' = spawned w ++ push_cmds branch remotes.
Proof.
  intros Hne done_. unfold _push_parallel, open_pool. munfold. simpl.
  destruct (Nat.eqb_spec (length remotes `min` 5) 0) as [Hz|_].
  { destruct remotes; [done|]. simpl in Hz. lia. }
  set (w0 := set_pools _ _).
  destruct (submit_all_run branch remotes w0) as (w1 & -> & Hs1 & Hp1 & Hsp1).
  destruct (as_completed_loop_run (outcomes env (length (spawned w0)) branch remotes)
              order w1 0 []) as (w2 & -> & Hs2 & Hp2 & Hsp2).
  destruct (print_push_summary_run
              (0 + length (filter pushed
                             (completed (outcomes env (length (spawned w0)) branch remotes) order)))
              (length remotes)
              ([] ++ (filter refused
                        (completed (outcomes env (length (spawned w0)) branch remotes) order)).*1)
              w2) as (w3 & -> & Hs3 & Hp3 & Hsp3).
  exists w3. split; [done|]. subst w0. simpl in *.
  split; [|split; [congruence|congruence]].
  eapply same_session_trans; [|apply Hs3].
  eapply same_session_trans; [|apply Hs2].
  eapply same_session_trans; [|apply Hs1]. by repeat split.
Qed.

End Dispatch.

(** ** Tallies *)

Lemma tally_total (outs : list (string * result bool)) :
  (length (filter pushed outs) + length (filter refused outs))%nat = length outs.
Proof.
  induction outs as [|o outs IH]; [done|].
  rewrite filter_pushed_cons, filter_refused_cons.
  destruct (pushed o); simpl; lia.
Qed.

Lemma completed_from {A} (l1 l2 : list A) :
  omap (fun i => (l1 ++ l2) !! i) (seq (length l1) (length l2)) = l2.
Proof.
  revert l1. induction l2 as [|x l2 IH]; intros l1; [done|].
  simpl. rewrite list_lookup_middle by done. f_equal.
  specialize (IH (l1 ++ [x])). rewrite <- app_assoc, length_app in IH.
  simpl in IH. by rewrite Nat.add_1_r in IH.
Qed.

(** When the pushes complete in request order nothing is rearranged. *)
Lemma completed_in_request_order outs :
  completed outs (seq 0 (length outs)) = outs.
Proof. apply (completed_from [] outs). Qed.

(** Whatever the completion order, the same outcomes are collected. *)
Lemma completed_permutation outs order :
  order ≡ₚ seq 0 (length outs) -> completed outs order ≡ₚ outs.
Proof.
  intros Hperm. rewrite <- (completed_in_request_order outs) at 2.
  unfold completed. by rewrite Hperm.
Qed.

Lemma refused_names_sublist env n branch remotes :
  sublist (filter refused (outcomes env n branch remotes)).*1 remotes.
Proof.
  rewrite <- (outcomes_names env n branch remotes) at 2.
  apply fmap_sublist, sublist_filter.
Qed.

Section Claims.

Context (env : Env).

(** C2. For a request with at least one target and any outcomes of its
    pushes (pushed, refused, raised): the parallel dispatch always produces
    a summary, the sequential one produces a summary unless a push raises,
    and every summary produced has succeeded + len(failed) = total =
    number of targets. *)
Theorem summary_counts_add_up remotes branch order w :
  remotes <> [] ->
  order ≡ₚ seq 0 (length remotes) ->
  (exists s w', _push_parallel env remotes branch order w = (Ok s, w') /\
     (succeeded s + length (failed s))%nat = total s /\ total s = length remotes) /\
  (forall s w', _push_sequential env remotes branch w = (Ok s, w') ->
     (succeeded s + length (failed s))%nat = total s /\ total s = length remotes) /\
  (first_raise (outcomes env (length (spawned w)) branch remotes) = None ->
     exists s w', _push_sequential env remotes branch w = (Ok s, w')).
Proof.
  intros Hne Hperm.
  set (outs := outcomes env (length (spawned w)) branch remotes).
  assert (length outs = length remotes) as Hlen by apply outcomes_length.
  split; [|split].
  - destruct (push_parallel_run env remotes branch order w Hne) as (w' & Hrun & _).
    eexists _, w'. split; [exact Hrun|]. simpl. split; [|done].
    rewrite length_fmap, tally_total. fold outs.
    rewrite (Permutation_length (completed_permutation outs order
               ltac:(by rewrite Hlen))). done.
  - intros s w' Hrun.
    destruct (push_sequential_run env remotes branch w) as (w1 & Hrun1 & _).
    fold outs in Hrun1. rewrite Hrun in Hrun1.
    destruct (first_raise outs); [done|]. injection Hrun1 as -> _. simpl.
    by rewrite length_fmap, tally_total.
  - intros Hnone.
    destruct (push_sequential_run env remotes branch w) as (w1 & Hrun1 & _).
    fold outs in Hrun1. rewrite Hnone in Hrun1. eauto.
Qed.

(** C1 (amended). In sequential mode the failed list names the refused
    targets in request order. In parallel mode it names them in completion
    order: the same names, arranged as the pushes finished. *)
Theorem failed_list_order remotes branch order w :
  remotes <> [] ->
  order ≡ₚ seq 0 (length remotes) ->
  let outs := outcomes env (length (spawned w)) branch remotes in
  (forall s w', _push_sequential env remotes branch w = (Ok s, w') ->
     failed s = (filter refused outs).*1 /\ sublist (failed s) remotes) /\
  (exists s w', _push_parallel env remotes branch order w = (Ok s, w') /\
     failed s = (filter refused (completed outs order)).*1 /\
     failed s ≡ₚ (filter refused outs).*1).
Proof.
  intros Hne Hperm outs.
  assert (length outs = length remotes) as Hlen by apply outcomes_length.
  split.
  - intros s w' Hrun.
    destruct (push_sequential_run env remotes branch w) as (w1 & Hrun1 & _).
    fold outs in Hrun1. rewrite Hrun in Hrun1.
    destruct (first_raise outs); [done|]. injection Hrun1 as -> _. simpl.
    split; [done|]. apply refused_names_sublist.
  - destruct (push_parallel_run env remotes branch order w Hne) as (w' & Hrun & _).
    eexists _, w'. split; [exact Hrun|]. simpl. split; [done|].
    fold outs. by rewrite (completed_permutation outs order ltac:(by rewrite Hlen)).
Qed.

(** C3 (amended). When no push raises, the two modes produce summaries
    with the same total, the same succeeded count and the same failed
    names; the failed names are in the same order when the pushes complete
    in request order. *)
Theorem modes_agree_up_to_order remotes branch order w :
  remotes <> [] ->
  order ≡ₚ seq 0 (length remotes) ->
  first_raise (outcomes env (length (spawned w)) branch remotes) = None ->
  exists s1 w1 s2 w2,
    _push_sequential env remotes branch w = (Ok s1, w1) /\
    _push_parallel env remotes branch order w = (Ok s2, w2) /\
    total s1 = total s2 /\ succeeded s1 = succeeded s2 /\
    failed s1 ≡ₚ failed s2 /\
    (order = seq 0 (length remotes) -> s1 = s2).
Proof.
  intros Hne Hperm Hnone.
  set (outs := outcomes env (length (spawned w)) branch remotes) in *.
  assert (length outs = length remotes) as Hlen by apply outcomes_length.
  assert (completed outs order ≡ₚ outs) as Hdone
    by (apply completed_permutation; by rewrite Hlen).
  destruct (push_sequential_run env remotes branch w) as (w1 & Hrun1 & _).
  destruct (push_parallel_run env remotes branch order w Hne) as (w2 & Hrun2 & _).
  fold outs in Hrun1, Hrun2. rewrite Hnone in Hrun1.
  eexists _, w1, _, w2. split; [exact Hrun1|]. split; [exact Hrun2|]. simpl.
  split; [done|]. split; [by rewrite Hdone|]. split; [by rewrite Hdone|].
  intros ->. rewrite <- Hlen. by rewrite completed_in_request_order.
Qed.

(** The condition of [_push_to_remotes] under which the pool is used. *)
Lemma push_to_remotes_run remotes branch parallel order w :
  _push_to_remotes env remotes branch parallel order w =
  if truthy parallel && truthy (dict_get "parallel_push" (JBool true) (config w))
     && (1 <? length remotes)%nat
  then _push_parallel env remotes branch order w
  else _push_sequential env remotes branch w.
Proof.
  unfold _push_to_remotes, py_and. munfold. simpl.
  destruct (truthy parallel) eqn:Hp; simpl.
  - destruct (truthy (dict_get _ _ _)) eqn:Hc; simpl.
    + by destruct (1 <? length remotes)%nat.
    + by rewrite Hc.
  - by rewrite !Hp.
Qed.

(** C5. A dispatch opens a thread pool only if the request has more than
    one target and the configuration's [parallel_push] is true; a request
    with one target runs exactly as [_push_sequential] and opens no pool.
    (With more than one target, [parallel_push] true and the caller asking
    for it, the pool is opened.) *)
Theorem parallel_only_when_enabled remotes branch parallel order w :
  let w' := (_push_to_remotes env remotes branch parallel order w).2 in
  (pools w' <> pools w ->
     (1 < length remotes)%nat /\
     truthy (dict_get "parallel_push" (JBool true) (config w)) = true) /\
  ((length remotes <= 1)%nat ->
     pools w' = pools w /\
     _push_to_remotes env remotes branch parallel order w =
       _push_sequential env remotes branch w) /\
  (truthy parallel = true ->
   truthy (dict_get "parallel_push" (JBool true) (config w)) = true ->
   (1 < length remotes)%nat ->
     pools w' = pools w ++ [length remotes `min` 5]).
Proof.
  intros w'. subst w'. rewrite push_to_remotes_run.
  destruct (push_sequential_run env remotes branch w) as (ws & Hseq & _ & Hps & _).
  destruct (truthy parallel) eqn:Hp, (truthy (dict_get _ _ _)) eqn:Hc,
    (Nat.ltb_spec 1 (length remotes)) as [Hlen|Hlen]; simpl;
    try (rewrite Hseq; simpl; split; [done|]; split; [done|]; (done || lia)).
  assert (remotes <> []) as Hne by (intros ->; simpl in Hlen; lia).
  destruct (push_parallel_run env remotes branch order w Hne) as (wp & -> & _ & Hpp & _).
  simpl. split; [done|]. split; [lia|done].
Qed.


End Claims.

(** ** The interactive flows *)

Lemma input_run w line rest :
  stdin w = line :: rest -> input w = (Ok line, set_stdin rest w).
Proof. intros H. unfold input. by rewrite H. Qed.

Lemma input_spawned w : spawned (input w).2 = spawned w.
Proof. unfold input. by destruct (stdin w). Qed.

Lemma add_to_history_spawned env cmd descr w :
  spawned (add_to_history env cmd descr w).2 = spawned w.
Proof.
  unfold add_to_history, save_history. simpl.
  destruct (py_neg _); [|done]. by destruct (writable _ _).
Qed.

Section Flows.

Context (env : Env).

Lemma get_remotes_run w stdout stderr :
  git env (length (spawned w)) ["git"; "remote"] = Exited 0 stdout stderr ->
  strip stdout <> "" ->
  get_remotes env w =
    (Ok (split_on "010" (strip stdout)), set_spawned (spawned w ++ [["git"; "remote"]]) w).
Proof.
  intros Hgit Hout. unfold get_remotes, run_git_command. munfold. simpl.
  rewrite Hgit. simpl.
  by destruct (String.eqb_spec (strip stdout) "").
Qed.

(** A command whose process exits returns a value and adds one
    invocation; the rest of the session is as before. *)
Lemma run_git_command_exits cmd args capture_output show_output w code stdout stderr :
  argv cmd = Some args ->
  git env (length (spawned w)) args = Exited code stdout stderr ->
  exists v w',
    run_git_command env cmd capture_output show_output w = (Ok v, w') /\
    same_session w w' /\ pools w' = pools w /\ spawned w' = spawned w ++ [args].
Proof.
  intros Hargs Hgit. unfold run_git_command. rewrite Hargs, Hgit.
  destruct (code =? 0)%Z; do 2 eexists; (split; [reflexivity|]); by repeat split.
Qed.

Lemma get_input_typed prompt default w line rest :
  stdin w = line :: rest ->
  strip line <> "" ->
  get_input prompt default w = (Ok (JStr (strip line)), set_stdin rest w).
Proof.
  intros Hin Hline. unfold get_input, input. munfold.
  destruct (truthy default); rewrite Hin; simpl; [|done].
  by destruct (String.eqb_spec (strip line) "").
Qed.

Lemma print_choices_run choices : forall i w,
  exists c, print_choices i choices w = (Ok tt, set_console c w).
Proof.
  induction choices as [|choice rest IH]; intros i w; simpl.
  - exists (console w). by destruct w.
  - munfold. destruct (IH (S i) (set_console (console w ++ [MPlain ("  " +:+ pretty i +:+ ". " +:+ choice)]) w))
      as (c & ->). by exists c.
Qed.

(** Numbers within range select the entries they name, one entry for
    every number, in the order typed. *)
Lemma pick_in_range choices choice_nums : forall selected,
  Forall (fun num => (1 <= num <= Z.of_nat (length choices))%Z) choice_nums ->
  pick choices choice_nums selected =
    inl (selected ++ omap (fun num => choices !! Z.to_nat (num - 1)) choice_nums) /\
  length (omap (fun num => choices !! Z.to_nat (num - 1)) choice_nums)
    = length choice_nums.
Proof.
  induction choice_nums as [|num rest IH]; intros selected Hall; simpl.
  - by rewrite app_nil_r.
  - apply Forall_cons in Hall as [Hnum Hrest].
    destruct (Z.leb_spec 1 num); [|lia].
    destruct (Z.leb_spec num (Z.of_nat (length choices))); [|lia]. simpl.
    destruct (lookup_lt_is_Some_2 choices (Z.to_nat (num - 1)) ltac:(lia))
      as [choice Hchoice].
    rewrite Hchoice. destruct (IH (selected ++ [choice]) Hrest) as [-> Hlen].
    split; [by rewrite <- app_assoc|]. simpl. f_equal. exact Hlen.
Qed.

(** The loop of [get_multiple_choice] never uses up its turns: a turn
    more than there are lines changes nothing. *)
Lemma choice_loop_fuel choices fuel : forall w,
  (length (stdin w) < fuel)%nat ->
  choice_loop env (S fuel) choices w = choice_loop env fuel choices w.
Proof.
  induction fuel as [|fuel IH]; intros w Hlt; [lia|].
  change (choice_loop env (S (S fuel)) choices w) with
    ((line ← input;
      let choice_input := strip line in
      if negb (truthy (JStr choice_input)) then mret []
      else
        match parse_numbers env (split_on "," choice_input) with
        | None =>
            print (MPlain "Please enter valid numbers separated by commas.");;
            choice_loop env (S fuel) choices
        | Some choice_nums =>
            match pick choices choice_nums [] with
            | inl selected => mret selected
            | inr num => print (MPlain ("Invalid choice: " +:+ pretty num));; mret []
            end
        end) w).
  simpl. unfold mbind, M_bind, input at 1 3.
  destruct (stdin w) as [|line rest] eqn:Hin; [done|].
  destruct (negb _); [done|].
  destruct (parse_numbers _ _); [done|].
  unfold print. apply IH. simpl in *. lia.
Qed.

Lemma get_multiple_choice_typed prompt choices w line rest choice_nums selected :
  stdin w = line :: rest ->
  strip line <> "" ->
  parse_numbers env (split_on "," (strip line)) = Some choice_nums ->
  pick choices choice_nums [] = inl selected ->
  exists c,
    get_multiple_choice env prompt choices w =
      (Ok selected, set_console c (set_stdin rest w)).
Proof.
  intros Hin Hline Hparse Hpick. unfold get_multiple_choice. munfold.
  set (w1 := set_console _ (set_console _ w)).
  destruct (print_choices_run choices 1 w1) as (c & ->).
  simpl. erewrite bind_run by (apply input_run; simpl; exact Hin).
  destruct (String.eqb_spec (strip line) ""); [done|]. simpl.
  rewrite Hparse, Hpick. by exists c.
Qed.

Lemma truthy_py_and a b : truthy (py_and a b) = truthy a && truthy b.
Proof. unfold py_and. by destruct (truthy a) eqn:Ha; rewrite ?Ha. Qed.

(** What follows the dispatch in [interactive_push_multiple] spawns
    nothing. *)
Lemma after_dispatch_spawned branch (n : nat) (s : Summary) w :
  spawned ((add_to_history env "push"
              [Lit "Pushed "; Fmt branch; Lit " to "; Fmt (JInt (Z.of_nat n));
               Lit " remotes"];; input;; mret tt) w).2 = spawned w.
Proof.
  rewrite bind_spawned; [apply add_to_history_spawned|].
  intros _ w0. rewrite bind_spawned; [apply input_spawned|]. done.
Qed.

(** [interactive_push_multiple], from the list of remotes to the pushes.
    Git lists at least two remotes; the user types a branch and a
    selection of numbers within range; the pushes run in parallel, or
    one after the other without raising. Then the flow has invoked
    [git remote], [git branch --show-current] and one push for every entry
    of the selection, with the branch as typed. *)
Lemma push_multiple_spawns order w remotes stdout1 stderr1 code2 stdout2 stderr2
    line1 line2 rest choice_nums selected :
  git env (length (spawned w)) ["git"; "remote"] = Exited 0 stdout1 stderr1 ->
  split_on "010" (strip stdout1) = remotes ->
  (1 < length remotes)%nat ->
  git env (S (length (spawned w))) ["git"; "branch"; "--show-current"]
    = Exited code2 stdout2 stderr2 ->
  is_Some (dict_lookup (JStr "default_branch") (config w)) ->
  stdin w = line1 :: line2 :: rest ->
  strip line1 <> "" ->
  strip line2 <> "" ->
  parse_numbers env (split_on "," (strip line2)) = Some choice_nums ->
  pick remotes choice_nums [] = inl selected ->
  selected <> [] ->
  order ≡ₚ seq 0 (length selected) ->
  truthy (dict_get "parallel_push" (JBool true) (config w))
    && (1 <? length selected)%nat = true \/
  first_raise (outcomes env (2 + length (spawned w)) (JStr (strip line1)) selected)
    = None ->
  spawned (interactive_push_multiple env order w).2 =
    spawned w ++ [["git"; "remote"]; ["git"; "branch"; "--show-current"]]
      ++ push_cmds (JStr (strip line1)) selected.
Proof.
  intros Hgit1 Hremotes Hlen Hgit2 [dflt Hdflt] Hin Hline1 Hline2 Hparse Hpick
    Hsel Hperm Hmode.
  assert (strip stdout1 <> "") as Hout.
  { intros Heq. rewrite Heq in Hremotes. subst remotes. simpl in Hlen. lia. }
  unfold interactive_push_multiple.
  erewrite bind_run by exact (get_remotes_run w stdout1 stderr1 Hgit1 Hout).
  rewrite Hremotes.
  destruct remotes as [|r1 [|r2 remotes']]; [simpl in Hlen; lia..|].
  cbn [is_empty length Nat.eqb].
  set (remotes := r1 :: r2 :: remotes') in *.
  set (w1 := set_spawned _ w).
  destruct (run_git_command_exits
              [JStr "git"; JStr "branch"; JStr "--show-current"]
              ["git"; "branch"; "--show-current"] true true w1 code2 stdout2 stderr2
              eq_refl) as (current_branch & w2 & Hrun2 & Hs2 & Hp2 & Hsp2).
  { subst w1. simpl. rewrite length_app. simpl. by rewrite Nat.add_1_r. }
  erewrite bind_run by exact Hrun2.
  destruct Hs2 as (Hcfg2 & _ & _ & _ & Hin2). subst w1. simpl in Hcfg2, Hin2, Hsp2.
  erewrite bind_run by reflexivity.
  assert (exists default,
            (if truthy current_branch then mret current_branch
             else lift (dict_index "default_branch" (config w2))) w2 = (Ok default, w2))
    as (default & Hdefault).
  { destruct (truthy current_branch); [by eexists|].
    exists dflt. unfold lift, dict_index. by rewrite Hcfg2, Hdflt. }
  erewrite bind_run by exact Hdefault.
  erewrite bind_run by (apply get_input_typed; [by rewrite Hin2|done]).
  destruct (get_multiple_choice_typed "Select remotes to push to:" remotes
              (set_stdin (line2 :: rest) w2) line2 rest choice_nums selected
              eq_refl Hline2 Hparse Hpick) as (c & Hchoice).
  erewrite bind_run by exact Hchoice.
  destruct selected as [|s1 selected']; [done|]. cbn [is_empty].
  set (selected := s1 :: selected') in *.
  erewrite bind_run by reflexivity.
  set (w3 := set_console c _).
  set (use_parallel := py_and _ _).
  assert (exists w4,
            (if truthy use_parallel
             then print_info "Using parallel push for faster operation"
             else mret tt) w3 = (Ok tt, w4) /\
            config w4 = config w /\ spawned w4 = spawned w3) as (w4 & Hinfo & Hcfg4 & Hsp4).
  { destruct (truthy use_parallel); eexists; (split; [reflexivity|]); by simpl. }
  erewrite bind_run by exact Hinfo.
  rewrite bind_spawned
    by (intros a w0; exact (after_dispatch_spawned _ (length selected) a w0)).
  assert (spawned w4 = spawned w ++ [["git"; "remote"]; ["git"; "branch"; "--show-current"]])
    as Hsp4'.
  { rewrite Hsp4. subst w3. simpl. by rewrite Hsp2, <- app_assoc. }
  assert (truthy use_parallel =
          truthy (dict_get "parallel_push" (JBool true) (config w))
          && (1 <? length selected)%nat) as Huse.
  { subst use_parallel. rewrite truthy_py_and. subst w3. simpl. by rewrite Hcfg2. }
  rewrite push_to_remotes_run, Huse, Hcfg4.
  set (cond := truthy (dict_get "parallel_push" (JBool true) (config w))
               && (1 <? length selected)%nat) in *.
  assert (length (spawned w4) = (2 + length (spawned w))%nat) as Hbase.
  { rewrite Hsp4', length_app. simpl. lia. }
  destruct cond eqn:Hcond.
  - apply andb_true_iff in Hcond as [-> ->]. cbn [andb].
    destruct (push_parallel_run env selected (JStr (strip line1)) order w4 Hsel)
      as (w5 & -> & _ & _ & Hsp5).
    simpl. by rewrite Hsp5, Hsp4', <- app_assoc.
  - cbn [andb]. destruct Hmode as [?|Hnone]; [done|].
    destruct (push_sequential_run env selected (JStr (strip line1)) w4)
      as (w5 & Hrun5 & _ & _ & Hsp5).
    rewrite Hbase in Hrun5, Hsp5. rewrite Hrun5, Hnone. simpl.
    by rewrite (Hsp5 Hnone), Hsp4', <- app_assoc.
Qed.

Lemma malformed_nonempty name : malformed name -> name <> "".
Proof. intros [[|? u] v|v|[|? u]|[|? u]|[|? u] v]; done. Qed.

(** [interactive_create_branch] turns a malformed name down before it
    runs anything. *)
Lemma create_branch_rejects_before_spawning w line rest :
  stdin w = line :: rest ->
  malformed (strip line) ->
  spawned (interactive_create_branch env w).2 = spawned w.
Proof.
  intros Hin Hbad. unfold interactive_create_branch.
  pose proof (malformed_nonempty _ Hbad) as Hne.
  erewrite bind_run by (by apply get_input_typed).
  simpl. destruct (String.eqb_spec (strip line) ""); [done|]. simpl.
  rewrite (validate_branch_name_malformed _ Hbad). simpl.
  rewrite bind_spawned; [done|].
  intros _ w0. rewrite bind_spawned; [apply input_spawned|done].
Qed.

(** C4 (amended). [validate_branch_name] refuses a name with a space, a
    leading [-], a trailing [.], a trailing [.lock] or an embedded [..],
    and branch creation refuses it before anything is spawned. The push
    dispatch does not check the name: typed as the branch to push, the same
    name is handed to one push invocation per selected remote. *)
Theorem branch_name_checked_on_creation_only order w remotes stdout1 stderr1
    code2 stdout2 stderr2 line1 line2 rest choice_nums selected :
  malformed (strip line1) ->
  git env (length (spawned w)) ["git"; "remote"] = Exited 0 stdout1 stderr1 ->
  split_on "010" (strip stdout1) = remotes ->
  (1 < length remotes)%nat ->
  git env (S (length (spawned w))) ["git"; "branch"; "--show-current"]
    = Exited code2 stdout2 stderr2 ->
  is_Some (dict_lookup (JStr "default_branch") (config w)) ->
  stdin w = line1 :: line2 :: rest ->
  strip line2 <> "" ->
  parse_numbers env (split_on "," (strip line2)) = Some choice_nums ->
  pick remotes choice_nums [] = inl selected ->
  selected <> [] ->
  order ≡ₚ seq 0 (length selected) ->
  truthy (dict_get "parallel_push" (JBool true) (config w))
    && (1 <? length selected)%nat = true \/
  first_raise (outcomes env (2 + length (spawned w)) (JStr (strip line1)) selected)
    = None ->
  validate_branch_name (strip line1) = false /\
  spawned (interactive_create_branch env w).2 = spawned w /\
  spawned (interactive_push_multiple env order w).2 =
    spawned w ++ [["git"; "remote"]; ["git"; "branch"; "--show-current"]]
      ++ ((fun remote => ["git"; "push"; remote; strip line1]) <$> selected).
Proof.
  intros Hbad Hgit1 Hremotes Hlen Hgit2 Hdflt Hin Hline2 Hparse Hpick Hsel Hperm Hmode.
  split; [by apply validate_branch_name_malformed|].
  split; [by eapply create_branch_rejects_before_spawning|].
  by erewrite push_multiple_spawns by eauto using malformed_nonempty.
Qed.

#[local] Instance push_argv_inj b :
  Inj (=) (=) (fun remote : string => ["git"; "push"; remote; b]).
Proof. intros x y H. by injection H. Qed.

(** C6 (amended). The selection is not de-duplicated: it has one entry
    for every number typed, in the order typed, and the dispatch issues one
    push for every entry, so a remote selected twice is pushed to twice.
    Each remote is pushed to at most once when the selection has no
    repeated remote. *)
Theorem selection_pushed_entry_by_entry order w remotes stdout1 stderr1
    code2 stdout2 stderr2 line1 line2 rest choice_nums :
  let selected := omap (fun num => remotes !! Z.to_nat (num - 1)) choice_nums in
  let pushes := (fun remote => ["git"; "push"; remote; strip line1]) <$> selected in
  git env (length (spawned w)) ["git"; "remote"] = Exited 0 stdout1 stderr1 ->
  split_on "010" (strip stdout1) = remotes ->
  (1 < length remotes)%nat ->
  git env (S (length (spawned w))) ["git"; "branch"; "--show-current"]
    = Exited code2 stdout2 stderr2 ->
  is_Some (dict_lookup (JStr "default_branch") (config w)) ->
  stdin w = line1 :: line2 :: rest ->
  strip line1 <> "" ->
  strip line2 <> "" ->
  parse_numbers env (split_on "," (strip line2)) = Some choice_nums ->
  choice_nums <> [] ->
  Forall (fun num => (1 <= num <= Z.of_nat (length remotes))%Z) choice_nums ->
  order ≡ₚ seq 0 (length choice_nums) ->
  truthy (dict_get "parallel_push" (JBool true) (config w))
    && (1 <? length choice_nums)%nat = true \/
  first_raise (outcomes env (2 + length (spawned w)) (JStr (strip line1)) selected)
    = None ->
  length selected = length choice_nums /\
  spawned (interactive_push_multiple env order w).2 =
    spawned w ++ [["git"; "remote"]; ["git"; "branch"; "--show-current"]] ++ pushes /\
  (NoDup selected -> NoDup pushes).
Proof.
  intros selected pushes Hgit1 Hremotes Hlen Hgit2 Hdflt Hin Hline1 Hline2 Hparse
    Hnums Hrange Hperm Hmode.
  destruct (pick_in_range remotes choice_nums [] Hrange) as [Hpick Hsellen].
  fold selected in Hpick, Hsellen. rewrite app_nil_l in Hpick.
  split; [done|].
  split; [|intros Hnd; subst pushes; apply NoDup_fmap_2; [apply push_argv_inj|done]].
  assert (selected <> []) as Hsel.
  { intros Heq. rewrite Heq in Hsellen. by destruct choice_nums. }
  erewrite push_multiple_spawns; eauto; by rewrite Hsellen.
Qed.

End Flows.

(** ** Scenarios *)

(** The cases of [test_validation.py]. *)
Example validate_branch_name_valid :
  validate_branch_name <$> ["main"; "feature/new-feature"; "bugfix-123"; "release-v1.0.0"]
  = [true; true; true; true].
Proof. reflexivity. Qed.

Example validate_branch_name_invalid :
  validate_branch_name <$>
    [""; "feature branch"; "feature~123"; "feature^123"; "feature:123"; "feature?123";
     "feature*123"; "feature[123]"; "-feature"; "feature."; "feature.lock";
     "feature..branch"]
  = replicate 12 false.
Proof. reflexivity. Qed.

Example strip_and_split :
  split_on "010" (strip (" origin" +:+ String "010" ("upstream" +:+ String "010" "  ")))
  = ["origin"; "upstream"].
Proof. reflexivity. Qed.

(** The scenario of the specification, in either mode: origin and mirror
    succeed, upstream fails with an authentication error. *)
Example three_remotes_one_failure :
  let s := {| succeeded := 2; total := 3; failed := ["upstream"] |} in
  (_push_sequential three_pushes ["origin"; "upstream"; "mirror"] (JStr "main")
     (start default_config [])).1 = Ok s /\
  (_push_parallel three_pushes ["origin"; "upstream"; "mirror"] (JStr "main") [2; 0; 1]
     (start default_config [])).1 = Ok s.
Proof. by vm_compute. Qed.

Lemma summary_counts_add_up_witness :
  exists s w',
    _push_parallel three_pushes ["origin"; "upstream"; "mirror"] (JStr "main")
      [2; 0; 1] (start default_config []) = (Ok s, w') /\
    (succeeded s + length (failed s))%nat = total s /\ total s = 3%nat.
Proof.
  apply (summary_counts_add_up three_pushes ["origin"; "upstream"; "mirror"]
           (JStr "main") [2; 0; 1] (start default_config [])).
  - discriminate.
  - apply (bool_decide_unpack _). vm_compute. exact I.
Defined.

(** C1 (counterexample). origin and mirror fail, mirror completes first:
    the parallel summary lists mirror before origin, against the request
    order origin, upstream, mirror. *)
Lemma parallel_failed_in_completion_order :
  (_push_parallel
     (scripted [Exited 1 "" "auth error"; Exited 0 "" ""; Exited 1 "" "timeout"])
     ["origin"; "upstream"; "mirror"] (JStr "main") [2; 1; 0]
     (start default_config [])).1
  = Ok {| succeeded := 1; total := 3; failed := ["mirror"; "origin"] |} /\
  ~ sublist ["mirror"; "origin"] ["origin"; "upstream"; "mirror"].
Proof.
  split; [by vm_compute|].
  intros H.
  apply sublist_cons_r in H as [H|(l & Heq & H)]; [|done].
  apply sublist_cons_r in H as [H|(l & Heq & H)]; [|done].
  apply sublist_cons_r in H as [H|(l & Heq & H)].
  - by apply sublist_nil_r in H.
  - injection Heq as <-. by apply sublist_nil_r in H.
Qed.

Lemma failed_list_order_witness :
  exists s w',
    _push_parallel three_pushes ["origin"; "upstream"; "mirror"] (JStr "main")
      [2; 0; 1] (start default_config []) = (Ok s, w') /\
    failed s ≡ₚ ["upstream"].
Proof.
  destruct (failed_list_order three_pushes ["origin"; "upstream"; "mirror"]
              (JStr "main") [2; 0; 1] (start default_config []))
    as (_ & s & w' & Hrun & _ & Hperm).
  - discriminate.
  - apply (bool_decide_unpack _). vm_compute. exact I.
  - exists s, w'. split; [exact Hrun|exact Hperm].
Defined.

(** C3 (counterexample). Both pushes fail and upstream completes first:
    the sequential summary lists origin, upstream; the parallel one
    upstream, origin. *)
Lemma modes_disagree_on_failed_order :
  let env := scripted [Exited 1 "" "auth error"; Exited 1 "" "timeout"] in
  let w := start default_config [] in
  (_push_to_remotes env ["origin"; "upstream"] (JStr "main") (JBool false) [1; 0] w).1
    = Ok {| succeeded := 0; total := 2; failed := ["origin"; "upstream"] |} /\
  (_push_to_remotes env ["origin"; "upstream"] (JStr "main") (JBool true) [1; 0] w).1
    = Ok {| succeeded := 0; total := 2; failed := ["upstream"; "origin"] |}.
Proof. by vm_compute. Qed.

Lemma modes_agree_up_to_order_witness :
  exists s1 w1 s2 w2,
    _push_sequential three_pushes ["origin"; "upstream"; "mirror"] (JStr "main")
      (start default_config []) = (Ok s1, w1) /\
    _push_parallel three_pushes ["origin"; "upstream"; "mirror"] (JStr "main")
      [2; 0; 1] (start default_config []) = (Ok s2, w2) /\
    total s1 = total s2 /\ succeeded s1 = succeeded s2 /\ failed s1 ≡ₚ failed s2.
Proof.
  destruct (modes_agree_up_to_order three_pushes ["origin"; "upstream"; "mirror"]
              (JStr "main") [2; 0; 1] (start default_config []))
    as (s1 & w1 & s2 & w2 & H1 & H2 & Ht & Hs & Hf & _).
  - discriminate.
  - apply (bool_decide_unpack _). vm_compute. exact I.
  - reflexivity.
  - by exists s1, w1, s2, w2.
Defined.

Lemma parallel_only_when_enabled_witness :
  pools (_push_to_remotes three_pushes ["origin"] (JStr "main") (JBool true) [0]
           (start default_config [])).2 = [] /\
  pools (_push_to_remotes three_pushes ["origin"; "upstream"; "mirror"] (JStr "main")
           (JBool true) [2; 0; 1] (start default_config [])).2 = [3%nat].
Proof.
  split.
  - apply (parallel_only_when_enabled three_pushes ["origin"] (JStr "main")
             (JBool true) [0] (start default_config [])). simpl. lia.
  - apply (parallel_only_when_enabled three_pushes ["origin"; "upstream"; "mirror"]
             (JStr "main") (JBool true) [2; 0; 1] (start default_config []));
      [reflexivity|reflexivity|simpl; lia].
Defined.


(** C4 (counterexample). The branch typed at the push menu is
    [bad name]; it is not validated, and both selected remotes are pushed
    to. *)
Lemma invalid_branch_is_pushed :
  let w := start default_config ["bad name"; "1,2"; ""] in
  validate_branch_name "bad name" = false /\
  spawned (interactive_push_multiple (push_session []) [0; 1] w).2 =
    [["git"; "remote"]; ["git"; "branch"; "--show-current"];
     ["git"; "push"; "origin"; "bad name"]; ["git"; "push"; "upstream"; "bad name"]].
Proof. by vm_compute. Qed.

Lemma branch_name_checked_on_creation_only_witness :
  let w := start default_config ["bad name"; "1,2"; ""] in
  validate_branch_name "bad name" = false /\
  spawned (interactive_create_branch (push_session []) w).2 = [] /\
  spawned (interactive_push_multiple (push_session []) [0; 1] w).2 =
    [["git"; "remote"]; ["git"; "branch"; "--show-current"];
     ["git"; "push"; "origin"; "bad name"]; ["git"; "push"; "upstream"; "bad name"]].
Proof.
  intros w.
  apply (branch_name_checked_on_creation_only (push_session []) [0; 1] w
           ["origin"; "upstream"] two_remotes "" 0 "main" ""
           "bad name" "1,2" [""] [1; 2]%Z ["origin"; "upstream"]).
  - exact (has_space "bad" "name").
  - reflexivity.
  - reflexivity.
  - simpl. lia.
  - reflexivity.
  - by eexists.
  - reflexivity.
  - discriminate.
  - reflexivity.
  - reflexivity.
  - discriminate.
  - reflexivity.
  - left. reflexivity.
Defined.

(** C6 (counterexample). The selection [1,1] names origin twice; it is
    neither refused nor reduced to one entry, and origin is pushed to
    twice. *)
Lemma duplicate_selection_pushed_twice :
  let w := start default_config ["main"; "1,1"; ""] in
  spawned (interactive_push_multiple (push_session []) [0; 1] w).2 =
    [["git"; "remote"]; ["git"; "branch"; "--show-current"];
     ["git"; "push"; "origin"; "main"]; ["git"; "push"; "origin"; "main"]].
Proof. by vm_compute. Qed.

Lemma selection_pushed_entry_by_entry_witness :
  let w := start default_config ["main"; "2,1"; ""] in
  spawned (interactive_push_multiple (push_session []) [1; 0] w).2 =
    [["git"; "remote"]; ["git"; "branch"; "--show-current"];
     ["git"; "push"; "upstream"; "main"]; ["git"; "push"; "origin"; "main"]].
Proof.
  intros w.
  apply (selection_pushed_entry_by_entry (push_session []) [1; 0] w
           ["origin"; "upstream"] two_remotes "" 0 "main" ""
           "main" "2,1" [""] [2; 1]%Z).
  - reflexivity.
  - reflexivity.
  - simpl. lia.
  - reflexivity.
  - by eexists.
  - reflexivity.
  - discriminate.
  - discriminate.
  - reflexivity.
  - discriminate.
  - repeat constructor; simpl; lia.
  - apply perm_swap.
  - left. reflexivity.
Defined.

(** * Further properties *)

(** ** Prefixes, infixes and suffixes *)

Lemma startswith_split p s :
  startswith p s = true <-> exists rest, s = p +:+ rest.
Proof.
  split.
  - revert s. induction p as [|a p IH]; intros s H.
    + by exists s.
    + destruct s as [|b s]; [done|]. simpl in H.
      apply andb_true_iff in H as [Hab Hps].
      apply Ascii.eqb_eq in Hab as ->. destruct (IH s Hps) as [rest ->].
      by exists rest.
  - intros [rest ->]. apply startswith_app.
Qed.

Lemma contains_split sub s :
  contains sub s = true <-> exists u v, s = u +:+ sub +:+ v.
Proof.
  split.
  - induction s as [|c s IH]; intros H.
    + rewrite contains_unfold, orb_false_r in H.
      apply startswith_split in H as [rest ->]. by exists "", rest.
    + rewrite contains_unfold in H. apply orb_true_iff in H as [H|H].
      * apply startswith_split in H as [rest ->]. by exists "", rest.
      * destruct (IH H) as (u & v & ->). by exists (String c u), v.
  - intros (u & v & ->). apply contains_infix.
Qed.

Lemma endswith_split suf s :
  endswith suf s = true <-> exists u, s = u +:+ suf.
Proof.
  split.
  - induction s as [|c s IH]; intros H.
    + rewrite endswith_unfold, orb_false_r in H.
      apply String.eqb_eq in H as ->. by exists "".
    + rewrite endswith_unfold in H. apply orb_true_iff in H as [H|H].
      * apply String.eqb_eq in H as ->. by exists "".
      * destruct (IH H) as (u & ->). by exists (String c u).
  - intros (u & ->). apply endswith_app.
Qed.

Lemma append_nonempty p rest : p <> "" -> p +:+ rest <> "".
Proof. destruct p; [done|]. by rewrite append_cons. Qed.

(** ** Validation *)

(** X1. [validate_url] accepts exactly the texts that begin with
    [http://], [https://], [git@], [ssh://], [file://], [/] or [..];
    nothing after the prefix is looked at. *)
Theorem validate_url_accepts_by_prefix url :
  validate_url url = true <->
  exists prefix rest,
    prefix ∈ ["http://"; "https://"; "git@"; "ssh://"; "file://"; "/"; ".."] /\
    url = prefix +:+ rest.
Proof.
  unfold validate_url, url_patterns, re_match. split.
  - destruct (negb (truthy (JStr url))); [done|]. cbn [existsb].
    rewrite !orb_false_r, !orb_true_iff.
    intros H.
    repeat (destruct H as [H|H]); apply startswith_split in H as [rest ->];
      eexists _, rest; (split; [|reflexivity]);
      repeat (first [apply list_elem_of_here | apply list_elem_of_further]).
  - intros (prefix & rest & Hin & ->).
    assert (prefix +:+ rest <> "") as Hne.
    { apply append_nonempty. intros ->.
      repeat (apply elem_of_cons in Hin as [?|Hin]; [done|]).
      by apply elem_of_nil in Hin. }
    replace (negb (truthy (JStr (prefix +:+ rest)))) with false
      by (unfold truthy; by destruct (String.eqb_spec (prefix +:+ rest) "")).
    cbn [existsb].
    repeat (apply elem_of_cons in Hin as [->|Hin];
            [rewrite startswith_app; cbn [orb]; by rewrite ?orb_true_r|]).
    by apply elem_of_nil in Hin.
Qed.

(** X2. [validate_branch_name] accepts exactly the non-empty names that
    hold none of the texts of [invalid_chars], do not begin with [-] and do
    not end with [.] or [.lock]. *)
Theorem validate_branch_name_accepts name :
  validate_branch_name name = true <->
  name <> "" /\
  (forall bad, bad ∈ [" "; "~"; "^"; ":"; "?"; "*"; "["; "\"; ".."] ->
     ~ exists u v, name = u +:+ bad +:+ v) /\
  ~ (exists v, name = "-" +:+ v) /\
  ~ (exists u, name = u +:+ ".") /\
  ~ (exists u, name = u +:+ ".lock").
Proof.
  unfold validate_branch_name.
  replace (negb (truthy (JStr name))) with (name =? "")%string
    by (unfold truthy; by rewrite negb_involutive).
  destruct (String.eqb_spec name "") as [->|Hne].
  { split; [done|]. by intros [? _]. }
  destruct (existsb _ invalid_chars) eqn:Hbad.
  { split; [done|]. intros (_ & Hnone & _). exfalso.
    apply existsb_exists in Hbad as (bad & Hin & Hc).
    apply contains_split in Hc. apply (Hnone bad); [|done].
    by apply list_elem_of_In. }
  destruct (startswith "-" name) eqn:Hdash.
  { split; [done|]. intros (_ & _ & Hnd & _). exfalso. apply Hnd.
    by apply startswith_split. }
  destruct (endswith "." name) eqn:Hdot.
  { split; [done|]. intros (_ & _ & _ & Hnd & _). exfalso. apply Hnd.
    by apply endswith_split. }
  destruct (endswith ".lock" name) eqn:Hlock.
  { split; [done|]. intros (_ & _ & _ & _ & Hnl). exfalso. apply Hnl.
    by apply endswith_split. }
  split; [intros _|done].
  split; [done|]. split; [|split; [|split]].
  - intros bad Hin Hc. apply contains_split in Hc.
    assert (existsb (fun char => contains char name) invalid_chars = true) as Hex.
    { apply existsb_exists. exists bad. split; [by apply list_elem_of_In|done]. }
    by rewrite Hbad in Hex.
  - intros H. apply startswith_split in H. by rewrite Hdash in H.
  - intros H. apply endswith_split in H. by rewrite Hdot in H.
  - intros H. apply endswith_split in H. by rewrite Hlock in H.
Qed.

(** ** Steps that only talk *)

Lemma only_talks_refl w : only_talks w w.
Proof. by repeat split. Qed.

Lemma only_talks_trans w1 w2 w3 :
  only_talks w1 w2 -> only_talks w2 w3 -> only_talks w1 w3.
Proof. intros (?&?&?&?&?&?) (?&?&?&?&?&?). repeat split; congruence. Qed.

Lemma only_talks_console w c : only_talks w (set_console c w).
Proof. by repeat split. Qed.

Lemma only_talks_stdin w l : only_talks w (set_stdin l w).
Proof. by repeat split. Qed.

Lemma input_only_talks w : only_talks w (input w).2.
Proof. unfold input. destruct (stdin w); by repeat split. Qed.

Lemma print_choices_default_run choices default : forall i w,
  exists c, print_choices_default i choices default w = (Ok tt, set_console c w).
Proof.
  induction choices as [|choice rest IH]; intros i w; simpl.
  - exists (console w). by destruct w.
  - munfold. match goal with |- context [print_choices_default _ _ _ ?w0] =>
      destruct (IH (S i) w0) as (c & ->) end. by exists c.
Qed.

Section Prompts.

Context (env : Env).

(** The loop of [get_choice]: what it can return, what it can raise and
    what it leaves alone. *)
Lemma get_choice_loop_run choices default fuel : forall w,
  (length (stdin w) < fuel)%nat ->
  only_talks w (get_choice_loop env fuel choices default w).2 /\
  match (get_choice_loop env fuel choices default w).1 with
  | Ok v => (exists choice, v = JStr choice /\ choice ∈ choices) \/
            (v = default /\ truthy default = true)
  | Raise e => e = EOFError /\ stdin (get_choice_loop env fuel choices default w).2 = []
  end.
Proof.
  induction fuel as [|fuel IH]; intros w Hlt; [lia|].
  cbn [get_choice_loop]. unfold mbind, M_bind, input at 1 2 3.
  destruct (stdin w) as [|line rest] eqn:Hin.
  { split; [apply only_talks_refl|]. simpl. by rewrite Hin. }
  set (w1 := set_stdin rest w).
  destruct (negb (truthy (JStr (strip line))) && truthy default) eqn:Hdef.
  { split; [apply only_talks_stdin|]. right.
    apply andb_true_iff in Hdef as [_ Hd]. done. }
  destruct (int_of_str env (strip line)) as [num|].
  - destruct ((1 <=? num)%Z && (num <=? Z.of_nat (length choices))%Z) eqn:Hrange.
    + apply andb_true_iff in Hrange as [H1 H2].
      apply Z.leb_le in H1, H2.
      destruct (lookup_lt_is_Some_2 choices (Z.to_nat (num - 1)) ltac:(lia))
        as [choice Hchoice].
      rewrite Hchoice. split; [apply only_talks_stdin|]. left.
      exists choice. split; [done|]. by eapply list_elem_of_lookup_2.
    + unfold print.
      match goal with |- context [get_choice_loop _ _ _ _ ?w0] =>
        destruct (IH w0) as [Htalk Hres] end.
      { simpl. rewrite ?Hin in Hlt. simpl in Hlt. lia. }
      split; [|done].
      eapply only_talks_trans; [|exact Htalk]. by repeat split.
  - unfold print.
    match goal with |- context [get_choice_loop _ _ _ _ ?w0] =>
      destruct (IH w0) as [Htalk Hres] end.
    { simpl. rewrite ?Hin in Hlt. simpl in Hlt. lia. }
    split; [|done].
    eapply only_talks_trans; [|exact Htalk]. by repeat split.
Qed.

Lemma get_choice_run prompt choices default w :
  only_talks w (get_choice env prompt choices default w).2 /\
  match (get_choice env prompt choices default w).1 with
  | Ok v => (exists choice, v = JStr choice /\ choice ∈ choices) \/
            (v = default /\ truthy default = true)
  | Raise e => e = EOFError /\ stdin (get_choice env prompt choices default w).2 = []
  end.
Proof.
  unfold get_choice. munfold. cbv beta iota.
  destruct (print_choices_default_run choices default 1
              (set_console (console w ++ [MPlain (String "010" prompt)]) w))
    as (c & Hc).
  rewrite Hc. cbv beta iota.
  match goal with |- context [get_choice_loop _ ?f _ _ ?w0] =>
    destruct (get_choice_loop_run choices default f w0) as [Htalk Hres] end.
  { simpl. lia. }
  split; [|done]. eapply only_talks_trans; [|exact Htalk]. by repeat split.
Qed.

(** X3. Whatever is typed, [get_choice] returns one of the choices
    listed or the default it was given, changes nothing but the keyboard
    and the console, and raises only [EOFError], when the input has run
    out. *)
Theorem get_choice_returns_choice_or_default prompt choices default w :
  let run := get_choice env prompt choices default w in
  only_talks w run.2 /\
  (forall v, run.1 = Ok v ->
     (exists choice, v = JStr choice /\ choice ∈ choices) \/
     (v = default /\ truthy default = true)) /\
  (forall e, run.1 = Raise e -> e = EOFError /\ stdin run.2 = []).
Proof.
  intros run. subst run.
  destruct (get_choice_run prompt choices default w) as [Htalk Hres].
  split; [done|].
  destruct (get_choice env prompt choices default w).1; split; intros ? [= <-]; done.
Qed.

End Prompts.

Section Selections.

Context (env : Env).

Lemma pick_listed choices choice_nums : forall selected l,
  pick choices choice_nums selected = inl l ->
  Forall (fun choice => choice ∈ choices) selected ->
  Forall (fun choice => choice ∈ choices) l.
Proof.
  induction choice_nums as [|num rest IH]; intros selected l; simpl.
  - by intros [= <-].
  - destruct (_ && _); [|done].
    destruct (choices !! Z.to_nat (num - 1)) as [choice|] eqn:Hc; [|done].
    intros Hpick Hsel. apply (IH _ _ Hpick).
    apply Forall_app. split; [done|]. apply Forall_singleton.
    by eapply list_elem_of_lookup_2.
Qed.

Lemma pick_out_of_range choices choice_nums : forall selected,
  Exists (fun num => ~ (1 <= num <= Z.of_nat (length choices))%Z) choice_nums ->
  exists num, pick choices choice_nums selected = inr num.
Proof.
  induction choice_nums as [|num rest IH]; intros selected Hex; simpl.
  - by apply Exists_nil in Hex.
  - destruct ((1 <=? num)%Z && (num <=? Z.of_nat (length choices))%Z) eqn:Hrange;
      [|by eexists].
    destruct (choices !! Z.to_nat (num - 1)); [|by eexists].
    apply Exists_cons in Hex as [Hbad|Hex]; [|by apply IH].
    apply andb_true_iff in Hrange as [H1 H2]. apply Z.leb_le in H1, H2. lia.
Qed.

Lemma choice_loop_run choices fuel : forall w,
  (length (stdin w) < fuel)%nat ->
  only_talks w (choice_loop env fuel choices w).2 /\
  match (choice_loop env fuel choices w).1 with
  | Ok selected => Forall (fun choice => choice ∈ choices) selected
  | Raise e => e = EOFError
  end.
Proof.
  induction fuel as [|fuel IH]; intros w Hlt; [lia|].
  cbn [choice_loop]. unfold mbind, M_bind, input at 1 2.
  destruct (stdin w) as [|line rest] eqn:Hin.
  { split; [apply only_talks_refl|done]. }
  destruct (negb (truthy (JStr (strip line)))).
  { split; [apply only_talks_stdin|]. simpl. constructor. }
  destruct (parse_numbers env (split_on "," (strip line))) as [nums|].
  - destruct (pick choices nums []) as [selected|num] eqn:Hpick.
    + split; [apply only_talks_stdin|]. simpl.
      by apply (pick_listed _ _ _ _ Hpick).
    + unfold print, mret, M_ret. simpl. split; [by repeat split|constructor].
  - unfold print.
    match goal with |- context [choice_loop _ _ _ ?w0] =>
      destruct (IH w0) as [Htalk Hres] end.
    { simpl. rewrite ?Hin in Hlt. simpl in Hlt. lia. }
    split; [|done].
    eapply only_talks_trans; [|exact Htalk]. by repeat split.
Qed.

(** X4. Whatever is typed, [get_multiple_choice] returns only entries of
    the list it offered, changes nothing but the keyboard and the console,
    and raises only [EOFError]. *)
Theorem get_multiple_choice_selects_listed prompt choices w :
  let run := get_multiple_choice env prompt choices w in
  only_talks w run.2 /\
  (forall selected, run.1 = Ok selected ->
     Forall (fun choice => choice ∈ choices) selected) /\
  (forall e, run.1 = Raise e -> e = EOFError).
Proof.
  intros run. subst run. unfold get_multiple_choice. munfold. cbv beta iota.
  match goal with |- context [print_choices 1 choices ?w0] =>
    destruct (print_choices_run choices 1 w0) as (c & Hc) end.
  rewrite Hc. cbv beta iota.
  match goal with |- context [choice_loop _ ?f _ ?w0] =>
    destruct (choice_loop_run choices f w0) as [Htalk Hres] end.
  { simpl. lia. }
  split; [eapply only_talks_trans; [|exact Htalk]; by repeat split|].
  match goal with |- context [(choice_loop ?a ?b ?c ?d).1] =>
    destruct (choice_loop a b c d).1 end; split; intros ? [= <-]; done.
Qed.

(** A line that parses and has a number out of range: the selection is
    empty and one line has been read. *)
Lemma get_multiple_choice_out_of_range prompt choices w line rest choice_nums :
  stdin w = line :: rest ->
  strip line <> "" ->
  parse_numbers env (split_on "," (strip line)) = Some choice_nums ->
  Exists (fun num => ~ (1 <= num <= Z.of_nat (length choices))%Z) choice_nums ->
  exists w',
    get_multiple_choice env prompt choices w = (Ok [], w') /\
    stdin w' = rest /\ only_talks w w'.
Proof.
  intros Hin Hline Hparse Hbad.
  destruct (pick_out_of_range choices choice_nums [] Hbad) as [num Hpick].
  unfold get_multiple_choice. munfold.
  set (w1 := set_console _ (set_console _ w)).
  destruct (print_choices_run choices 1 w1) as (c & ->).
  simpl. erewrite bind_run by (apply input_run; simpl; exact Hin).
  destruct (String.eqb_spec (strip line) ""); [done|]. simpl.
  rewrite Hparse, Hpick. munfold. eexists. split; [reflexivity|]. by repeat split.
Qed.

(** X5. One number out of range cancels the whole selection: the numbers
    within range typed with it are dropped, the user is not asked again,
    and the selection returned is empty. *)
Theorem out_of_range_number_cancels_selection prompt choices w line rest choice_nums :
  stdin w = line :: rest ->
  strip line <> "" ->
  parse_numbers env (split_on "," (strip line)) = Some choice_nums ->
  Exists (fun num => ~ (1 <= num <= Z.of_nat (length choices))%Z) choice_nums ->
  exists w',
    get_multiple_choice env prompt choices w = (Ok [], w') /\
    stdin w' = rest /\ only_talks w w'.
Proof. apply get_multiple_choice_out_of_range. Qed.

End Selections.

(** ** What a flow can run *)

Lemma only_spawns_bind {A B} (P : list string -> Prop) (m : M A) (f : A -> M B) :
  only_spawns P m -> (forall a, only_spawns P (f a)) -> only_spawns P (m ≫= f).
Proof.
  intros Hm Hf w. unfold mbind, M_bind.
  destruct (Hm w) as (new1 & H1 & F1).
  destruct (m w) as [[a|e] w1]; simpl in *.
  - destruct (Hf a w1) as (new2 & H2 & F2).
    exists (new1 ++ new2). split; [by rewrite H2, H1, app_assoc|].
    by apply Forall_app.
  - by exists new1.
Qed.

Lemma spawns_nothing_only {A} (P : list string -> Prop) (m : M A) :
  spawns_nothing m -> only_spawns P m.
Proof. intros H w. exists []. by rewrite app_nil_r, H. Qed.

Lemma spawns_nothing_bind {A B} (m : M A) (f : A -> M B) :
  spawns_nothing m -> (forall a, spawns_nothing (f a)) -> spawns_nothing (m ≫= f).
Proof.
  intros Hm Hf w. rewrite bind_spawned; [apply Hm|]. intros a w0. apply Hf.
Qed.

Lemma spawns_nothing_ret {A} (a : A) : spawns_nothing (mret a).
Proof. by intros w. Qed.

Lemma spawns_nothing_raise {A} e : spawns_nothing (@raise A e).
Proof. by intros w. Qed.

Lemma spawns_nothing_lift {A} (r : result A) : spawns_nothing (lift r).
Proof. by intros w. Qed.

Lemma spawns_nothing_print m : spawns_nothing (print m).
Proof. by intros w. Qed.

Lemma spawns_nothing_input : spawns_nothing input.
Proof. intros w. apply input_spawned. Qed.

Lemma spawns_nothing_get_config : spawns_nothing get_config.
Proof. by intros w. Qed.

Lemma spawns_nothing_config_set key value : spawns_nothing (config_set key value).
Proof. by intros w. Qed.

Lemma spawns_nothing_save_config can_write : spawns_nothing (save_config can_write).
Proof. intros w. unfold save_config. by destruct can_write. Qed.

Lemma spawns_nothing_add_to_history env cmd descr :
  spawns_nothing (add_to_history env cmd descr).
Proof. intros w. apply add_to_history_spawned. Qed.

Lemma spawns_nothing_get_input prompt default : spawns_nothing (get_input prompt default).
Proof.
  intros w. unfold get_input.
  destruct (truthy default); (rewrite bind_spawned; [apply input_spawned|done]).
Qed.

Lemma spawns_nothing_confirm message default : spawns_nothing (confirm message default).
Proof. intros w. unfold confirm. rewrite bind_spawned; [apply input_spawned|done]. Qed.

Lemma spawns_nothing_get_choice env prompt choices default :
  spawns_nothing (get_choice env prompt choices default).
Proof.
  intros w. by destruct (get_choice_run env prompt choices default w)
    as [(_ & _ & _ & _ & ? & _) _].
Qed.

Lemma only_spawns_run_git env (P : list string -> Prop) cmd capture_output show_output :
  (forall args, argv cmd = Some args -> P args) ->
  only_spawns P (run_git_command env cmd capture_output show_output).
Proof.
  intros HP w. unfold run_git_command.
  destruct (argv cmd) as [args|]; [|by exists []; rewrite app_nil_r].
  exists [args]. split; [|by apply Forall_singleton, HP].
  destruct (git env _ _) as [code out err|e]; [|done]. by destruct (code =? 0)%Z.
Qed.

Lemma only_spawns_get_remotes env (P : list string -> Prop) :
  P ["git"; "remote"] -> only_spawns P (get_remotes env).
Proof.
  intros HP. unfold get_remotes. apply only_spawns_bind.
  - apply only_spawns_run_git. by intros args [= <-].
  - intros out. apply spawns_nothing_only.
    destruct (truthy out); [|apply spawns_nothing_ret].
    destruct out; first [apply spawns_nothing_raise | apply spawns_nothing_ret].
Qed.

Create HintDb spawn.
#[local] Hint Resolve spawns_nothing_ret spawns_nothing_raise spawns_nothing_lift
  spawns_nothing_print spawns_nothing_input spawns_nothing_get_config
  spawns_nothing_config_set spawns_nothing_save_config spawns_nothing_add_to_history
  spawns_nothing_get_input spawns_nothing_confirm spawns_nothing_get_choice : spawn.

(** Takes a flow apart, step by step, down to the commands it runs. *)
Ltac spawn_steps :=
  repeat match goal with
    | |- only_spawns _ (_ ≫= _) => apply only_spawns_bind; [|intros ?]
    | |- only_spawns _ (if ?b then _ else _) => destruct b
    | |- only_spawns _ _ =>
        apply spawns_nothing_only;
        unfold print_success, print_error, print_info, print_working;
        solve [auto with spawn]
    end.

Section Guards.

Context (env : Env).

(** X6. Whatever is typed and however git answers, the only process
    [interactive_create_branch] runs is [git checkout -b name] with a name
    that [validate_branch_name] accepts. *)
Theorem create_branch_runs_only_valid_names :
  only_spawns
    (fun args => exists name,
       args = ["git"; "checkout"; "-b"; name] /\ validate_branch_name name = true)
    (interactive_create_branch env).
Proof.
  unfold interactive_create_branch.
  apply only_spawns_bind; [spawn_steps|]. intros branch_name.
  destruct (negb (truthy branch_name)); [spawn_steps|].
  destruct branch_name as [| | |name| |]; try solve [spawn_steps].
  destruct (validate_branch_name name) eqn:Hvalid; simpl; [|spawn_steps].
  spawn_steps.
  apply only_spawns_run_git. intros args [= <-]. by exists name.
Qed.

(** X7. Whatever is typed and however git answers,
    [interactive_rename_branch] runs only the two queries
    [git branch --show-current] and [git branch], and [git branch -m old new]
    with a new name that [validate_branch_name] accepts. *)
Theorem rename_branch_runs_only_valid_names :
  only_spawns
    (fun args =>
       args = ["git"; "branch"; "--show-current"] \/ args = ["git"; "branch"] \/
       exists old new,
         args = ["git"; "branch"; "-m"; old; new] /\ validate_branch_name new = true)
    (interactive_rename_branch env).
Proof.
  unfold interactive_rename_branch.
  apply only_spawns_bind.
  { apply only_spawns_run_git. intros args [= <-]. by left. }
  intros current_branch. apply only_spawns_bind; [spawn_steps|].
  intros rename_current. apply only_spawns_bind.
  { destruct rename_current; [spawn_steps|].
    apply only_spawns_bind.
    - apply only_spawns_run_git. intros args [= <-]. right. by left.
    - intros out. destruct out; spawn_steps. }
  intros branch_to_rename. apply only_spawns_bind; [spawn_steps|].
  intros new_name.
  destruct (negb (truthy new_name)); [spawn_steps|].
  destruct new_name as [| | |name| |]; try solve [spawn_steps].
  destruct (validate_branch_name name) eqn:Hvalid; simpl; [|spawn_steps].
  spawn_steps.
  apply only_spawns_run_git. intros args Hargs. right. right.
  destruct branch_to_rename as [| | |old| |]; try done.
  injection Hargs as <-. by exists old, name.
Qed.

(** X8. Whatever is typed and however git answers,
    [interactive_add_remote] runs only [git remote add name url] with a URL
    that [validate_url] accepts, and after it the query [git remote]. *)
Theorem add_remote_runs_only_valid_urls can_write :
  only_spawns
    (fun args =>
       args = ["git"; "remote"] \/
       exists name url,
         args = ["git"; "remote"; "add"; name; url] /\ validate_url url = true)
    (interactive_add_remote env can_write).
Proof.
  unfold interactive_add_remote.
  apply only_spawns_bind; [spawn_steps|]. intros name.
  destruct (negb (truthy name)); [spawn_steps|].
  apply only_spawns_bind; [spawn_steps|]. intros url.
  destruct (negb (truthy url)); [spawn_steps|].
  destruct url as [| | |url_text| |]; try solve [spawn_steps].
  destruct (validate_url url_text) eqn:Hvalid; simpl; [|spawn_steps].
  apply only_spawns_bind; [spawn_steps|]. intros _.
  apply only_spawns_bind.
  { apply only_spawns_run_git. intros args Hargs. right.
    destruct name as [| | |name_text| |]; try done.
    injection Hargs as <-. by exists name_text, url_text. }
  intros added. destruct (negb (truthy added)); [spawn_steps|].
  apply only_spawns_bind; [spawn_steps|]. intros _.
  apply only_spawns_bind; [spawn_steps|]. intros _.
  apply only_spawns_bind; [apply only_spawns_get_remotes; by left|].
  intros remotes. spawn_steps.
Qed.

End Guards.

(** ** The push flows, from the first question on *)

Lemma input_then_return_only_talks w :
  only_talks w ((input;; mret tt) w).2.
Proof.
  unfold mbind, M_bind, input, mret, M_ret. destruct (stdin w); by repeat split.
Qed.

Section PushFlows.

Context (env : Env).

(** [interactive_push_multiple] up to the selection: git lists at least
    two remotes and the user types a branch. *)
Lemma push_multiple_asks order w remotes stdout1 stderr1 code2 stdout2 stderr2
    line1 more :
  git env (length (spawned w)) ["git"; "remote"] = Exited 0 stdout1 stderr1 ->
  split_on "010" (strip stdout1) = remotes ->
  (1 < length remotes)%nat ->
  git env (S (length (spawned w))) ["git"; "branch"; "--show-current"]
    = Exited code2 stdout2 stderr2 ->
  is_Some (dict_lookup (JStr "default_branch") (config w)) ->
  stdin w = line1 :: more ->
  strip line1 <> "" ->
  exists w3,
    interactive_push_multiple env order w =
      (get_multiple_choice env "Select remotes to push to:" remotes
       ≫= push_selection env order (JStr (strip line1))) w3 /\
    spawned w3 = spawned w ++ [["git"; "remote"]; ["git"; "branch"; "--show-current"]] /\
    config w3 = config w /\ history w3 = history w /\
    history_file w3 = history_file w /\ saves w3 = saves w /\
    pools w3 = pools w /\ stdin w3 = more.
Proof.
  intros Hgit1 Hremotes Hlen Hgit2 [dflt Hdflt] Hin Hline1.
  assert (strip stdout1 <> "") as Hout.
  { intros Heq. rewrite Heq in Hremotes. subst remotes. simpl in Hlen. lia. }
  unfold interactive_push_multiple.
  erewrite bind_run by exact (get_remotes_run env w stdout1 stderr1 Hgit1 Hout).
  rewrite Hremotes.
  destruct remotes as [|r1 [|r2 remotes']]; [simpl in Hlen; lia..|].
  cbn [is_empty length Nat.eqb].
  set (remotes := r1 :: r2 :: remotes') in *.
  set (w1 := set_spawned _ w).
  destruct (run_git_command_exits env
              [JStr "git"; JStr "branch"; JStr "--show-current"]
              ["git"; "branch"; "--show-current"] true true w1 code2 stdout2 stderr2
              eq_refl) as (current_branch & w2 & Hrun2 & Hs2 & Hp2 & Hsp2).
  { subst w1. simpl. rewrite length_app. simpl. by rewrite Nat.add_1_r. }
  erewrite bind_run by exact Hrun2.
  destruct Hs2 as (Hcfg2 & Hh2 & Hf2 & Hsv2 & Hin2).
  subst w1. simpl in Hcfg2, Hh2, Hf2, Hsv2, Hin2, Hsp2, Hp2.
  erewrite bind_run by reflexivity.
  assert (exists default,
            (if truthy current_branch then mret current_branch
             else lift (dict_index "default_branch" (config w2))) w2 = (Ok default, w2))
    as (default & Hdefault).
  { destruct (truthy current_branch); [by eexists|].
    exists dflt. unfold lift, dict_index. by rewrite Hcfg2, Hdflt. }
  erewrite bind_run by exact Hdefault.
  erewrite bind_run by (apply get_input_typed; [by rewrite Hin2|done]).
  exists (set_stdin more w2). split; [reflexivity|]. simpl.
  rewrite Hsp2, <- app_assoc. by repeat split.
Qed.

(** X9. A selection with a number out of range is dropped as a whole, and
    with it the dispatch: nothing is pushed, nothing is added to the
    history, and the user is sent back without a second question. *)
Theorem push_multiple_cancelled_by_bad_number order w remotes stdout1 stderr1
    code2 stdout2 stderr2 line1 line2 rest choice_nums :
  git env (length (spawned w)) ["git"; "remote"] = Exited 0 stdout1 stderr1 ->
  split_on "010" (strip stdout1) = remotes ->
  (1 < length remotes)%nat ->
  git env (S (length (spawned w))) ["git"; "branch"; "--show-current"]
    = Exited code2 stdout2 stderr2 ->
  is_Some (dict_lookup (JStr "default_branch") (config w)) ->
  stdin w = line1 :: line2 :: rest ->
  strip line1 <> "" ->
  strip line2 <> "" ->
  parse_numbers env (split_on "," (strip line2)) = Some choice_nums ->
  Exists (fun num => ~ (1 <= num <= Z.of_nat (length remotes))%Z) choice_nums ->
  let w' := (interactive_push_multiple env order w).2 in
  spawned w' = spawned w ++ [["git"; "remote"]; ["git"; "branch"; "--show-current"]] /\
  history w' = history w /\ history_file w' = history_file w /\ pools w' = pools w.
Proof.
  intros Hgit1 Hremotes Hlen Hgit2 Hdflt Hin Hline1 Hline2 Hparse Hbad.
  destruct (push_multiple_asks order w remotes stdout1 stderr1 code2 stdout2 stderr2
              line1 (line2 :: rest)) as (w3 & -> & Hsp & Hcfg & Hh & Hf & Hsv & Hp & Hin3);
    try done.
  destruct (get_multiple_choice_out_of_range env "Select remotes to push to:"
              remotes w3 line2 rest choice_nums Hin3 Hline2 Hparse Hbad)
    as (w4 & Hrun & _ & (Hcfg4 & Hh4 & Hf4 & Hsv4 & Hsp4 & Hp4)).
  simpl. erewrite bind_run by exact Hrun.
  unfold push_selection. cbn [is_empty]. unfold print_info.
  erewrite bind_run by reflexivity.
  destruct (input_then_return_only_talks
              (set_console (console w4 ++ [MInfo "No remotes selected."]) w4))
    as (_ & Hh5 & Hf5 & _ & Hsp5 & Hp5).
  simpl in *. rewrite Hsp5, Hh5, Hf5, Hp5. repeat split; congruence.
Qed.

(** The dispatch of a selection that is not empty, up to the entry in the
    history. *)
Lemma push_selection_run order branch selected w :
  selected <> [] ->
  order ≡ₚ seq 0 (length selected) ->
  truthy (dict_get "parallel_push" (JBool true) (config w))
    && (1 <? length selected)%nat = true \/
  first_raise (outcomes env (length (spawned w)) branch selected) = None ->
  exists w5,
    push_selection env order branch selected w =
      (add_to_history env "push"
         [Lit "Pushed "; Fmt branch; Lit " to ";
          Fmt (JInt (Z.of_nat (length selected))); Lit " remotes"];;
       input;; mret tt) w5 /\
    same_session w w5 /\
    spawned w5 = spawned w ++ push_cmds branch selected.
Proof.
  intros Hsel Hperm Hmode. unfold push_selection.
  destruct selected as [|s1 selected']; [done|]. cbn [is_empty].
  set (selected := s1 :: selected') in *.
  erewrite bind_run by reflexivity.
  set (use_parallel := py_and _ _).
  assert (exists w4,
            (if truthy use_parallel
             then print_info "Using parallel push for faster operation"
             else mret tt) w = (Ok tt, w4) /\
            same_session w w4 /\ spawned w4 = spawned w /\ pools w4 = pools w)
    as (w4 & Hinfo & Hs4 & Hsp4 & Hp4).
  { destruct (truthy use_parallel); eexists; (split; [reflexivity|]); by repeat split. }
  erewrite bind_run by exact Hinfo.
  assert (truthy use_parallel =
          truthy (dict_get "parallel_push" (JBool true) (config w))
          && (1 <? length selected)%nat) as Huse.
  { subst use_parallel. by rewrite truthy_py_and. }
  assert (config w4 = config w) as Hcfg4 by apply Hs4.
  unfold mbind at 1, M_bind at 1.
  rewrite push_to_remotes_run, Huse, Hcfg4.
  set (cond := truthy (dict_get "parallel_push" (JBool true) (config w))
               && (1 <? length selected)%nat) in *.
  destruct cond eqn:Hcond.
  - apply andb_true_iff in Hcond as [-> ->]. cbn [andb].
    destruct (push_parallel_run env selected branch order w4 Hsel)
      as (w5 & -> & Hs5 & _ & Hsp5).
    exists w5. split; [done|]. split; [by eapply same_session_trans|].
    by rewrite Hsp5, Hsp4.
  - cbn [andb]. destruct Hmode as [?|Hnone]; [done|].
    destruct (push_sequential_run env selected branch w4)
      as (w5 & Hrun5 & Hs5 & _ & Hsp5).
    rewrite Hsp4 in Hrun5, Hsp5. rewrite Hrun5, Hnone.
    exists w5. split; [done|]. split; [by eapply same_session_trans|].
    by rewrite (Hsp5 Hnone).
Qed.

(** X10. [interactive_push_multiple] records the push in the history
    whether or not the pushes succeeded: once the dispatch has produced its
    summary the entry is appended, also when every remote refused. *)
Theorem push_multiple_recorded_whatever_the_outcome order w remotes stdout1 stderr1
    code2 stdout2 stderr2 line1 line2 rest choice_nums selected (n : Z) :
  git env (length (spawned w)) ["git"; "remote"] = Exited 0 stdout1 stderr1 ->
  split_on "010" (strip stdout1) = remotes ->
  (1 < length remotes)%nat ->
  git env (S (length (spawned w))) ["git"; "branch"; "--show-current"]
    = Exited code2 stdout2 stderr2 ->
  is_Some (dict_lookup (JStr "default_branch") (config w)) ->
  stdin w = line1 :: line2 :: rest ->
  strip line1 <> "" ->
  strip line2 <> "" ->
  parse_numbers env (split_on "," (strip line2)) = Some choice_nums ->
  pick remotes choice_nums [] = inl selected ->
  selected <> [] ->
  order ≡ₚ seq 0 (length selected) ->
  truthy (dict_get "parallel_push" (JBool true) (config w))
    && (1 <? length selected)%nat = true \/
  first_raise (outcomes env (2 + length (spawned w)) (JStr (strip line1)) selected)
    = None ->
  dict_get "max_history" (JInt 20) (config w) = JInt n ->
  (0 < n)%Z ->
  history (interactive_push_multiple env order w).2 =
    last_n (Z.to_nat n)
      (history w ++
       [{| command := "push";
           description := [Lit "Pushed "; Fmt (JStr (strip line1)); Lit " to ";
                           Fmt (JInt (Z.of_nat (length selected))); Lit " remotes"];
           timestamp := time_at env (saves w) |}]).
Proof.
  intros Hgit1 Hremotes Hlen Hgit2 Hdflt Hin Hline1 Hline2 Hparse Hpick Hsel Hperm
    Hmode Hmax Hn.
  destruct (push_multiple_asks order w remotes stdout1 stderr1 code2 stdout2 stderr2
              line1 (line2 :: rest)) as (w3 & -> & Hsp & Hcfg & Hh & Hf & Hsv & Hp & Hin3);
    try done.
  destruct (get_multiple_choice_typed env "Select remotes to push to:" remotes
              w3 line2 rest choice_nums selected Hin3 Hline2 Hparse Hpick) as (c & Hchoice).
  erewrite bind_run by exact Hchoice.
  set (w4 := set_console c (set_stdin rest w3)).
  destruct (push_selection_run order (JStr (strip line1)) selected w4 Hsel Hperm)
    as (w5 & -> & (Hcfg5 & Hh5 & Hf5 & Hsv5 & Hin5) & Hsp5).
  { subst w4. simpl. rewrite Hcfg, Hsp, length_app. simpl.
    by rewrite Nat.add_comm. }
  subst w4. simpl in *.
  destruct (add_to_history_positive env "push"
              [Lit "Pushed "; Fmt (JStr (strip line1)); Lit " to ";
               Fmt (JInt (Z.of_nat (length selected))); Lit " remotes"] w5 n)
    as (w6 & Hrun6 & Hh6 & _); [congruence|done|].
  erewrite bind_run by exact Hrun6.
  destruct (input_then_return_only_talks w6) as (_ & -> & _).
  rewrite Hh6. unfold last_n. by rewrite Hh5, Hh, Hsv5, Hsv.
Qed.

End PushFlows.

Lemma only_spawns_bind_reached {A B} (P : list string -> Prop) (m : M A) (f : A -> M B) :
  only_spawns P m ->
  (forall a, (exists w w', m w = (Ok a, w')) -> only_spawns P (f a)) ->
  only_spawns P (m ≫= f).
Proof.
  intros Hm Hf w. unfold mbind, M_bind.
  destruct (Hm w) as (new1 & H1 & F1).
  destruct (m w) as [[a|e] w1] eqn:Hrun; simpl in *.
  - destruct (Hf a (ex_intro _ w (ex_intro _ w1 Hrun)) w1) as (new2 & H2 & F2).
    exists (new1 ++ new2). split; [by rewrite H2, H1, app_assoc|].
    by apply Forall_app.
  - by exists new1.
Qed.

Lemma existsb_eqb_elem (s : string) (l : list string) :
  existsb (String.eqb s) l = true -> s ∈ l.
Proof.
  intros H. apply existsb_exists in H as (x & Hin & Heq).
  apply String.eqb_eq in Heq as ->. by apply list_elem_of_In.
Qed.

Section SinglePush.

Context (env : Env).

Lemma get_remotes_listed w stdout stderr :
  git env (length (spawned w)) ["git"; "remote"] = Exited 0 stdout stderr ->
  get_remotes env w =
    (Ok (if (strip stdout =? "")%string then [] else split_on "010" (strip stdout)),
     set_spawned (spawned w ++ [["git"; "remote"]]) w).
Proof.
  intros Hgit. unfold get_remotes, run_git_command. munfold. simpl.
  rewrite Hgit. simpl. by destruct (strip stdout =? "")%string.
Qed.

(** X11. [interactive_push_single] pushes only to a remote that git has
    listed: the default is replaced by the first remote of the list when it
    is not in it, and [get_choice] returns the default or an entry of the
    list. Besides the listing, the flow runs [git branch --show-current]
    and nothing else. *)
Theorem push_single_targets_listed_remote w stdout1 stderr1 :
  git env (length (spawned w)) ["git"; "remote"] = Exited 0 stdout1 stderr1 ->
  exists new,
    spawned (interactive_push_single env w).2 = spawned w ++ ["git"; "remote"] :: new /\
    Forall (fun args =>
              args = ["git"; "branch"; "--show-current"] \/
              exists remote branch,
                args = ["git"; "push"; remote; branch] /\
                remote ∈ split_on "010" (strip stdout1)) new.
Proof.
  intros Hgit. unfold interactive_push_single.
  erewrite bind_run by exact (get_remotes_listed w stdout1 stderr1 Hgit).
  destruct (strip stdout1 =? "")%string.
  { exists []. by split. }
  set (remotes := split_on "010" (strip stdout1)).
  set (P := fun args : list string =>
              args = ["git"; "branch"; "--show-current"] \/
              exists remote branch,
                args = ["git"; "push"; remote; branch] /\ remote ∈ remotes).
  match goal with |- context [spawned (?K ?w1).2] =>
    assert (only_spawns P K) as HK; [|destruct (HK w1) as (new & Hnew & HP)] end.
  2: { exists new. split; [|done]. rewrite Hnew. simpl. by rewrite <- app_assoc. }
  destruct (is_empty remotes) eqn:Hempty; [spawn_steps|].
  apply only_spawns_bind.
  { apply only_spawns_run_git. intros args [= <-]. by left. }
  intros current_branch. apply only_spawns_bind.
  { unfold branch_default. spawn_steps. }
  intros default. apply only_spawns_bind; [spawn_steps|].
  intros branch. apply only_spawns_bind; [spawn_steps|].
  intros config. cbv zeta.
  set (default_remote := if negb (in_list _ remotes) then _ else _).
  assert (exists d, default_remote = JStr d /\ d ∈ remotes) as (d & Hd & Hdin).
  { subst default_remote.
    destruct (in_list (dict_get "default_remote" (JStr "origin") config) remotes) eqn:Hin;
      simpl.
    - destruct (dict_get _ _ _) as [| | |d| |]; try done.
      exists d. split; [done|]. by apply existsb_eqb_elem.
    - destruct remotes as [|first others]; [done|].
      exists first. split; [done|]. apply list_elem_of_here. }
  apply only_spawns_bind_reached; [spawn_steps|].
  intros remote (w0 & w0' & Hchoice).
  assert (exists r, remote = JStr r /\ r ∈ remotes) as (r & -> & Hr).
  { destruct (get_choice_run env "Select remote to push to:" remotes default_remote w0)
      as [_ Hres].
    rewrite Hchoice in Hres. simpl in Hres.
    destruct Hres as [(c & -> & Hc)|[-> _]]; eauto. }
  apply only_spawns_bind; [spawn_steps|]. intros _.
  apply only_spawns_bind.
  { apply only_spawns_run_git. intros args Hargs. right.
    destruct branch as [| | |b| |]; try done.
    injection Hargs as <-. by exists r, b. }
  intros pushed_. spawn_steps.
Qed.

End SinglePush.

Section TypedFlows.

Context (env : Env).

(** A command whose process exits: its value and its trace. *)
Lemma run_git_command_value cmd args capture_output show_output w code stdout stderr :
  argv cmd = Some args ->
  git env (length (spawned w)) args = Exited code stdout stderr ->
  exists w',
    run_git_command env cmd capture_output show_output w =
      (Ok (if (code =? 0)%Z
           then (if capture_output then JStr (strip stdout) else JBool true)
           else JBool false), w') /\
    same_session w w' /\ pools w' = pools w /\ spawned w' = spawned w ++ [args].
Proof.
  intros Hargs Hgit. unfold run_git_command. rewrite Hargs, Hgit.
  destruct (code =? 0)%Z; eexists; (split; [reflexivity|]); by repeat split.
Qed.

Lemma get_choice_typed prompt choices default w line rest (num : Z) choice :
  stdin w = line :: rest ->
  strip line <> "" ->
  int_of_str env (strip line) = Some num ->
  (1 <= num <= Z.of_nat (length choices))%Z ->
  choices !! Z.to_nat (num - 1) = Some choice ->
  exists c,
    get_choice env prompt choices default w =
      (Ok (JStr choice), set_console c (set_stdin rest w)).
Proof.
  intros Hin Hline Hint Hrange Hchoice. unfold get_choice. munfold.
  destruct (print_choices_default_run choices default 1
              (set_console (console w ++ [MPlain (String "010" prompt)]) w))
    as (c & ->).
  simpl. erewrite bind_run by (apply input_run; simpl; exact Hin).
  destruct (String.eqb_spec (strip line) ""); [done|]. simpl.
  rewrite Hint.
  destruct (Z.leb_spec 1 num); [|lia].
  destruct (Z.leb_spec num (Z.of_nat (length choices))); [|lia]. simpl.
  rewrite Hchoice. by exists c.
Qed.

Lemma get_choice_entered prompt choices default w line rest :
  stdin w = line :: rest ->
  strip line = "" ->
  truthy default = true ->
  exists c,
    get_choice env prompt choices default w =
      (Ok default, set_console c (set_stdin rest w)).
Proof.
  intros Hin Hline Hdef. unfold get_choice. munfold.
  destruct (print_choices_default_run choices default 1
              (set_console (console w ++ [MPlain (String "010" prompt)]) w))
    as (c & ->).
  simpl. erewrite bind_run by (apply input_run; simpl; exact Hin).
  rewrite Hline, Hdef. simpl. by exists c.
Qed.

Lemma confirm_no_default message w line rest :
  stdin w = line :: rest ->
  confirm message false w = (Ok (says_yes line), set_stdin rest w).
Proof.
  intros Hin. unfold confirm, says_yes.
  erewrite bind_run by (apply input_run; exact Hin).
  unfold mret, M_ret. do 2 f_equal. simpl.
  by destruct (String.eqb_spec (lower (strip line)) "") as [->|].
Qed.

(** The three push flows up to the question about the branch, for a
    continuation [k] that is given the branch. *)
Lemma branch_asked {A} (k : JVal -> M A) w code stdout stderr line more :
  git env (length (spawned w)) ["git"; "branch"; "--show-current"]
    = Exited code stdout stderr ->
  is_Some (dict_lookup (JStr "default_branch") (config w)) ->
  stdin w = line :: more ->
  strip line <> "" ->
  exists w3,
    (current_branch ← run_git_command env
                        [JStr "git"; JStr "branch"; JStr "--show-current"] true true;
     default ← branch_default current_branch;
     branch ← get_input "Branch to push" default;
     k branch) w = k (JStr (strip line)) w3 /\
    spawned w3 = spawned w ++ [["git"; "branch"; "--show-current"]] /\
    config w3 = config w /\ history w3 = history w /\
    history_file w3 = history_file w /\ saves w3 = saves w /\
    pools w3 = pools w /\ stdin w3 = more.
Proof.
  intros Hgit [dflt Hdflt] Hin Hline.
  destruct (run_git_command_exits env
              [JStr "git"; JStr "branch"; JStr "--show-current"]
              ["git"; "branch"; "--show-current"] true true w code stdout stderr
              eq_refl Hgit) as (current_branch & w2 & Hrun2 & Hs2 & Hp2 & Hsp2).
  erewrite bind_run by exact Hrun2.
  destruct Hs2 as (Hcfg2 & Hh2 & Hf2 & Hsv2 & Hin2).
  assert (exists default, branch_default current_branch w2 = (Ok default, w2))
    as (default & Hdefault).
  { unfold branch_default. erewrite bind_run by reflexivity.
    destruct (truthy current_branch); [by eexists|].
    exists dflt. unfold lift, dict_index. by rewrite Hcfg2, Hdflt. }
  erewrite bind_run by exact Hdefault.
  erewrite bind_run by (apply get_input_typed; [by rewrite Hin2|done]).
  exists (set_stdin more w2). split; [reflexivity|]. simpl. by repeat split.
Qed.

(** X12. [interactive_push_single] adds its entry to the history exactly
    when the push exits with status 0; a refused push leaves the history as
    it was. Either way one push is run, to the remote chosen. *)
Theorem push_single_recorded_on_success w stdout1 stderr1 code2 stdout2 stderr2
    line1 line2 rest (num : Z) remote code stdout stderr (n : Z) :
  let remotes := split_on "010" (strip stdout1) in
  let branch := strip line1 in
  git env (length (spawned w)) ["git"; "remote"] = Exited 0 stdout1 stderr1 ->
  strip stdout1 <> "" ->
  git env (S (length (spawned w))) ["git"; "branch"; "--show-current"]
    = Exited code2 stdout2 stderr2 ->
  is_Some (dict_lookup (JStr "default_branch") (config w)) ->
  stdin w = line1 :: line2 :: rest ->
  strip line1 <> "" ->
  strip line2 <> "" ->
  int_of_str env (strip line2) = Some num ->
  remotes !! Z.to_nat (num - 1) = Some remote ->
  (1 <= num)%Z ->
  git env (2 + length (spawned w)) ["git"; "push"; remote; branch]
    = Exited code stdout stderr ->
  dict_get "max_history" (JInt 20) (config w) = JInt n ->
  (0 < n)%Z ->
  let w' := (interactive_push_single env w).2 in
  spawned w' =
    spawned w ++ [["git"; "remote"]; ["git"; "branch"; "--show-current"];
                  ["git"; "push"; remote; branch]] /\
  history w' =
    if (code =? 0)%Z then
      last_n (Z.to_nat n)
        (history w ++
         [{| command := "push";
             description := [Lit "Pushed "; Fmt (JStr branch); Lit " to ";
                             Fmt (JStr remote)];
             timestamp := time_at env (saves w) |}])
    else history w.
Proof.
  intros remotes branch Hgit1 Hout Hgit2 Hdflt Hin Hline1 Hline2 Hint Hremote Hnum
    Hpush Hmax Hn.
  unfold interactive_push_single.
  erewrite bind_run by exact (get_remotes_run env w stdout1 stderr1 Hgit1 Hout).
  fold remotes.
  assert (is_empty remotes = false) as ->.
  { destruct remotes; [done|done]. }
  set (w1 := set_spawned _ w).
  match goal with |- context [(_ ≫= fun cb => _ ≫= fun d => _ ≫= ?k) w1] =>
    destruct (branch_asked k w1 code2 stdout2 stderr2 line1 (line2 :: rest))
      as (w3 & Hrun & Hsp3 & Hcfg3 & Hh3 & Hf3 & Hsv3 & Hp3 & Hin3) end;
    try done.
  { subst w1. simpl. rewrite length_app. simpl. by rewrite Nat.add_1_r. }
  rewrite Hrun. clear Hrun. cbv beta.
  erewrite bind_run by reflexivity. cbv zeta.
  set (default_remote := if negb (in_list _ remotes) then _ else _).
  assert (1 <= num <= Z.of_nat (length remotes))%Z as Hrange.
  { apply lookup_lt_Some in Hremote. lia. }
  destruct (get_choice_typed "Select remote to push to:" remotes default_remote
              w3 line2 rest num remote Hin3 Hline2 Hint Hrange Hremote) as (c & Hchoice).
  erewrite bind_run by exact Hchoice.
  unfold print_working. erewrite bind_run by reflexivity.
  set (w4 := set_console _ (set_console c (set_stdin rest w3))).
  assert (spawned w4 = spawned w ++ [["git"; "remote"]; ["git"; "branch"; "--show-current"]])
    as Hsp4.
  { subst w4 w1. simpl. rewrite Hsp3. simpl. by rewrite <- app_assoc. }
  destruct (run_git_command_value [JStr "git"; JStr "push"; JStr remote; JStr branch]
              ["git"; "push"; remote; branch] false true w4 code stdout stderr eq_refl)
    as (w5 & Hrun5 & (Hcfg5 & Hh5 & _ & Hsv5 & _) & _ & Hsp5).
  { rewrite Hsp4, length_app. simpl. by rewrite Nat.add_comm. }
  erewrite bind_run by exact Hrun5.
  assert (spawned w5 = spawned w ++ [["git"; "remote"]; ["git"; "branch"; "--show-current"];
                                     ["git"; "push"; remote; branch]]) as Hsp5'.
  { by rewrite Hsp5, Hsp4, <- app_assoc. }
  assert (config w5 = config w /\ history w5 = history w /\ saves w5 = saves w)
    as (Hcfg5' & Hh5' & Hsv5').
  { subst w4 w1. simpl in *. repeat split; congruence. }
  destruct (code =? 0)%Z; cbn [truthy].
  - unfold print_success.
    set (w6 := set_console (console w5 ++ [MSuccess ("Successfully pushed to " +:+
                 py_str (JStr remote) +:+ "/" +:+ py_str (JStr branch) +:+ "!")]) w5).
    destruct (add_to_history_positive env "push"
                [Lit "Pushed "; Fmt (JStr branch); Lit " to "; Fmt (JStr remote)] w6 n)
      as (w7 & Hrun7 & Hh7 & _); [by subst w6; simpl; rewrite Hcfg5'|done|].
    pose proof (add_to_history_spawned env "push"
                  [Lit "Pushed "; Fmt (JStr branch); Lit " to "; Fmt (JStr remote)] w6)
      as Hsp7.
    rewrite Hrun7 in Hsp7. simpl in Hsp7.
    erewrite bind_run by (erewrite bind_run by reflexivity; exact Hrun7).
    destruct (input_then_return_only_talks w7) as (_ & Hh8 & _ & _ & Hsp8 & _).
    rewrite Hh8, Hsp8, Hh7, Hsp7. subst w6. simpl.
    by rewrite Hh5', Hsv5', Hsp5'.
  - erewrite bind_run by reflexivity.
    destruct (input_then_return_only_talks w5) as (_ & Hh8 & _ & _ & Hsp8 & _).
    by rewrite Hh8, Hsp8, Hh5', Hsp5'.
Qed.

End TypedFlows.

(** [str.split(sep)] always returns at least one field. *)
Lemma split_on_nonempty sep s : split_on sep s <> [].
Proof.
  destruct s as [|c s']; [done|]. simpl.
  destruct (Ascii.eqb c sep); [done|]. by destruct (split_on sep s').
Qed.

Section PushAll.

Context (env : Env).

(** The dispatch to a list that is not empty, followed by [k]. *)
Lemma dispatch_then (k : M unit) order branch remotes w :
  remotes <> [] ->
  order ≡ₚ seq 0 (length remotes) ->
  truthy (dict_get "parallel_push" (JBool true) (config w))
    && (1 <? length remotes)%nat = true \/
  first_raise (outcomes env (length (spawned w)) branch remotes) = None ->
  exists w5,
    (config ← get_config;
     (if truthy (py_and (dict_get "parallel_push" (JBool true) config)
                        (JBool (1 <? length remotes)%nat))
      then print_info "Using parallel push for faster operation"
      else mret tt);;
     _push_to_remotes env remotes branch
       (py_and (dict_get "parallel_push" (JBool true) config)
               (JBool (1 <? length remotes)%nat)) order;;
     k) w = k w5 /\
    same_session w w5 /\
    spawned w5 = spawned w ++ push_cmds branch remotes.
Proof.
  intros Hne Hperm Hmode.
  erewrite bind_run by reflexivity.
  set (use_parallel := py_and _ _).
  assert (exists w4,
            (if truthy use_parallel
             then print_info "Using parallel push for faster operation"
             else mret tt) w = (Ok tt, w4) /\
            same_session w w4 /\ spawned w4 = spawned w /\ pools w4 = pools w)
    as (w4 & Hinfo & Hs4 & Hsp4 & Hp4).
  { destruct (truthy use_parallel); eexists; (split; [reflexivity|]); by repeat split. }
  erewrite bind_run by exact Hinfo.
  assert (truthy use_parallel =
          truthy (dict_get "parallel_push" (JBool true) (config w))
          && (1 <? length remotes)%nat) as Huse.
  { subst use_parallel. by rewrite truthy_py_and. }
  assert (config w4 = config w) as Hcfg4 by apply Hs4.
  unfold mbind at 1, M_bind at 1.
  rewrite push_to_remotes_run, Huse, Hcfg4.
  set (cond := truthy (dict_get "parallel_push" (JBool true) (config w))
               && (1 <? length remotes)%nat) in *.
  destruct cond eqn:Hcond.
  - apply andb_true_iff in Hcond as [-> ->]. cbn [andb].
    destruct (push_parallel_run env remotes branch order w4 Hne)
      as (w5 & -> & Hs5 & _ & Hsp5).
    exists w5. split; [done|]. split; [by eapply same_session_trans|].
    by rewrite Hsp5, Hsp4.
  - cbn [andb]. destruct Hmode as [?|Hnone]; [done|].
    destruct (push_sequential_run env remotes branch w4)
      as (w5 & Hrun5 & Hs5 & _ & Hsp5).
    rewrite Hsp4 in Hrun5, Hsp5. rewrite Hrun5, Hnone.
    exists w5. split; [done|]. split; [by eapply same_session_trans|].
    by rewrite (Hsp5 Hnone).
Qed.

(** X13. [interactive_push_all] pushes nothing unless the reply to its
    question is [y] or [yes] (in any case, white space around it ignored):
    an empty reply or any other text ends the flow after the two queries,
    with the history as it was. *)
Theorem push_all_needs_confirmation order w stdout1 stderr1 code2 stdout2 stderr2
    line1 line2 rest :
  git env (length (spawned w)) ["git"; "remote"] = Exited 0 stdout1 stderr1 ->
  strip stdout1 <> "" ->
  git env (S (length (spawned w))) ["git"; "branch"; "--show-current"]
    = Exited code2 stdout2 stderr2 ->
  is_Some (dict_lookup (JStr "default_branch") (config w)) ->
  stdin w = line1 :: line2 :: rest ->
  strip line1 <> "" ->
  says_yes line2 = false ->
  let w' := (interactive_push_all env order w).2 in
  spawned w' = spawned w ++ [["git"; "remote"]; ["git"; "branch"; "--show-current"]] /\
  history w' = history w /\ pools w' = pools w.
Proof.
  intros Hgit1 Hout Hgit2 Hdflt Hin Hline1 Hno.
  unfold interactive_push_all.
  erewrite bind_run by exact (get_remotes_run env w stdout1 stderr1 Hgit1 Hout).
  set (remotes := split_on "010" (strip stdout1)).
  assert (remotes <> []) as Hne by apply split_on_nonempty.
  assert (is_empty remotes = false) as -> by (by destruct remotes).
  set (w1 := set_spawned _ w).
  match goal with |- context [(_ ≫= fun cb => _ ≫= fun d => _ ≫= ?k) w1] =>
    destruct (branch_asked env k w1 code2 stdout2 stderr2 line1 (line2 :: rest))
      as (w3 & Hrun & Hsp3 & Hcfg3 & Hh3 & Hf3 & Hsv3 & Hp3 & Hin3) end;
    try done.
  { subst w1. simpl. rewrite length_app. simpl. by rewrite Nat.add_1_r. }
  rewrite Hrun. clear Hrun. cbv beta.
  erewrite bind_run by (apply confirm_no_default; exact Hin3).
  rewrite Hno. simpl. rewrite Hsp3, Hh3, Hp3. subst w1. simpl.
  by rewrite <- app_assoc.
Qed.

(** X14. Once confirmed, [interactive_push_all] pushes the branch typed
    to every remote git listed, once each and in the order of the listing
    (the pushes running in parallel, or one after the other without
    raising). *)
Theorem push_all_pushes_every_remote order w stdout1 stderr1 code2 stdout2 stderr2
    line1 line2 rest :
  let remotes := split_on "010" (strip stdout1) in
  git env (length (spawned w)) ["git"; "remote"] = Exited 0 stdout1 stderr1 ->
  strip stdout1 <> "" ->
  git env (S (length (spawned w))) ["git"; "branch"; "--show-current"]
    = Exited code2 stdout2 stderr2 ->
  is_Some (dict_lookup (JStr "default_branch") (config w)) ->
  stdin w = line1 :: line2 :: rest ->
  strip line1 <> "" ->
  says_yes line2 = true ->
  order ≡ₚ seq 0 (length remotes) ->
  truthy (dict_get "parallel_push" (JBool true) (config w))
    && (1 <? length remotes)%nat = true \/
  first_raise (outcomes env (2 + length (spawned w)) (JStr (strip line1)) remotes)
    = None ->
  spawned (interactive_push_all env order w).2 =
    spawned w ++ [["git"; "remote"]; ["git"; "branch"; "--show-current"]]
      ++ ((fun remote => ["git"; "push"; remote; strip line1]) <$> remotes).
Proof.
  intros remotes Hgit1 Hout Hgit2 Hdflt Hin Hline1 Hyes Hperm Hmode.
  unfold interactive_push_all.
  erewrite bind_run by exact (get_remotes_run env w stdout1 stderr1 Hgit1 Hout).
  fold remotes.
  assert (remotes <> []) as Hne by apply split_on_nonempty.
  assert (is_empty remotes = false) as -> by (by destruct remotes).
  set (w1 := set_spawned _ w).
  match goal with |- context [(_ ≫= fun cb => _ ≫= fun d => _ ≫= ?k) w1] =>
    destruct (branch_asked env k w1 code2 stdout2 stderr2 line1 (line2 :: rest))
      as (w3 & Hrun & Hsp3 & Hcfg3 & Hh3 & Hf3 & Hsv3 & Hp3 & Hin3) end;
    try done.
  { subst w1. simpl. rewrite length_app. simpl. by rewrite Nat.add_1_r. }
  rewrite Hrun. clear Hrun. cbv beta.
  erewrite bind_run by (apply confirm_no_default; exact Hin3).
  rewrite Hyes. cbn [negb].
  set (w4 := set_stdin rest w3).
  assert (spawned w4 = spawned w ++ [["git"; "remote"]; ["git"; "branch"; "--show-current"]])
    as Hsp4.
  { subst w4 w1. simpl. rewrite Hsp3. simpl. by rewrite <- app_assoc. }
  match goal with |- context [_push_to_remotes env remotes ?b _ order ≫= fun _ => ?k] =>
    destruct (dispatch_then k order b remotes w4 Hne Hperm) as (w5 & -> & _ & Hsp5) end.
  { subst w4 w1. simpl. rewrite Hcfg3. simpl. rewrite Hsp3. simpl.
    rewrite !length_app. simpl. by rewrite <- Nat.add_assoc, Nat.add_comm. }
  rewrite bind_spawned.
  - rewrite add_to_history_spawned, Hsp5, Hsp4. by rewrite <- app_assoc.
  - intros _ w0. rewrite bind_spawned; [apply input_spawned|done].
Qed.

End PushAll.

(** ** History: the caps that are not a positive number *)

(** X15. When the configuration gives [max_history] a value that is
    neither an integer nor a boolean (a string or a list from the file, or
    null), [add_to_history] raises [TypeError] from the negation in the
    slice: the entry is already in the list in memory, and nothing is
    written. *)
Theorem add_to_history_needs_integer_cap env cmd descr w :
  (forall n, dict_get "max_history" (JInt 20) (config w) <> JInt n) ->
  (forall b, dict_get "max_history" (JInt 20) (config w) <> JBool b) ->
  let entry := {| command := cmd; description := descr;
                  timestamp := time_at env (saves w) |} in
  let run := add_to_history env cmd descr w in
  run.1 = Raise TypeError /\
  history run.2 = history w ++ [entry] /\
  history_file run.2 = history_file w /\ saves run.2 = saves w.
Proof.
  intros Hint Hbool. unfold add_to_history, save_history. simpl.
  destruct (dict_get "max_history" (JInt 20) (config w)) as [|b|n| | |]; try done.
  - by destruct (Hbool b).
  - by destruct (Hint n).
Qed.

(** X16. With a negative cap [-k] the slice is [self.history[k:]]: every
    addition drops the [k] oldest entries of the list, the new entry
    included when the list is shorter, instead of keeping the most
    recent ones. *)
Theorem negative_cap_drops_oldest env cmd descr w (k : Z) :
  dict_get "max_history" (JInt 20) (config w) = JInt (- k) ->
  (0 < k)%Z ->
  let entry := {| command := cmd; description := descr;
                  timestamp := time_at env (saves w) |} in
  exists w', add_to_history env cmd descr w = (Ok tt, w') /\
    history w' = drop (Z.to_nat k) (history w ++ [entry]).
Proof.
  intros Hcfg Hk entry.
  unfold add_to_history, save_history. simpl. rewrite Hcfg. simpl.
  eexists. split; [reflexivity|].
  assert (forall (l : list HistoryEntry), slice_from (- - k) l = drop (Z.to_nat k) l)
    as Hslice.
  { intros l. unfold slice_from. destruct (Z.ltb_spec (- - k) 0); [lia|].
    destruct (Z.le_gt_cases k (Z.of_nat (length l))).
    - f_equal. lia.
    - rewrite !drop_ge; [done|lia|lia]. }
  destruct (writable env (saves w)); simpl; apply Hslice.
Qed.

(** ** Configuration: saving, loading, changing *)

Lemma dict_lookup_absent k d :
  JStr k ∉ d.*1 -> dict_lookup (JStr k) d = None.
Proof.
  induction d as [|[k0 v0] d IH]; [done|]. simpl. intros Hnot.
  apply not_elem_of_cons in Hnot as [Hne Hnot].
  destruct (key_eqb k0 (JStr k)) eqn:E; [|by apply IH].
  by apply key_eqb_str in E.
Qed.

(** The members of the document written, looked up as [json.load] does,
    are the entries of the dictionary. *)
Lemma member_json_of_dict k d :
  Forall (fun kv => exists s, kv.1 = JStr s) d ->
  NoDup d.*1 ->
  member k ((fun kv => (json_key kv.1, kv.2)) <$> d) = dict_lookup (JStr k) d.
Proof.
  induction d as [|[k0 v0] d IH]; [done|].
  intros Hstr Hnodup. apply Forall_cons in Hstr as [[s Hs] Hstr].
  simpl in Hs. subst k0. simpl in Hnodup. apply NoDup_cons in Hnodup as [Hnot Hnodup].
  rewrite fmap_cons. cbn [member json_key fst snd dict_lookup key_eqb].
  rewrite IH by done.
  destruct (String.eqb_spec s k) as [->|Hne].
  - by rewrite dict_lookup_absent.
  - by destruct (dict_lookup (JStr k) d).
Qed.

(** X17. What [save_config] writes, [load_config] reads back: with keys
    that are distinct strings, loading the document saved gives every key
    the value the configuration had, and the default for a key it did not
    have. *)
Theorem saved_config_loads_back w :
  Forall (fun kv => exists s, kv.1 = JStr s) (config w) ->
  NoDup (config w).*1 ->
  exists doc loaded,
    (save_config true w).1 = Ok (Some doc) /\
    load_config (Present (ReadJson doc)) = Ok loaded /\
    forall k, dict_lookup (JStr k) loaded =
              match dict_lookup (JStr k) (config w) with
              | Some v => Some v
              | None => dict_lookup (JStr k) default_config
              end.
Proof.
  intros Hstr Hnodup.
  exists (json_of_dict (config w)), (update_from_members default_config
            ((fun kv => (json_key kv.1, kv.2)) <$> config w)).
  split; [done|]. split; [done|]. intros k.
  by rewrite lookup_update_from_members, member_json_of_dict.
Qed.

(** X18. [toggle_config] on a key the configuration does not have raises
    [KeyError] and changes nothing; on a key it has, the key becomes the
    boolean opposite of the truth value it had, the other keys are as they
    were, and what is saved is the configuration after the change. *)
Theorem toggle_config_flips_or_raises title can_write key w :
  let run := toggle_config title can_write key w in
  match dict_lookup (JStr key) (config w) with
  | None => run = (Raise KeyError, w)
  | Some old =>
      run.1 = Ok (if can_write then Some (json_of_dict (config run.2)) else None) /\
      dict_lookup (JStr key) (config run.2) = Some (JBool (negb (truthy old))) /\
      (forall k, k <> key ->
                 dict_lookup (JStr k) (config run.2) = dict_lookup (JStr k) (config w))
  end.
Proof.
  unfold toggle_config, dict_index, config_set, save_config. munfold. simpl.
  destruct (dict_lookup (JStr key) (config w)) as [old|] eqn:Hold; [|done].
  destruct can_write; simpl; rewrite dict_lookup_set_str, String.eqb_refl; simpl.
  all: split; [done|].
  all: split; [by rewrite dict_lookup_set_str, String.eqb_refl|].
  all: intros k Hk; rewrite dict_lookup_set_str.
  all: by destruct (String.eqb_spec key k).
Qed.

(** X19. [update_config] never stores an empty value: a value that is
    false (the empty string, for one) leaves the configuration as it was
    and saves nothing; any other value is stored under its key, the
    other keys unchanged, and the configuration is saved. *)
Theorem update_config_ignores_empty_value title can_write key value w :
  let run := update_config title can_write key value w in
  if truthy value then
    run.1 = Ok (if can_write then Some (json_of_dict (config run.2)) else None) /\
    dict_lookup (JStr key) (config run.2) = Some value /\
    (forall k, k <> key ->
               dict_lookup (JStr k) (config run.2) = dict_lookup (JStr k) (config w))
  else run = (Ok None, w).
Proof.
  unfold update_config, config_set, save_config. munfold.
  destruct (truthy value); [|done].
  destruct can_write; simpl.
  all: split; [done|].
  all: split; [by rewrite dict_lookup_set_str, String.eqb_refl|].
  all: intros k Hk; rewrite dict_lookup_set_str.
  all: by destruct (String.eqb_spec key k).
Qed.

(** ** Branch status *)

(** X20. Whenever the [git rev-list] process exits, [get_branch_status]
    returns a status and does not raise; the status is other than zero
    ahead and zero behind only when the process exited with status 0 and
    printed exactly two fields that are both integers. *)
Theorem get_branch_status_defaults_to_zero env w code stdout stderr :
  git env (length (spawned w))
    ["git"; "rev-list"; "--left-right"; "--count"; "HEAD...@{upstream}"]
    = Exited code stdout stderr ->
  exists ahead behind,
    (get_branch_status env w).1 = Ok (branch_status ahead behind) /\
    ((ahead, behind) <> (0, 0)%Z ->
     code = 0%Z /\
     exists a b, split_whitespace (strip stdout) = [a; b] /\
                 int_of_str env a = Some ahead /\ int_of_str env b = Some behind).
Proof.
  intros Hgit. unfold get_branch_status. rewrite Hgit.
  destruct (Z.eqb_spec code 0) as [->|Hcode]; [|by exists 0%Z, 0%Z].
  destruct (two_ints env (split_whitespace (strip stdout))) as [[ahead behind]|] eqn:Htwo;
    [|by exists 0%Z, 0%Z].
  exists ahead, behind. split; [done|]. intros _. split; [done|].
  unfold two_ints in Htwo.
  destruct (split_whitespace (strip stdout)) as [|a [|b [|]]]; try done.
  destruct (int_of_str env a) as [x|] eqn:Ha; [|done].
  destruct (int_of_str env b) as [y|] eqn:Hb; [|done].
  injection Htwo as <- <-. by exists a, b.
Qed.

(** ** The sequential dispatch and a push that raises *)

Section SequentialAbort.

Context (env : Env).

Lemma sequential_loop_stops (b : string) before : forall remote after e w sc fl,
  first_raise (outcomes env (length (spawned w)) (JStr b) before) = None ->
  git env (length (spawned w) + length before) ["git"; "push"; remote; b] = Failed e ->
  exists w',
    sequential_loop env (JStr b) (before ++ remote :: after) sc fl w = (Raise e, w') /\
    spawned w' =
      spawned w ++ ((fun r => ["git"; "push"; r; b]) <$> (before ++ [remote])).
Proof.
  induction before as [|r before IH]; intros remote after e w sc fl Hnone Hgit.
  - cbn [app sequential_loop]. unfold print_working. erewrite bind_run by reflexivity.
    destruct (execute_push_run env remote (JStr b) false
                (set_console (console w ++ [MWorking ("Pushing to " +:+ remote +:+ "...")]) w))
      as (w1 & Hrun & _ & _ & Hsp1 & _).
    simpl spawned in Hrun. rewrite Nat.add_0_r in Hgit.
    assert (push_result env (length (spawned w)) remote (JStr b) = Raise e) as Hres.
    { unfold push_result. simpl. by rewrite Hgit. }
    rewrite Hres in Hrun.
    unfold mbind at 1, M_bind at 1. rewrite Hrun. exists w1. split; [done|].
    by rewrite Hsp1.
  - cbn [app sequential_loop]. unfold print_working. erewrite bind_run by reflexivity.
    destruct (execute_push_run env r (JStr b) false
                (set_console (console w ++ [MWorking ("Pushing to " +:+ r +:+ "...")]) w))
      as (w1 & Hrun & _ & _ & Hsp1 & Hadv).
    simpl spawned in Hrun, Hsp1, Hadv. cbn [outcomes first_raise] in Hnone.
    destruct (push_result env (length (spawned w)) r (JStr b)) as [pushed_|e'] eqn:Hres;
      [|done].
    assert (length (spawned w1) = S (length (spawned w))) as Hlen.
    { rewrite Hsp1, length_app. simpl. lia. }
    unfold mbind at 1, M_bind at 1. rewrite Hrun. cbn [result_map].
    destruct pushed_; cbn [truthy].
    + unfold print_success. erewrite bind_run by reflexivity.
      destruct (IH remote after e
                  (set_console (console w1 ++ [MSuccess ("✓ Pushed to " +:+ r)]) w1)
                  (S sc) fl) as (w2 & -> & Hsp2).
      * simpl spawned. by rewrite Hlen.
      * simpl spawned. rewrite Hlen.
        replace (S (length (spawned w)) + length before)%nat
          with (length (spawned w) + length (r :: before))%nat by (simpl; lia).
        exact Hgit.
      * exists w2. split; [done|]. rewrite Hsp2. simpl spawned. rewrite Hsp1.
        simpl. by rewrite <- app_assoc.
    + unfold print_error. erewrite bind_run by reflexivity.
      destruct (IH remote after e
                  (set_console (console w1 ++ [MError ("✗ Failed to push to " +:+ r)]) w1)
                  sc (fl ++ [r])) as (w2 & -> & Hsp2).
      * simpl spawned. by rewrite Hlen.
      * simpl spawned. rewrite Hlen.
        replace (S (length (spawned w)) + length before)%nat
          with (length (spawned w) + length (r :: before))%nat by (simpl; lia).
        exact Hgit.
      * exists w2. split; [done|]. rewrite Hsp2. simpl spawned. rewrite Hsp1.
        simpl. by rewrite <- app_assoc.
Qed.

(** X21. In sequential mode a push whose call raises (git cannot be
    started, say) ends the dispatch there: [_push_sequential] raises the
    same exception, the remotes after that one are not pushed to, and no
    summary is returned. *)
Theorem sequential_push_stops_at_first_raise before remote after (b : string) e w :
  first_raise (outcomes env (length (spawned w)) (JStr b) before) = None ->
  git env (length (spawned w) + length before) ["git"; "push"; remote; b] = Failed e ->
  let run := _push_sequential env (before ++ remote :: after) (JStr b) w in
  run.1 = Raise e /\
  spawned run.2 =
    spawned w ++ ((fun r => ["git"; "push"; r; b]) <$> (before ++ [remote])).
Proof.
  intros Hnone Hgit. unfold _push_sequential.
  destruct (sequential_loop_stops b before remote after e w 0%nat [] Hnone Hgit)
    as (w' & Hrun & Hsp).
  unfold mbind, M_bind. by rewrite Hrun.
Qed.

End SequentialAbort.

(** ** Fetching and adding a remote *)

Section Remotes.

Context (env : Env).

Lemma run_git_command_spawned cmd args capture_output show_output w :
  argv cmd = Some args ->
  spawned (run_git_command env cmd capture_output show_output w).2 = spawned w ++ [args].
Proof.
  intros Hargs. unfold run_git_command. rewrite Hargs.
  destruct (git env _ _) as [code out err|e]; [|done]. by destruct (code =? 0)%Z.
Qed.

(** X22. [interactive_fetch] does not check its default against the
    list: when the user just presses Enter, the fetch goes to the
    configuration's [default_remote], whether or not git listed a remote
    of that name. *)
Theorem fetch_default_is_not_checked w stdout1 stderr1 line rest default :
  git env (length (spawned w)) ["git"; "remote"] = Exited 0 stdout1 stderr1 ->
  strip stdout1 <> "" ->
  dict_get "default_remote" (JStr "origin") (config w) = JStr default ->
  default <> "" ->
  stdin w = line :: rest ->
  strip line = "" ->
  spawned (interactive_fetch env w).2 =
    spawned w ++ [["git"; "remote"]; ["git"; "fetch"; default]].
Proof.
  intros Hgit Hout Hdefault Hne Hin Hline. unfold interactive_fetch.
  erewrite bind_run by exact (get_remotes_run env w stdout1 stderr1 Hgit Hout).
  set (remotes := split_on "010" (strip stdout1)).
  assert (remotes <> []) as Hremotes by apply split_on_nonempty.
  assert (is_empty remotes = false) as -> by (by destruct remotes).
  erewrite bind_run by reflexivity. cbn [config set_spawned]. rewrite Hdefault.
  set (w1 := set_spawned _ w).
  destruct (get_choice_entered env "Select remote to fetch from:" remotes (JStr default)
              w1 line rest Hin Hline) as (c & Hchoice).
  { by destruct default. }
  erewrite bind_run by exact Hchoice.
  unfold print_working. erewrite bind_run by reflexivity.
  rewrite bind_spawned.
  - erewrite run_git_command_spawned by reflexivity. subst w1. simpl.
    by rewrite <- app_assoc.
  - intros fetched w0. rewrite bind_spawned.
    + destruct (truthy fetched); [|done]. unfold print_success.
      erewrite bind_run by reflexivity. by rewrite add_to_history_spawned.
    + intros _ w2. rewrite bind_spawned; [apply input_spawned|done].
Qed.

Lemma validate_url_nonempty url : validate_url url = true -> url <> "".
Proof. by intros H ->. Qed.

(** X23. [interactive_add_remote] makes the remote just added the default
    exactly when git then lists one remote: the configuration's
    [default_remote] becomes the name typed, and is what it was when git
    lists several remotes or none. *)
Theorem first_remote_becomes_default can_write w line1 line2 rest stdout1 stderr1
    stdout2 stderr2 (n : Z) :
  let name := strip line1 in
  let url := strip line2 in
  let remotes := if (strip stdout2 =? "")%string then []
                 else split_on "010" (strip stdout2) in
  stdin w = line1 :: line2 :: rest ->
  name <> "" ->
  validate_url url = true ->
  git env (length (spawned w)) ["git"; "remote"; "add"; name; url]
    = Exited 0 stdout1 stderr1 ->
  git env (S (length (spawned w))) ["git"; "remote"] = Exited 0 stdout2 stderr2 ->
  dict_get "max_history" (JInt 20) (config w) = JInt n ->
  (0 < n)%Z ->
  let w' := (interactive_add_remote env can_write w).2 in
  dict_lookup (JStr "default_remote") (config w') =
    if (length remotes =? 1)%nat then Some (JStr name)
    else dict_lookup (JStr "default_remote") (config w).
Proof.
  intros name url remotes Hin Hname Hurl Hgit1 Hgit2 Hmax Hn.
  unfold interactive_add_remote.
  erewrite bind_run by (apply get_input_typed; [exact Hin|exact Hname]).
  fold name. replace (truthy (JStr name)) with true by (by destruct name).
  cbn [negb].
  assert (get_input "Remote URL" JNull (set_stdin (line2 :: rest) w)
          = (Ok (JStr url), set_stdin rest (set_stdin (line2 :: rest) w))) as Hurl_in.
  { unfold get_input. cbn [truthy]. by erewrite bind_run by (by apply input_run). }
  erewrite bind_run by exact Hurl_in.
  pose proof (validate_url_nonempty url Hurl) as Hurl_ne.
  replace (truthy (JStr url)) with true by (by destruct url).
  cbn [negb]. rewrite Hurl. cbn [negb].
  unfold print_working. erewrite bind_run by reflexivity.
  set (w2 := set_console _ _).
  destruct (run_git_command_value env
              [JStr "git"; JStr "remote"; JStr "add"; JStr name; JStr url]
              ["git"; "remote"; "add"; name; url] false true w2 0 stdout1 stderr1 eq_refl)
    as (w3 & Hrun3 & (Hcfg3 & Hh3 & _ & Hsv3 & _) & _ & Hsp3).
  { by subst w2. }
  erewrite bind_run by exact Hrun3. cbn [Z.eqb truthy negb].
  unfold print_success. erewrite bind_run by reflexivity.
  set (w4 := set_console _ w3).
  destruct (add_to_history_positive env "remote" [Lit "Added remote "; Fmt (JStr name)]
              w4 n) as (w5 & Hrun5 & _ & Hcfg5 & _); [by subst w4 w2; simpl; rewrite Hcfg3|done|].
  erewrite bind_run by exact Hrun5.
  pose proof (add_to_history_spawned env "remote" [Lit "Added remote "; Fmt (JStr name)] w4)
    as Hsp5. rewrite Hrun5 in Hsp5. simpl in Hsp5.
  erewrite bind_run.
  2: { apply get_remotes_listed with (stdout := stdout2) (stderr := stderr2).
       rewrite Hsp5. subst w4. simpl. rewrite Hsp3. subst w2. simpl.
       rewrite length_app. simpl. by rewrite Nat.add_1_r. }
  fold remotes.
  assert (config w5 = config w) as Hcfg.
  { rewrite Hcfg5. subst w4 w2. simpl. by rewrite Hcfg3. }
  destruct (length remotes =? 1)%nat.
  - unfold config_set, save_config, print_info, input. munfold.
    destruct can_write; cbn -[dict_lookup dict_set].
    all: destruct (stdin w5); cbn -[dict_lookup dict_set].
    all: by rewrite dict_lookup_set_str, String.eqb_refl.
  - unfold input. munfold. cbn -[dict_lookup].
    destruct (stdin w5); cbn -[dict_lookup]; by rewrite Hcfg.
Qed.

End Remotes.

(** ** More flows on remotes and branches *)

Section MoreFlows.

Context (env : Env).

Lemma run_git_command_config cmd capture_output show_output w :
  config (run_git_command env cmd capture_output show_output w).2 = config w.
Proof.
  unfold run_git_command. destruct (argv cmd) as [args|]; [|done].
  destruct (git env _ _) as [code out err|e]; [|done]. by destruct (code =? 0)%Z.
Qed.

Lemma get_remotes_config w : config (get_remotes env w).2 = config w.
Proof.
  unfold get_remotes, mbind, M_bind.
  pose proof (run_git_command_config [JStr "git"; JStr "remote"] true true w) as Hcfg.
  destruct (run_git_command env _ true true w) as [[out|e] w1]; [|done].
  simpl in Hcfg. destruct (truthy out); [|done]. by destruct out.
Qed.

Lemma set_default_remote_config can_write w :
  config (interactive_set_default_remote env can_write w).2 = config w \/
  exists v,
    config (interactive_set_default_remote env can_write w).2
      = dict_set (JStr "default_remote") v (config w) /\
    (v = dict_get "default_remote" (JStr "origin") (config w) \/
     exists remotes remote,
       (get_remotes env w).1 = Ok remotes /\ remote ∈ remotes /\ v = JStr remote).
Proof.
  destruct (interactive_set_default_remote env can_write w) as [res w'] eqn:Hrun.
  cbn [snd]. unfold interactive_set_default_remote in Hrun.
  pose proof (get_remotes_config w) as Hcfg1.
  unfold mbind at 1, M_bind at 1 in Hrun.
  destruct (get_remotes env w) as [[remotes|e] w1]; simpl in Hcfg1.
  2: { injection Hrun as <- <-. by left. }
  destruct (is_empty remotes).
  { left. revert Hrun. unfold print_info, input. munfold. simpl.
    destruct (stdin w1); intros [= <- <-]; done. }
  erewrite bind_run in Hrun by reflexivity.
  destruct (get_choice_run env "Select default remote:" remotes
              (dict_get "default_remote" (JStr "origin") (config w1)) w1)
    as [(Hcfg2 & _) Hres].
  unfold mbind at 1, M_bind at 1 in Hrun.
  destruct (get_choice env _ remotes _ w1) as [[remote|e] w2]; simpl in Hcfg2, Hres.
  2: { injection Hrun as <- <-. left. congruence. }
  right. exists remote. split.
  - revert Hrun. unfold config_set, save_config, print_success, input. munfold.
    destruct can_write; cbn -[dict_set].
    all: destruct (stdin w2); cbn -[dict_set]; intros [= <- <-]; cbn -[dict_set].
    all: congruence.
  - destruct Hres as [(r & -> & Hr)|[-> _]]; [right; by exists remotes, r|left].
    by rewrite Hcfg1.
Qed.

(** X24. [interactive_set_default_remote] leaves [default_remote] what
    it was or sets it to a remote git has just listed, and touches no
    other key of the configuration, whatever is typed and however git
    answers. *)
Theorem default_remote_set_to_listed_or_kept can_write w :
  let run := interactive_set_default_remote env can_write w in
  let before := dict_get "default_remote" (JStr "origin") (config w) in
  let after := dict_get "default_remote" (JStr "origin") (config run.2) in
  (after = before \/
   exists remotes remote,
     (get_remotes env w).1 = Ok remotes /\ remote ∈ remotes /\ after = JStr remote) /\
  (forall k, k <> "default_remote" ->
             dict_lookup (JStr k) (config run.2) = dict_lookup (JStr k) (config w)).
Proof.
  intros run before after. subst run before after.
  destruct (set_default_remote_config can_write w) as [->|(v & -> & Hv)];
    [by split; [left|]|].
  assert (dict_get "default_remote" (JStr "origin")
            (dict_set (JStr "default_remote") v (config w)) = v) as ->.
  { unfold dict_get. by rewrite dict_lookup_set_str, String.eqb_refl. }
  split.
  - destruct Hv as [->|(remotes & remote & ? & ? & ->)]; [by left|right; eauto].
  - intros k Hk. rewrite dict_lookup_set_str.
    by destruct (String.eqb_spec "default_remote" k).
Qed.

(** X25. Whatever is typed and however git answers,
    [interactive_change_remote_url] runs only the queries [git remote] and
    [git remote get-url], and [git remote set-url] with a URL that
    [validate_url] accepts. *)
Theorem change_remote_url_runs_only_valid_urls :
  only_spawns
    (fun args =>
       args = ["git"; "remote"] \/
       (exists remote, args = ["git"; "remote"; "get-url"; remote]) \/
       exists remote url,
         args = ["git"; "remote"; "set-url"; remote; url] /\ validate_url url = true)
    (interactive_change_remote_url env).
Proof.
  unfold interactive_change_remote_url.
  apply only_spawns_bind; [apply only_spawns_get_remotes; by left|].
  intros remotes. destruct (is_empty remotes); [spawn_steps|].
  apply only_spawns_bind; [spawn_steps|]. intros remote.
  apply only_spawns_bind.
  { apply only_spawns_run_git. intros args Hargs. right. left.
    destruct remote as [| | |r| |]; try done.
    injection Hargs as <-. by exists r. }
  intros current_url. apply only_spawns_bind; [spawn_steps|]. intros _.
  apply only_spawns_bind; [spawn_steps|]. intros new_url.
  destruct (negb (truthy new_url)); [spawn_steps|].
  destruct new_url as [| | |url_text| |]; try solve [spawn_steps].
  destruct (validate_url url_text) eqn:Hvalid; simpl; [|spawn_steps].
  apply only_spawns_bind.
  { apply only_spawns_run_git. intros args Hargs. right. right.
    destruct remote as [| | |r| |]; try done.
    injection Hargs as <-. by exists r, url_text. }
  intros changed. spawn_steps.
Qed.

Lemma elem_of_without_current b branches current_branch :
  b ∈ without_current branches current_branch ->
  b ∈ branches /\ ((1 < length branches)%nat -> differs b current_branch = true).
Proof.
  unfold without_current. destruct (Nat.ltb_spec 1 (length branches)) as [Hlen|Hlen].
  - intros Hb. apply list_elem_of_filter in Hb as [Hd Hb]. by split.
  - intros Hb. split; [done|lia].
Qed.

(** The two queries that open [interactive_switch_branch] and
    [interactive_delete_branch], and the branches offered after them. *)
Lemma branches_offered {A} (k : list string -> M A) (none : M A) w stdout1 stderr1
    code2 stdout2 stderr2 :
  git env (length (spawned w)) ["git"; "branch"] = Exited 0 stdout1 stderr1 ->
  git env (S (length (spawned w))) ["git"; "branch"; "--show-current"]
    = Exited code2 stdout2 stderr2 ->
  strip stdout1 <> "" ->
  exists w2 current_branch,
    (branches_output ← run_git_command env [JStr "git"; JStr "branch"] true true;
     if negb (truthy branches_output) then none
     else
       match branches_output with
       | JStr output =>
           current_branch ← run_git_command env
                              [JStr "git"; JStr "branch"; JStr "--show-current"] true true;
           k (without_current (branch_names output) current_branch)
       | _ => raise AttributeError
       end) w
    = k (without_current (branch_names (strip stdout1)) current_branch) w2 /\
    current_branch = (if (code2 =? 0)%Z then JStr (strip stdout2) else JBool false) /\
    spawned w2 = spawned w ++ [["git"; "branch"]; ["git"; "branch"; "--show-current"]].
Proof.
  intros Hgit1 Hgit2 Hout.
  destruct (run_git_command_value env [JStr "git"; JStr "branch"] ["git"; "branch"]
              true true w 0 stdout1 stderr1 eq_refl Hgit1)
    as (w1 & Hrun1 & _ & _ & Hsp1).
  erewrite bind_run by exact Hrun1. cbn [Z.eqb].
  replace (truthy (JStr (strip stdout1))) with true by (by destruct (strip stdout1)).
  cbn [negb].
  destruct (run_git_command_value env
              [JStr "git"; JStr "branch"; JStr "--show-current"]
              ["git"; "branch"; "--show-current"] true true w1 code2 stdout2 stderr2
              eq_refl) as (w2 & Hrun2 & _ & _ & Hsp2).
  { rewrite Hsp1, length_app. simpl. by rewrite Nat.add_1_r. }
  erewrite bind_run by exact Hrun2.
  eexists w2, _. split; [reflexivity|]. split; [done|].
  by rewrite Hsp2, Hsp1, <- app_assoc.
Qed.

Lemma differs_current b code stdout :
  differs b (if (code =? 0)%Z then JStr (strip stdout) else JBool false) = true ->
  code = 0%Z -> b <> strip stdout.
Proof.
  intros Hd ->. simpl in Hd. intros ->. by rewrite String.eqb_refl in Hd.
Qed.

(** X26. [interactive_delete_branch] asks git to delete only a branch
    that [git branch] listed and, when more than one branch is listed, never
    the branch that [git branch --show-current] names. Besides the two
    queries it runs nothing but that one [git branch -d]. *)
Theorem delete_branch_spares_current w stdout1 stderr1 code2 stdout2 stderr2 :
  let listed := branch_names (strip stdout1) in
  git env (length (spawned w)) ["git"; "branch"] = Exited 0 stdout1 stderr1 ->
  git env (S (length (spawned w))) ["git"; "branch"; "--show-current"]
    = Exited code2 stdout2 stderr2 ->
  strip stdout1 <> "" ->
  exists new,
    spawned (interactive_delete_branch env w).2 =
      spawned w ++ [["git"; "branch"]; ["git"; "branch"; "--show-current"]] ++ new /\
    Forall (fun args =>
              exists b, args = ["git"; "branch"; "-d"; b] /\ b ∈ listed /\
                        ((1 < length listed)%nat -> code2 = 0%Z -> b <> strip stdout2))
           new.
Proof.
  intros listed Hgit1 Hgit2 Hout. unfold interactive_delete_branch.
  set (P := fun args : list string =>
              exists b, args = ["git"; "branch"; "-d"; b] /\ b ∈ listed /\
                        ((1 < length listed)%nat -> code2 = 0%Z -> b <> strip stdout2)).
  set (k := fun branches : list string =>
     if is_empty branches then
       print_info "No branches available to delete";; input;; mret tt
     else
       branch ← get_choice env "Select branch to delete:" branches JNull;
       confirmed ← confirm [Lit "Are you sure you want to delete branch '"; Fmt branch;
                            Lit "'?"] false;
       (if (confirmed : bool) then
          deleted ← run_git_command env
                      [JStr "git"; JStr "branch"; JStr "-d"; branch] false true;
          if truthy deleted then
            print_success ("Deleted branch: " +:+ py_str branch);;
            add_to_history env "branch" [Lit "Deleted branch "; Fmt branch]
          else mret tt
        else mret tt);;
       input;;
       mret tt).
  destruct (branches_offered k (mret tt) w stdout1 stderr1 code2 stdout2 stderr2
              Hgit1 Hgit2 Hout) as (w2 & current_branch & Hrun & Hcur & Hsp2).
  subst k. cbv beta in Hrun. rewrite Hrun. clear Hrun.
  fold listed.
  match goal with |- context [spawned (?K w2).2] =>
    assert (only_spawns P K) as HK; [|destruct (HK w2) as (new & Hnew & HP)] end.
  2: { exists new. split; [|done]. by rewrite Hnew, Hsp2, <- app_assoc. }
  destruct (is_empty (without_current listed current_branch)); [spawn_steps|].
  apply only_spawns_bind_reached; [spawn_steps|].
  intros branch (w0 & w0' & Hchoice).
  assert (exists b, branch = JStr b /\ b ∈ without_current listed current_branch)
    as (b & -> & Hb).
  { destruct (get_choice_run env "Select branch to delete:"
                (without_current listed current_branch) JNull w0) as [_ Hres].
    rewrite Hchoice in Hres. simpl in Hres.
    destruct Hres as [(c & -> & Hc)|[_ ?]]; [eauto|done]. }
  apply elem_of_without_current in Hb as [Hlisted Hdiffers].
  apply only_spawns_bind; [spawn_steps|]. intros confirmed.
  apply only_spawns_bind; [|intros _; spawn_steps].
  destruct confirmed; [|spawn_steps].
  apply only_spawns_bind; [|intros deleted; spawn_steps].
  apply only_spawns_run_git. intros args [= <-]. exists b.
  split; [done|]. split; [done|]. intros Hlen Hcode.
  subst current_branch. by eapply differs_current; [apply Hdiffers|].
Qed.

(** X27. [interactive_switch_branch] checks out only a branch that
    [git branch] listed and, when more than one is listed, not the one that
    [git branch --show-current] names. *)
Theorem switch_branch_targets_other_branch w stdout1 stderr1 code2 stdout2 stderr2 :
  let listed := branch_names (strip stdout1) in
  git env (length (spawned w)) ["git"; "branch"] = Exited 0 stdout1 stderr1 ->
  git env (S (length (spawned w))) ["git"; "branch"; "--show-current"]
    = Exited code2 stdout2 stderr2 ->
  strip stdout1 <> "" ->
  exists new,
    spawned (interactive_switch_branch env w).2 =
      spawned w ++ [["git"; "branch"]; ["git"; "branch"; "--show-current"]] ++ new /\
    Forall (fun args =>
              exists b, args = ["git"; "checkout"; b] /\ b ∈ listed /\
                        ((1 < length listed)%nat -> code2 = 0%Z -> b <> strip stdout2))
           new.
Proof.
  intros listed Hgit1 Hgit2 Hout. unfold interactive_switch_branch.
  set (P := fun args : list string =>
              exists b, args = ["git"; "checkout"; b] /\ b ∈ listed /\
                        ((1 < length listed)%nat -> code2 = 0%Z -> b <> strip stdout2)).
  set (k := fun branches : list string =>
     if is_empty branches then
       print_info "No other branches available";; input;; mret tt
     else
       branch ← get_choice env "Select branch to switch to:" branches JNull;
       print_working ("Switching to branch: " +:+ py_str branch);;
       switched ← run_git_command env [JStr "git"; JStr "checkout"; branch] false true;
       (if truthy switched then
          print_success ("Switched to branch: " +:+ py_str branch);;
          add_to_history env "branch" [Lit "Switched to "; Fmt branch]
        else mret tt);;
       input;;
       mret tt).
  destruct (branches_offered k (mret tt) w stdout1 stderr1 code2 stdout2 stderr2
              Hgit1 Hgit2 Hout) as (w2 & current_branch & Hrun & Hcur & Hsp2).
  subst k. cbv beta in Hrun. rewrite Hrun. clear Hrun.
  fold listed.
  match goal with |- context [spawned (?K w2).2] =>
    assert (only_spawns P K) as HK; [|destruct (HK w2) as (new & Hnew & HP)] end.
  2: { exists new. split; [|done]. by rewrite Hnew, Hsp2, <- app_assoc. }
  destruct (is_empty (without_current listed current_branch)); [spawn_steps|].
  apply only_spawns_bind_reached; [spawn_steps|].
  intros branch (w0 & w0' & Hchoice).
  assert (exists b, branch = JStr b /\ b ∈ without_current listed current_branch)
    as (b & -> & Hb).
  { destruct (get_choice_run env "Select branch to switch to:"
                (without_current listed current_branch) JNull w0) as [_ Hres].
    rewrite Hchoice in Hres. simpl in Hres.
    destruct Hres as [(c & -> & Hc)|[_ ?]]; [eauto|done]. }
  apply elem_of_without_current in Hb as [Hlisted Hdiffers].
  apply only_spawns_bind; [spawn_steps|]. intros _.
  apply only_spawns_bind; [|intros switched; spawn_steps].
  apply only_spawns_run_git. intros args [= <-]. exists b.
  split; [done|]. split; [done|]. intros Hlen Hcode.
  subst current_branch. by eapply differs_current; [apply Hdiffers|].
Qed.

(** X28. When the remote removed was the default, [interactive_remove_remote]
    makes the first remote git still lists the new default; when git
    lists none, the default becomes [origin], whatever the name of the
    remote just removed. *)
Theorem removing_the_default_remote_moves_the_default can_write w stdout1 stderr1
    line1 line2 rest (num : Z) remote stdout2 stderr2 stdout3 stderr3 :
  let remotes := split_on "010" (strip stdout1) in
  let remaining := if (strip stdout3 =? "")%string then []
                   else split_on "010" (strip stdout3) in
  git env (length (spawned w)) ["git"; "remote"] = Exited 0 stdout1 stderr1 ->
  strip stdout1 <> "" ->
  stdin w = line1 :: line2 :: rest ->
  strip line1 <> "" ->
  int_of_str env (strip line1) = Some num ->
  (1 <= num)%Z ->
  remotes !! Z.to_nat (num - 1) = Some remote ->
  says_yes line2 = true ->
  git env (1 + length (spawned w)) ["git"; "remote"; "remove"; remote]
    = Exited 0 stdout2 stderr2 ->
  dict_lookup (JStr "default_remote") (config w) = Some (JStr remote) ->
  git env (2 + length (spawned w)) ["git"; "remote"] = Exited 0 stdout3 stderr3 ->
  let w' := (interactive_remove_remote env can_write w).2 in
  dict_lookup (JStr "default_remote") (config w') =
    Some (JStr (match remaining with first :: _ => first | [] => "origin" end)) /\
  spawned w' = spawned w ++ [["git"; "remote"]; ["git"; "remote"; "remove"; remote];
                             ["git"; "remote"]].
Proof.
  intros remotes remaining Hgit1 Hout Hin Hline1 Hint Hnum Hremote Hyes Hgit2 Hdefault
    Hgit3.
  cut (exists res wf,
         interactive_remove_remote env can_write w = (res, wf) /\
         dict_lookup (JStr "default_remote") (config wf) =
           Some (JStr (match remaining with first :: _ => first | [] => "origin" end)) /\
         spawned wf = spawned w ++ [["git"; "remote"]; ["git"; "remote"; "remove"; remote];
                                    ["git"; "remote"]]).
  { intros (res & wf & Hrun & Hdef & Hsp). by rewrite Hrun. }
  unfold interactive_remove_remote.
  erewrite bind_run by exact (get_remotes_run env w stdout1 stderr1 Hgit1 Hout).
  fold remotes.
  assert (remotes <> []) as Hne by apply split_on_nonempty.
  assert (is_empty remotes = false) as -> by (by destruct remotes).
  set (w1 := set_spawned _ w).
  assert (1 <= num <= Z.of_nat (length remotes))%Z as Hrange.
  { apply lookup_lt_Some in Hremote. lia. }
  destruct (get_choice_typed env "Select remote to remove:" remotes JNull
              w1 line1 (line2 :: rest) num remote Hin Hline1 Hint Hrange Hremote)
    as (c & Hchoice).
  erewrite bind_run by exact Hchoice.
  erewrite bind_run by (by apply confirm_no_default).
  rewrite Hyes. cbv iota.
  set (w2 := set_stdin rest _).
  destruct (run_git_command_value env
              [JStr "git"; JStr "remote"; JStr "remove"; JStr remote]
              ["git"; "remote"; "remove"; remote] false true w2 0 stdout2 stderr2 eq_refl)
    as (w3 & Hrun3 & (Hcfg3 & _) & _ & Hsp3).
  { subst w2 w1. simpl. rewrite length_app. simpl. by rewrite Nat.add_comm. }
  assert (spawned w3 = spawned w ++ [["git"; "remote"]; ["git"; "remote"; "remove"; remote]])
    as Hsp3'.
  { rewrite Hsp3. subst w2 w1. simpl. by rewrite <- app_assoc. }
  assert (config w3 = config w) as Hcfg3' by (by rewrite Hcfg3).
  unfold mbind at 1, M_bind at 1. unfold mbind at 1, M_bind at 1.
  rewrite Hrun3. cbn [Z.eqb truthy].
  unfold print_success. erewrite bind_run by reflexivity.
  erewrite bind_run by reflexivity.
  cbn [config set_console]. rewrite Hcfg3', Hdefault, String.eqb_refl.
  erewrite bind_run.
  2: { apply get_remotes_listed with (stdout := stdout3) (stderr := stderr3).
       cbn [spawned set_console]. rewrite Hsp3', length_app. simpl.
       by rewrite Nat.add_comm. }
  fold remaining.
  unfold config_set, save_config, print_info, input. munfold.
  destruct remaining as [|first others]; destruct can_write;
    cbn -[dict_lookup dict_set].
  all: destruct (stdin w3); cbn -[dict_lookup dict_set].
  all: eexists _, _; (split; [reflexivity|]); cbn -[dict_lookup dict_set].
  all: by rewrite dict_lookup_set_str, String.eqb_refl, Hsp3', <- app_assoc.
Qed.

End MoreFlows.

(** ** The keys of a loaded configuration *)

Lemma dict_set_keeps k k' v d :
  is_Some (dict_lookup k d) -> is_Some (dict_lookup k (dict_set k' v d)).
Proof.
  induction d as [|[k0 v0] d IH]; [by intros [? ?]|].
  cbn [dict_lookup dict_set].
  destruct (key_eqb k0 k') eqn:E'; cbn [dict_lookup];
    destruct (key_eqb k0 k); done.
Qed.

Lemma update_from_members_keeps k members : forall d,
  is_Some (dict_lookup k d) -> is_Some (dict_lookup k (update_from_members d members)).
Proof.
  unfold update_from_members.
  induction members as [|[k' v] rest IH]; intros d Hd; [done|].
  cbn [foldl]. apply IH. by apply dict_set_keeps.
Qed.

Lemma update_from_pairs_keeps k elems : forall d d',
  update_from_pairs d elems = Ok d' ->
  is_Some (dict_lookup k d) -> is_Some (dict_lookup k d').
Proof.
  induction elems as [|elem rest IH]; intros d d' Hrun Hd.
  - by injection Hrun as <-.
  - cbn [update_from_pairs] in Hrun.
    destruct (as_pair elem) as [[k' v]|e]; [|done].
    destruct (hashable k'); [|done].
    eapply IH; [exact Hrun|]. by apply dict_set_keeps.
Qed.

(** X29. Whatever the configuration file holds, a configuration that
    [load_config] produces has every key of the defaults: the file can
    change their values and add keys, it cannot remove one. So
    [self.config['show_emoji']], which every message reads, and
    [self.config['default_branch']] are there after a load. *)
Theorem load_config_keeps_default_keys config_file cfg k :
  load_config config_file = Ok cfg ->
  is_Some (dict_lookup k default_config) ->
  is_Some (dict_lookup k cfg).
Proof.
  intros Hload Hk. unfold load_config in Hload.
  destruct config_file as [|[| | |doc]]; try by injection Hload as <-.
  - done.
  - unfold dict_update in Hload. destruct doc as [| | |s|items|members]; try done.
    + by eapply update_from_pairs_keeps.
    + by eapply update_from_pairs_keeps.
    + injection Hload as <-. by apply update_from_members_keeps.
Qed.

(** ** Scenarios for the further properties *)

(** The selection [1,3] among two remotes. *)
Lemma out_of_range_number_cancels_selection_witness :
  let w := start default_config ["1,3"; ""] in
  exists w',
    get_multiple_choice (scripted []) "Select remotes to push to:"
      ["origin"; "upstream"] w = (Ok [], w') /\
    stdin w' = [""] /\ only_talks w w'.
Proof.
  intros w.
  apply (out_of_range_number_cancels_selection (scripted [])
           "Select remotes to push to:" ["origin"; "upstream"] w "1,3" [""] [1; 3]%Z).
  - reflexivity.
  - discriminate.
  - reflexivity.
  - apply Exists_cons_tl, Exists_cons_hd. simpl. lia.
Defined.

Lemma push_multiple_cancelled_by_bad_number_witness :
  let w := start default_config ["main"; "1,3"; ""] in
  let w' := (interactive_push_multiple (push_session []) [0; 1] w).2 in
  spawned w' = spawned w ++ [["git"; "remote"]; ["git"; "branch"; "--show-current"]] /\
  history w' = history w /\ history_file w' = history_file w /\ pools w' = pools w.
Proof.
  intros w.
  apply (push_multiple_cancelled_by_bad_number (push_session []) [0; 1] w
           ["origin"; "upstream"] two_remotes "" 0 "main" ""
           "main" "1,3" [""] [1; 3]%Z).
  - reflexivity.
  - reflexivity.
  - simpl. lia.
  - reflexivity.
  - by eexists.
  - reflexivity.
  - discriminate.
  - discriminate.
  - reflexivity.
  - apply Exists_cons_tl, Exists_cons_hd. simpl. lia.
Defined.

(** Both remotes refuse the push; the entry is in the history all the
    same. *)
Lemma push_multiple_recorded_whatever_the_outcome_witness :
  let env := push_session [Exited 1 "" "denied"; Exited 1 "" "denied"] in
  let w := start default_config ["main"; "1,2"; ""] in
  history (interactive_push_multiple env [0; 1] w).2 =
    last_n (Z.to_nat 20)
      (history w ++
       [{| command := "push";
           description := [Lit "Pushed "; Fmt (JStr (strip "main")); Lit " to ";
                           Fmt (JInt (Z.of_nat (length ["origin"; "upstream"])));
                           Lit " remotes"];
           timestamp := time_at env (saves w) |}]).
Proof.
  intros env w.
  apply (push_multiple_recorded_whatever_the_outcome env [0; 1] w
           ["origin"; "upstream"] two_remotes "" 0 "main" ""
           "main" "1,2" [""] [1; 2]%Z ["origin"; "upstream"] 20).
  - reflexivity.
  - reflexivity.
  - simpl. lia.
  - reflexivity.
  - by eexists.
  - reflexivity.
  - discriminate.
  - discriminate.
  - reflexivity.
  - reflexivity.
  - discriminate.
  - reflexivity.
  - left. reflexivity.
  - reflexivity.
  - lia.
Defined.

Lemma push_single_targets_listed_remote_witness :
  let w := start default_config ["main"; "2"; ""] in
  exists new,
    spawned (interactive_push_single (push_session []) w).2
      = spawned w ++ ["git"; "remote"] :: new /\
    Forall (fun args =>
              args = ["git"; "branch"; "--show-current"] \/
              exists remote branch,
                args = ["git"; "push"; remote; branch] /\
                remote ∈ split_on "010" (strip two_remotes)) new.
Proof.
  intros w.
  apply (push_single_targets_listed_remote (push_session []) w two_remotes "").
  reflexivity.
Defined.

(** The push to upstream succeeds and is recorded. *)
Lemma push_single_recorded_on_success_witness :
  let env := push_session [Exited 0 "" ""] in
  let w := start default_config ["main"; "2"; ""] in
  let w' := (interactive_push_single env w).2 in
  spawned w' =
    spawned w ++ [["git"; "remote"]; ["git"; "branch"; "--show-current"];
                  ["git"; "push"; "upstream"; strip "main"]] /\
  history w' =
    if (0 =? 0)%Z then
      last_n (Z.to_nat 20)
        (history w ++
         [{| command := "push";
             description := [Lit "Pushed "; Fmt (JStr (strip "main")); Lit " to ";
                             Fmt (JStr "upstream")];
             timestamp := time_at env (saves w) |}])
    else history w.
Proof.
  intros env w.
  apply (push_single_recorded_on_success env w two_remotes "" 0 "main" ""
           "main" "2" [""] 2 "upstream" 0 "" "" 20).
  - reflexivity.
  - discriminate.
  - reflexivity.
  - by eexists.
  - reflexivity.
  - discriminate.
  - discriminate.
  - reflexivity.
  - reflexivity.
  - lia.
  - reflexivity.
  - reflexivity.
  - lia.
Defined.

(** The reply [n] to the question of [interactive_push_all]. *)
Lemma push_all_needs_confirmation_witness :
  let w := start default_config ["main"; "n"; ""] in
  let w' := (interactive_push_all (push_session []) [0; 1] w).2 in
  spawned w' = spawned w ++ [["git"; "remote"]; ["git"; "branch"; "--show-current"]] /\
  history w' = history w /\ pools w' = pools w.
Proof.
  intros w.
  apply (push_all_needs_confirmation (push_session []) [0; 1] w two_remotes ""
           0 "main" "" "main" "n" [""]).
  - reflexivity.
  - discriminate.
  - reflexivity.
  - by eexists.
  - reflexivity.
  - discriminate.
  - reflexivity.
Defined.

(** The reply [y]: origin and upstream are pushed to. *)
Lemma push_all_pushes_every_remote_witness :
  let w := start default_config ["main"; "y"; ""] in
  spawned (interactive_push_all (push_session []) [1; 0] w).2 =
    spawned w ++ [["git"; "remote"]; ["git"; "branch"; "--show-current"]]
      ++ ((fun remote => ["git"; "push"; remote; strip "main"])
            <$> split_on "010" (strip two_remotes)).
Proof.
  intros w.
  apply (push_all_pushes_every_remote (push_session []) [1; 0] w two_remotes ""
           0 "main" "" "main" "y" [""]).
  - reflexivity.
  - discriminate.
  - reflexivity.
  - by eexists.
  - reflexivity.
  - discriminate.
  - reflexivity.
  - apply perm_swap.
  - left. reflexivity.
Defined.

(** A configuration file that gives [max_history] as the string [20]. *)
Lemma add_to_history_needs_integer_cap_witness :
  let env := scripted [] in
  let w := start (dict_set (JStr "max_history") (JStr "20") default_config) [] in
  let entry := {| command := "push"; description := [Lit "Pushed main"];
                  timestamp := time_at env (saves w) |} in
  let run := add_to_history env "push" [Lit "Pushed main"] w in
  run.1 = Raise TypeError /\
  history run.2 = history w ++ [entry] /\
  history_file run.2 = history_file w /\ saves run.2 = saves w.
Proof.
  intros env w.
  apply (add_to_history_needs_integer_cap env "push" [Lit "Pushed main"] w).
  - intros n. discriminate.
  - intros b. discriminate.
Defined.

(** A cap of [-2]. *)
Lemma negative_cap_drops_oldest_witness :
  let env := scripted [] in
  let w := start (dict_set (JStr "max_history") (JInt (- 2)) default_config) [] in
  let entry := {| command := "push"; description := [Lit "Pushed main"];
                  timestamp := time_at env (saves w) |} in
  exists w', add_to_history env "push" [Lit "Pushed main"] w = (Ok tt, w') /\
    history w' = drop (Z.to_nat 2) (history w ++ [entry]).
Proof.
  intros env w.
  apply (negative_cap_drops_oldest env "push" [Lit "Pushed main"] w 2).
  - reflexivity.
  - lia.
Defined.

(** The defaults, saved and loaded. *)
Lemma saved_config_loads_back_witness :
  let w := start default_config [] in
  exists doc loaded,
    (save_config true w).1 = Ok (Some doc) /\
    load_config (Present (ReadJson doc)) = Ok loaded /\
    forall k, dict_lookup (JStr k) loaded =
              match dict_lookup (JStr k) (config w) with
              | Some v => Some v
              | None => dict_lookup (JStr k) default_config
              end.
Proof.
  intros w. apply (saved_config_loads_back w).
  - repeat constructor; by eexists.
  - subst w. cbn.
    repeat (apply NoDup_cons; split;
            [rewrite ?elem_of_cons, elem_of_nil; intros H; decompose [or] H;
             done|]).
    apply NoDup_nil_2.
Defined.

(** Three commits ahead, one behind. *)
Lemma get_branch_status_defaults_to_zero_witness :
  let env := scripted [Exited 0 ("3" +:+ String "009" ("1" +:+ String "010" "")) ""] in
  let w := start default_config [] in
  exists ahead behind,
    (get_branch_status env w).1 = Ok (branch_status ahead behind) /\
    ((ahead, behind) <> (0, 0)%Z ->
     (0 = 0)%Z /\
     exists a b,
       split_whitespace (strip ("3" +:+ String "009" ("1" +:+ String "010" ""))) = [a; b] /\
       int_of_str env a = Some ahead /\ int_of_str env b = Some behind).
Proof.
  intros env w.
  apply (get_branch_status_defaults_to_zero env w 0
           ("3" +:+ String "009" ("1" +:+ String "010" "")) "").
  reflexivity.
Defined.

(** git cannot be started for the second of three pushes. *)
Lemma sequential_push_stops_at_first_raise_witness :
  let env := scripted [Exited 0 "" ""; Failed OSError; Exited 0 "" ""] in
  let w := start default_config [] in
  let run := _push_sequential env (["origin"] ++ "upstream" :: ["mirror"]) (JStr "main") w in
  run.1 = Raise OSError /\
  spawned run.2 =
    spawned w ++ ((fun r => ["git"; "push"; r; "main"]) <$> (["origin"] ++ ["upstream"])).
Proof.
  intros env w.
  apply (sequential_push_stops_at_first_raise env ["origin"] "upstream" ["mirror"]
           "main" OSError w).
  - reflexivity.
  - reflexivity.
Defined.

(** The only remote is upstream, the default is origin, the user presses
    Enter. *)
Lemma fetch_default_is_not_checked_witness :
  let env := scripted [Exited 0 ("upstream" +:+ String "010" "") ""] in
  let w := start default_config [""; ""] in
  spawned (interactive_fetch env w).2 =
    spawned w ++ [["git"; "remote"]; ["git"; "fetch"; "origin"]].
Proof.
  intros env w.
  apply (fetch_default_is_not_checked env w ("upstream" +:+ String "010" "") ""
           "" [""] "origin").
  - reflexivity.
  - discriminate.
  - reflexivity.
  - discriminate.
  - reflexivity.
  - reflexivity.
Defined.

(** The first remote of a repository, added under the name upstream. *)
Lemma first_remote_becomes_default_witness :
  let env := scripted [Exited 0 "" ""; Exited 0 ("upstream" +:+ String "010" "") ""] in
  let w := start default_config ["upstream"; "https://example.org/project.git"; ""] in
  let remotes := if (strip ("upstream" +:+ String "010" "") =? "")%string then []
                 else split_on "010" (strip ("upstream" +:+ String "010" "")) in
  let w' := (interactive_add_remote env true w).2 in
  dict_lookup (JStr "default_remote") (config w') =
    if (length remotes =? 1)%nat then Some (JStr (strip "upstream"))
    else dict_lookup (JStr "default_remote") (config w).
Proof.
  intros env w.
  apply (first_remote_becomes_default env true w "upstream"
           "https://example.org/project.git" [""] "" ""
           ("upstream" +:+ String "010" "") "" 20).
  - reflexivity.
  - discriminate.
  - reflexivity.
  - reflexivity.
  - reflexivity.
  - reflexivity.
  - lia.
Defined.

(** A repository with the branches main (current) and feature. *)
Lemma delete_branch_spares_current_witness :
  let output := "* main" +:+ String "010" ("  feature" +:+ String "010" "") in
  let env := scripted [Exited 0 output ""; Exited 0 "main" ""] in
  let w := start default_config ["1"; "y"; ""] in
  let listed := branch_names (strip output) in
  exists new,
    spawned (interactive_delete_branch env w).2 =
      spawned w ++ [["git"; "branch"]; ["git"; "branch"; "--show-current"]] ++ new /\
    Forall (fun args =>
              exists b, args = ["git"; "branch"; "-d"; b] /\ b ∈ listed /\
                        ((1 < length listed)%nat -> 0%Z = 0%Z -> b <> strip "main"))
           new.
Proof.
  intros output env w.
  apply (delete_branch_spares_current env w output "" 0 "main" "").
  - reflexivity.
  - reflexivity.
  - discriminate.
Defined.

Lemma switch_branch_targets_other_branch_witness :
  let output := "* main" +:+ String "010" ("  feature" +:+ String "010" "") in
  let env := scripted [Exited 0 output ""; Exited 0 "main" ""] in
  let w := start default_config ["1"; ""] in
  let listed := branch_names (strip output) in
  exists new,
    spawned (interactive_switch_branch env w).2 =
      spawned w ++ [["git"; "branch"]; ["git"; "branch"; "--show-current"]] ++ new /\
    Forall (fun args =>
              exists b, args = ["git"; "checkout"; b] /\ b ∈ listed /\
                        ((1 < length listed)%nat -> 0%Z = 0%Z -> b <> strip "main"))
           new.
Proof.
  intros output env w.
  apply (switch_branch_targets_other_branch env w output "" 0 "main" "").
  - reflexivity.
  - reflexivity.
  - discriminate.
Defined.

(** origin, the default, is removed; upstream is left. *)
Lemma removing_the_default_remote_moves_the_default_witness :
  let env := scripted [Exited 0 two_remotes ""; Exited 0 "" "";
                       Exited 0 ("upstream" +:+ String "010" "") ""] in
  let w := start default_config ["1"; "y"; ""] in
  let remaining := if (strip ("upstream" +:+ String "010" "") =? "")%string then []
                   else split_on "010" (strip ("upstream" +:+ String "010" "")) in
  let w' := (interactive_remove_remote env true w).2 in
  dict_lookup (JStr "default_remote") (config w') =
    Some (JStr (match remaining with first :: _ => first | [] => "origin" end)) /\
  spawned w' = spawned w ++ [["git"; "remote"]; ["git"; "remote"; "remove"; "origin"];
                             ["git"; "remote"]].
Proof.
  intros env w.
  apply (removing_the_default_remote_moves_the_default env true w two_remotes ""
           "1" "y" [""] 1 "origin" "" "" ("upstream" +:+ String "010" "") "").
  - reflexivity.
  - discriminate.
  - reflexivity.
  - discriminate.
  - reflexivity.
  - lia.
  - reflexivity.
  - reflexivity.
  - reflexivity.
  - reflexivity.
  - reflexivity.
Defined.

(** A file that sets [max_history] and nothing else. *)
Lemma load_config_keeps_default_keys_witness :
  is_Some (dict_lookup (JStr "show_emoji")
             (dict_set (JStr "max_history") (JInt 5) default_config)).
Proof.
  apply (load_config_keeps_default_keys
           (Present (ReadJson (JDict [("max_history", JInt 5)])))
           (dict_set (JStr "max_history") (JInt 5) default_config)
           (JStr "show_emoji")).
  - reflexivity.
  - by eexists.
Defined.
